(** * Area-trend monitoring pipeline: gap cleaning, smoothing, trend
    detection and alert escalation.

    Shallow embedding of [data_processor.py], of the video loop and the
    aggregation part of [video_processor.py] and of the monitoring part
    of [app.py].

    Conventions of the embedding.
    - A Python float is a rational number or NaN ([None]); arithmetic on
      floats is exact rational arithmetic, so statements about computed
      values are up to [Qeq] (or after [Qred]).
    - Exceptions are values of [exn]; a computation that can raise returns
      a [result].
    - A Python [set] of integers is a [gset Z].
    - The session is a transition system: a button, an iteration of the
      video loop and a deferred Tk call are atomic steps.
    - The pandas and NumPy calls ([Series.interpolate], [fillna],
      [rolling(...).mean()], [np.interp], [np.nanmean], boolean-mask
      indexing) are embedded after the behaviour of those libraries. *)

From Stdlib Require Import ZArith QArith Qabs List Bool Lia.
From stdpp Require Import gmap sorting.
Import ListNotations.

(* ===================================================================== *)
(** * Python values *)
(* ===================================================================== *)

Abbreviation float := (option Q) (only parsing).

Inductive exn := ValueError | IndexError | TypeError.

Inductive result (A : Type) : Type :=
| Ok (a : A)
| Raise (e : exn).
Arguments Ok {A} a.
Arguments Raise {A} e.

#[global] Instance result_ret : MRet result := fun A a => Ok a.
#[global] Instance result_bind : MBind result := fun A B k r =>
  match r with
  | Ok a => k a
  | Raise e => Raise e
  end.

(** Comparisons on rationals, as booleans. *)
Definition Qlt_bool (a b : Q) : bool := negb (Qle_bool b a).

(** [int(x)] truncates towards zero. *)
Definition int (x : Q) : Z := Z.quot (Qnum x) (Z.pos (Qden x)).

(** [l[lo:hi]] for [0 <= lo]. *)
Definition slice {A} (l : list A) (lo hi : nat) : list A :=
  firstn (hi - lo) (skipn lo l).

Definition Qsum (l : list Q) : Q := fold_right Qplus 0%Q l.

Definition isna (v : float) : bool :=
  match v with None => true | Some _ => false end.

(** The entries of an array that are not NaN. *)
Fixpoint valid_values (w : list float) : list Q :=
  match w with
  | [] => []
  | Some v :: r => v :: valid_values r
  | None :: r => valid_values r
  end.

(** [np.nanmean]: mean of the entries that are not NaN; NaN when there is
    none. *)
Definition nanmean (w : list float) : float :=
  match valid_values w with
  | [] => None
  | vs => Some (Qsum vs / inject_Z (Z.of_nat (length vs)))%Q
  end.

(** [range(start, stop, step)], with the length CPython computes. *)
Definition range_length (start stop step : Z) : Z :=
  let '(lo, hi, st) :=
    if (0 <? step)%Z then (start, stop, step) else (stop, start, (- step)%Z) in
  if (hi <=? lo)%Z then 0%Z else ((hi - lo - 1) / st + 1)%Z.

Definition range (start stop step : Z) : result (list Z) :=
  if (step =? 0)%Z then Raise ValueError
  else Ok (map (fun k : nat => (start + Z.of_nat k * step)%Z)
               (seq 0 (Z.to_nat (range_length start stop step)))).

(** [a[mask]] for a one-dimensional array and a boolean array: NumPy
    raises [IndexError] when the boolean index does not have the length
    of the indexed array, and otherwise keeps the entries at the true
    positions. *)
Fixpoint compress {A} (a : list A) (mask : list bool) : list A :=
  match a, mask with
  | x :: a', true :: m' => x :: compress a' m'
  | _ :: a', false :: m' => compress a' m'
  | _, _ => []
  end.

Definition mask_index {A} (a : list A) (mask : list bool) : result (list A) :=
  if (length a =? length mask)%nat then Ok (compress a mask)
  else Raise IndexError.

(* ===================================================================== *)
(** * pandas: interpolation, fillna, rolling mean *)
(* ===================================================================== *)

Module Pandas.

(** [_interp_limit]: the positions of NaNs that stay NaN, those with no
    valid entry within [fw_limit] positions before and [bw_limit]
    positions after:
    [invalid[max(0, x - fw_limit) : x + bw_limit + 1].all()]. *)
Definition _interp_limit (invalid : list bool) (fw_limit bw_limit : nat)
  : list nat :=
  List.filter
    (fun x => nth x invalid false
              && forallb id (slice invalid (x - fw_limit) (x + bw_limit + 1)))
    (seq 0 (length invalid)).

(** [np.argsort] on the sample points: insertion by abscissa, equal
    abscissas kept in input order. *)
Fixpoint insert_pt (p : Q * Q) (l : list (Q * Q)) : list (Q * Q) :=
  match l with
  | [] => [p]
  | q :: r => if Qle_bool (fst q) (fst p) then q :: insert_pt p r
              else p :: q :: r
  end.

Definition sort_pts (l : list (Q * Q)) : list (Q * Q) :=
  fold_left (fun acc p => insert_pt p acc) l [].

(** [np.interp] at one abscissa, over sample points sorted by abscissa.
    [cur] is the last sample point whose abscissa is at most [x]. *)
Fixpoint interp_from (x : Q) (cur : Q * Q) (pts : list (Q * Q)) : Q :=
  match pts with
  | [] => snd cur
  | nxt :: rest =>
      if Qle_bool (fst nxt) x then interp_from x nxt rest
      else if Qeq_bool (fst cur) x then snd cur
      else ((snd nxt - snd cur) / (fst nxt - fst cur) * (x - fst cur)
            + snd cur)%Q
  end.

Definition np_interp (x : Q) (pts : list (Q * Q)) : Q :=
  match pts with
  | [] => 0%Q
  | p0 :: rest => if Qlt_bool x (fst p0) then snd p0
                  else interp_from x p0 rest
  end.

(** The sample points: the entries that are not NaN, with their index
    value. *)
Fixpoint valid_points (indices : list Q) (yvalues : list float)
  : list (Q * Q) :=
  match indices, yvalues with
  | x :: xs, Some y :: ys => (x, y) :: valid_points xs ys
  | _ :: xs, None :: ys => valid_points xs ys
  | _, _ => []
  end.

(** One entry after interpolation: a valid entry is kept, a NaN that is
    to be preserved stays NaN, any other NaN takes the interpolated
    value. *)
Definition fill_entry (pts : list (Q * Q)) (preserve_nans : list nat)
    (i : nat) (x : Q) (y : float) : float :=
  match y with
  | Some v => Some v
  | None => if existsb (Nat.eqb i) preserve_nans then None
            else Some (np_interp x pts)
  end.

Fixpoint fill_from (pts : list (Q * Q)) (preserve_nans : list nat)
    (i : nat) (indices : list Q) (yvalues : list float) : list float :=
  match indices, yvalues with
  | x :: xs, y :: ys =>
      fill_entry pts preserve_nans i x y
        :: fill_from pts preserve_nans (S i) xs ys
  | _, _ => []
  end.

(** [_interpolate_1d] with [method="time"] and [limit_direction="both"]:
    nothing to do when no entry or every entry is valid. *)
Definition _interpolate_1d (indices : list Q) (yvalues : list float)
    (limit : nat) : list float :=
  let invalid := map isna yvalues in
  if forallb id invalid then yvalues
  else if forallb negb invalid then yvalues
  else
    let preserve_nans := _interp_limit invalid limit limit in
    let pts := sort_pts (valid_points indices yvalues) in
    fill_from pts preserve_nans 0 indices yvalues.

(** [Series.fillna(value)]. *)
Definition fillna (value : Q) (s : list float) : list float :=
  map (fun y => match y with Some v => Some v | None => Some value end) s.

(** [Series.rolling(window, min_periods=1).mean()]: at each position
    the mean of the entries of the trailing window that are not NaN,
    NaN when the window holds none.  The window size is a positive
    count (pandas rejects a window below [min_periods]). *)
Definition rolling_mean (window : positive) (s : list float) : list float :=
  map (fun i => nanmean (slice s (i + 1 - Pos.to_nat window) (i + 1)))
      (seq 0 (length s)).

End Pandas.

(* ===================================================================== *)
(** * data_processor.py *)
(* ===================================================================== *)

Module DataProcessor.

(** [clean_data(areas, timestamps, gap_limit)].  [gap_limit] is a
    positive count (pandas rejects a limit below 1; the caller passes
    3).  The index of the series is the timestamps, taken at full
    precision. *)
Definition clean_data (areas : list float) (timestamps : list Q)
    (gap_limit : positive) : list float :=
  if (length areas =? 0)%nat || (length timestamps =? 0)%nat
     || negb (length areas =? length timestamps)%nat
  then areas
  else
    let areas_interpolated :=
      Pandas._interpolate_1d timestamps areas (Pos.to_nat gap_limit) in
    Pandas.fillna 0%Q areas_interpolated.

Inductive status_t := NORMAL | NG | SKIP.

#[global] Instance status_eq_dec : EqDecision status_t.
Proof. solve_decision. Defined.

(** One entry of the returned list (a dict in the source). *)
Record WindowEvaluation := {
  time_sec : Z;
  minutes : Q;
  prev_avg_area : float;
  curr_avg_area : float;
  ratio : float;
  status : status_t
}.

(** The state of the evaluation loop: [last_ng_time] ([None] is
    [-np.inf]) and [results]. *)
Definition loop_state : Type := option Z * list WindowEvaluation.

(** [abs(ratio - 1) < epsilon]; a comparison with NaN is false. *)
Definition flat (ratio : float) (epsilon : Q) : bool :=
  match ratio with
  | Some r => Qlt_bool (Qabs (r - 1)) epsilon
  | None => false
  end.

(** [(t_now - last_ng_time) <= cooldown]; false while [last_ng_time] is
    [-np.inf]. *)
Definition in_cooldown (t_now : Z) (last_ng_time : option Z) (cooldown : Q)
  : bool :=
  match last_ng_time with
  | Some l => Qle_bool (inject_Z (t_now - l)) cooldown
  | None => false
  end.

Definition prev_mask (timestamps : list Q) (L_sec : Q) (t_now : Z)
  : list bool :=
  let t_prev := (inject_Z t_now - L_sec)%Q in
  map (fun ts => Qle_bool (t_prev - L_sec) ts && Qlt_bool ts t_prev)
      timestamps.

Definition curr_mask (timestamps : list Q) (L_sec : Q) (t_now : Z)
  : list bool :=
  let t_prev := (inject_Z t_now - L_sec)%Q in
  map (fun ts => Qle_bool t_prev ts && Qlt_bool ts (inject_Z t_now))
      timestamps.

(** The body of the [for t_now in range(...)] loop. *)
Definition loop_body (areas : list float) (timestamps : list Q)
    (minutes epsilon cooldown : Q) (st : loop_state) (t_now : Z)
  : result loop_state :=
  let '(last_ng_time, results) := st in
  let L_sec := (minutes * 60)%Q in
  prev_window ← mask_index areas (prev_mask timestamps L_sec t_now);
  curr_window ← mask_index areas (curr_mask timestamps L_sec t_now);
  if (length prev_window =? 0)%nat || (length curr_window =? 0)%nat
  then mret st
  else
    let prev_avg := nanmean prev_window in
    let curr_avg := nanmean curr_window in
    match prev_avg with
    | Some p =>
        if Qlt_bool 0 p then
          let ratio := option_map (fun c => (c / p)%Q) curr_avg in
          let status := if flat ratio epsilon then NG else NORMAL in
          let status :=
            if bool_decide (status = NG)
               && in_cooldown t_now last_ng_time cooldown
            then SKIP else status in
          let last_ng_time :=
            if bool_decide (status = NG) then Some t_now
            else last_ng_time in
          mret (last_ng_time,
                results ++ [ {| time_sec := t_now;
                                minutes := minutes;
                                prev_avg_area := prev_avg;
                                curr_avg_area := curr_avg;
                                ratio := ratio;
                                status := status |} ])
        else mret st
    | None => mret st
    end.

Fixpoint for_each {S} (body : S -> Z -> result S) (st : S) (l : list Z)
  : result S :=
  match l with
  | [] => mret st
  | t :: r => st' ← body st t; for_each body st' r
  end.

Definition step_size (minutes overlap_ratio : Q) : Z :=
  int (minutes * 60 * (1 - overlap_ratio))%Q.

(** [check_area_trend_timebased(areas, timestamps, minutes, epsilon,
    overlap_ratio, cooldown)]. *)
Definition check_area_trend_timebased (areas : list float)
    (timestamps : list Q) (minutes epsilon overlap_ratio cooldown : Q)
  : result (list WindowEvaluation) :=
  if (length areas =? 0)%nat || (length timestamps =? 0)%nat then mret []
  else
    let L_sec := (minutes * 60)%Q in
    evaluation_times ←
      range (int (hd 0%Q timestamps + L_sec)%Q)
            (int (List.last timestamps 0%Q + 1)%Q)
            (step_size minutes overlap_ratio);
    st ← for_each (loop_body areas timestamps minutes epsilon cooldown)
                  (None, []) evaluation_times;
    mret (snd st).

(** [extract_ng_markers(results)]. *)
Definition extract_ng_markers (results : list WindowEvaluation) : list Z :=
  map time_sec
      (List.filter (fun r => bool_decide (status r = NG)) results).

End DataProcessor.

(* ===================================================================== *)
(** * app.py: the state of the application *)
(* ===================================================================== *)

Module App.
Import DataProcessor.

(** A video frame, identified by its content. *)
Inductive image := Frame (content : nat).

(** One detection: [box.conf.item()], [int(box.cls.item())] and
    [box.xyxy[0]]. *)
Record box := {
  conf : Q;
  cls_id : Z;
  x1 : Q; y1 : Q; x2 : Q; y2 : Q
}.

(** [results.boxes], which may be [None]. *)
Definition boxes := option (list box).

(** [range_str]: the string formatted from [inference_start_time] and
    [inference_start_time + t], represented by the start instant and
    the offset [t]. *)
Record time_range := { range_from : Q; range_offset : Z }.

(** A call handed to the Tk event loop by [root.after(0, ...)]. *)
Inductive callback :=
| CheckAndHandleNg
| ShowNonModalWarning (range_str : time_range).

(** A line of [ng_log.csv]. *)
Inductive csv_line :=
| Header
| Row (range_str : time_range) (duration : Z).

(** What a warning does to the collaborators: the beep thread, the PDF
    report, the console message about missing images, the warning
    window. *)
Inductive event :=
| Beep (range_str : time_range)
| GeneratePdf (range_str : time_range) (img1 img2 : image)
| MissingImages (range_str : time_range)
| WarningWindow (range_str : time_range).

(** The attributes of [YOLOInferenceApp] that the pipeline reads or
    writes, with the pending Tk calls, the content of [ng_log.csv] and
    the events so far.  Attributes that only drive the display, the
    model or the video source are left out. *)
Record app := {
  is_inference : bool;
  is_preview : bool;
  is_monitoring : bool;
  current_frame : option image;
  start_monitor_image : option image;
  inference_start_time : option Q;
  last_detect_time : option Q;
  raw_areas : list float;
  raw_time_stamps : list Q;
  avg_areas : list float;
  avg_time_stamps : list Q;
  sma_areas : list float;
  sma_time_stamps : list Q;
  frame_group : list boxes;
  frame_times : list Q;
  ng_3_times : gset Z;
  ng_5_times : gset Z;
  sma_window_var : positive;
  after_queue : list callback;
  ng_log : list csv_line;
  events : list event
}.

Definition set_is_inference (v : bool) (st : app) : app :=
  {| is_inference := v; is_preview := is_preview st; is_monitoring :=
     is_monitoring st; current_frame := current_frame st;
     start_monitor_image := start_monitor_image st; inference_start_time
     := inference_start_time st; last_detect_time := last_detect_time
     st; raw_areas := raw_areas st; raw_time_stamps := raw_time_stamps
     st; avg_areas := avg_areas st; avg_time_stamps := avg_time_stamps
     st; sma_areas := sma_areas st; sma_time_stamps := sma_time_stamps
     st; frame_group := frame_group st; frame_times := frame_times st;
     ng_3_times := ng_3_times st; ng_5_times := ng_5_times st;
     sma_window_var := sma_window_var st; after_queue := after_queue st;
     ng_log := ng_log st; events := events st |}.

Definition set_is_preview (v : bool) (st : app) : app :=
  {| is_inference := is_inference st; is_preview := v; is_monitoring :=
     is_monitoring st; current_frame := current_frame st;
     start_monitor_image := start_monitor_image st; inference_start_time
     := inference_start_time st; last_detect_time := last_detect_time
     st; raw_areas := raw_areas st; raw_time_stamps := raw_time_stamps
     st; avg_areas := avg_areas st; avg_time_stamps := avg_time_stamps
     st; sma_areas := sma_areas st; sma_time_stamps := sma_time_stamps
     st; frame_group := frame_group st; frame_times := frame_times st;
     ng_3_times := ng_3_times st; ng_5_times := ng_5_times st;
     sma_window_var := sma_window_var st; after_queue := after_queue st;
     ng_log := ng_log st; events := events st |}.

Definition set_is_monitoring (v : bool) (st : app) : app :=
  {| is_inference := is_inference st; is_preview := is_preview st;
     is_monitoring := v; current_frame := current_frame st;
     start_monitor_image := start_monitor_image st; inference_start_time
     := inference_start_time st; last_detect_time := last_detect_time
     st; raw_areas := raw_areas st; raw_time_stamps := raw_time_stamps
     st; avg_areas := avg_areas st; avg_time_stamps := avg_time_stamps
     st; sma_areas := sma_areas st; sma_time_stamps := sma_time_stamps
     st; frame_group := frame_group st; frame_times := frame_times st;
     ng_3_times := ng_3_times st; ng_5_times := ng_5_times st;
     sma_window_var := sma_window_var st; after_queue := after_queue st;
     ng_log := ng_log st; events := events st |}.

Definition set_current_frame (v : option image) (st : app) : app :=
  {| is_inference := is_inference st; is_preview := is_preview st;
     is_monitoring := is_monitoring st; current_frame := v;
     start_monitor_image := start_monitor_image st; inference_start_time
     := inference_start_time st; last_detect_time := last_detect_time
     st; raw_areas := raw_areas st; raw_time_stamps := raw_time_stamps
     st; avg_areas := avg_areas st; avg_time_stamps := avg_time_stamps
     st; sma_areas := sma_areas st; sma_time_stamps := sma_time_stamps
     st; frame_group := frame_group st; frame_times := frame_times st;
     ng_3_times := ng_3_times st; ng_5_times := ng_5_times st;
     sma_window_var := sma_window_var st; after_queue := after_queue st;
     ng_log := ng_log st; events := events st |}.

Definition set_start_monitor_image (v : option image) (st : app) : app :=
  {| is_inference := is_inference st; is_preview := is_preview st;
     is_monitoring := is_monitoring st; current_frame := current_frame
     st; start_monitor_image := v; inference_start_time :=
     inference_start_time st; last_detect_time := last_detect_time st;
     raw_areas := raw_areas st; raw_time_stamps := raw_time_stamps st;
     avg_areas := avg_areas st; avg_time_stamps := avg_time_stamps st;
     sma_areas := sma_areas st; sma_time_stamps := sma_time_stamps st;
     frame_group := frame_group st; frame_times := frame_times st;
     ng_3_times := ng_3_times st; ng_5_times := ng_5_times st;
     sma_window_var := sma_window_var st; after_queue := after_queue st;
     ng_log := ng_log st; events := events st |}.

Definition set_inference_start_time (v : option Q) (st : app) : app :=
  {| is_inference := is_inference st; is_preview := is_preview st;
     is_monitoring := is_monitoring st; current_frame := current_frame
     st; start_monitor_image := start_monitor_image st;
     inference_start_time := v; last_detect_time := last_detect_time st;
     raw_areas := raw_areas st; raw_time_stamps := raw_time_stamps st;
     avg_areas := avg_areas st; avg_time_stamps := avg_time_stamps st;
     sma_areas := sma_areas st; sma_time_stamps := sma_time_stamps st;
     frame_group := frame_group st; frame_times := frame_times st;
     ng_3_times := ng_3_times st; ng_5_times := ng_5_times st;
     sma_window_var := sma_window_var st; after_queue := after_queue st;
     ng_log := ng_log st; events := events st |}.

Definition set_last_detect_time (v : option Q) (st : app) : app :=
  {| is_inference := is_inference st; is_preview := is_preview st;
     is_monitoring := is_monitoring st; current_frame := current_frame
     st; start_monitor_image := start_monitor_image st;
     inference_start_time := inference_start_time st; last_detect_time
     := v; raw_areas := raw_areas st; raw_time_stamps := raw_time_stamps
     st; avg_areas := avg_areas st; avg_time_stamps := avg_time_stamps
     st; sma_areas := sma_areas st; sma_time_stamps := sma_time_stamps
     st; frame_group := frame_group st; frame_times := frame_times st;
     ng_3_times := ng_3_times st; ng_5_times := ng_5_times st;
     sma_window_var := sma_window_var st; after_queue := after_queue st;
     ng_log := ng_log st; events := events st |}.

Definition set_raw_areas (v : list float) (st : app) : app :=
  {| is_inference := is_inference st; is_preview := is_preview st;
     is_monitoring := is_monitoring st; current_frame := current_frame
     st; start_monitor_image := start_monitor_image st;
     inference_start_time := inference_start_time st; last_detect_time
     := last_detect_time st; raw_areas := v; raw_time_stamps :=
     raw_time_stamps st; avg_areas := avg_areas st; avg_time_stamps :=
     avg_time_stamps st; sma_areas := sma_areas st; sma_time_stamps :=
     sma_time_stamps st; frame_group := frame_group st; frame_times :=
     frame_times st; ng_3_times := ng_3_times st; ng_5_times :=
     ng_5_times st; sma_window_var := sma_window_var st; after_queue :=
     after_queue st; ng_log := ng_log st; events := events st |}.

Definition set_raw_time_stamps (v : list Q) (st : app) : app :=
  {| is_inference := is_inference st; is_preview := is_preview st;
     is_monitoring := is_monitoring st; current_frame := current_frame
     st; start_monitor_image := start_monitor_image st;
     inference_start_time := inference_start_time st; last_detect_time
     := last_detect_time st; raw_areas := raw_areas st; raw_time_stamps
     := v; avg_areas := avg_areas st; avg_time_stamps := avg_time_stamps
     st; sma_areas := sma_areas st; sma_time_stamps := sma_time_stamps
     st; frame_group := frame_group st; frame_times := frame_times st;
     ng_3_times := ng_3_times st; ng_5_times := ng_5_times st;
     sma_window_var := sma_window_var st; after_queue := after_queue st;
     ng_log := ng_log st; events := events st |}.

Definition set_avg_areas (v : list float) (st : app) : app :=
  {| is_inference := is_inference st; is_preview := is_preview st;
     is_monitoring := is_monitoring st; current_frame := current_frame
     st; start_monitor_image := start_monitor_image st;
     inference_start_time := inference_start_time st; last_detect_time
     := last_detect_time st; raw_areas := raw_areas st; raw_time_stamps
     := raw_time_stamps st; avg_areas := v; avg_time_stamps :=
     avg_time_stamps st; sma_areas := sma_areas st; sma_time_stamps :=
     sma_time_stamps st; frame_group := frame_group st; frame_times :=
     frame_times st; ng_3_times := ng_3_times st; ng_5_times :=
     ng_5_times st; sma_window_var := sma_window_var st; after_queue :=
     after_queue st; ng_log := ng_log st; events := events st |}.

Definition set_avg_time_stamps (v : list Q) (st : app) : app :=
  {| is_inference := is_inference st; is_preview := is_preview st;
     is_monitoring := is_monitoring st; current_frame := current_frame
     st; start_monitor_image := start_monitor_image st;
     inference_start_time := inference_start_time st; last_detect_time
     := last_detect_time st; raw_areas := raw_areas st; raw_time_stamps
     := raw_time_stamps st; avg_areas := avg_areas st; avg_time_stamps
     := v; sma_areas := sma_areas st; sma_time_stamps := sma_time_stamps
     st; frame_group := frame_group st; frame_times := frame_times st;
     ng_3_times := ng_3_times st; ng_5_times := ng_5_times st;
     sma_window_var := sma_window_var st; after_queue := after_queue st;
     ng_log := ng_log st; events := events st |}.

Definition set_sma_areas (v : list float) (st : app) : app :=
  {| is_inference := is_inference st; is_preview := is_preview st;
     is_monitoring := is_monitoring st; current_frame := current_frame
     st; start_monitor_image := start_monitor_image st;
     inference_start_time := inference_start_time st; last_detect_time
     := last_detect_time st; raw_areas := raw_areas st; raw_time_stamps
     := raw_time_stamps st; avg_areas := avg_areas st; avg_time_stamps
     := avg_time_stamps st; sma_areas := v; sma_time_stamps :=
     sma_time_stamps st; frame_group := frame_group st; frame_times :=
     frame_times st; ng_3_times := ng_3_times st; ng_5_times :=
     ng_5_times st; sma_window_var := sma_window_var st; after_queue :=
     after_queue st; ng_log := ng_log st; events := events st |}.

Definition set_sma_time_stamps (v : list Q) (st : app) : app :=
  {| is_inference := is_inference st; is_preview := is_preview st;
     is_monitoring := is_monitoring st; current_frame := current_frame
     st; start_monitor_image := start_monitor_image st;
     inference_start_time := inference_start_time st; last_detect_time
     := last_detect_time st; raw_areas := raw_areas st; raw_time_stamps
     := raw_time_stamps st; avg_areas := avg_areas st; avg_time_stamps
     := avg_time_stamps st; sma_areas := sma_areas st; sma_time_stamps
     := v; frame_group := frame_group st; frame_times := frame_times st;
     ng_3_times := ng_3_times st; ng_5_times := ng_5_times st;
     sma_window_var := sma_window_var st; after_queue := after_queue st;
     ng_log := ng_log st; events := events st |}.

Definition set_frame_group (v : list boxes) (st : app) : app :=
  {| is_inference := is_inference st; is_preview := is_preview st;
     is_monitoring := is_monitoring st; current_frame := current_frame
     st; start_monitor_image := start_monitor_image st;
     inference_start_time := inference_start_time st; last_detect_time
     := last_detect_time st; raw_areas := raw_areas st; raw_time_stamps
     := raw_time_stamps st; avg_areas := avg_areas st; avg_time_stamps
     := avg_time_stamps st; sma_areas := sma_areas st; sma_time_stamps
     := sma_time_stamps st; frame_group := v; frame_times := frame_times
     st; ng_3_times := ng_3_times st; ng_5_times := ng_5_times st;
     sma_window_var := sma_window_var st; after_queue := after_queue st;
     ng_log := ng_log st; events := events st |}.

Definition set_frame_times (v : list Q) (st : app) : app :=
  {| is_inference := is_inference st; is_preview := is_preview st;
     is_monitoring := is_monitoring st; current_frame := current_frame
     st; start_monitor_image := start_monitor_image st;
     inference_start_time := inference_start_time st; last_detect_time
     := last_detect_time st; raw_areas := raw_areas st; raw_time_stamps
     := raw_time_stamps st; avg_areas := avg_areas st; avg_time_stamps
     := avg_time_stamps st; sma_areas := sma_areas st; sma_time_stamps
     := sma_time_stamps st; frame_group := frame_group st; frame_times
     := v; ng_3_times := ng_3_times st; ng_5_times := ng_5_times st;
     sma_window_var := sma_window_var st; after_queue := after_queue st;
     ng_log := ng_log st; events := events st |}.

Definition set_ng_3_times (v : gset Z) (st : app) : app :=
  {| is_inference := is_inference st; is_preview := is_preview st;
     is_monitoring := is_monitoring st; current_frame := current_frame
     st; start_monitor_image := start_monitor_image st;
     inference_start_time := inference_start_time st; last_detect_time
     := last_detect_time st; raw_areas := raw_areas st; raw_time_stamps
     := raw_time_stamps st; avg_areas := avg_areas st; avg_time_stamps
     := avg_time_stamps st; sma_areas := sma_areas st; sma_time_stamps
     := sma_time_stamps st; frame_group := frame_group st; frame_times
     := frame_times st; ng_3_times := v; ng_5_times := ng_5_times st;
     sma_window_var := sma_window_var st; after_queue := after_queue st;
     ng_log := ng_log st; events := events st |}.

Definition set_ng_5_times (v : gset Z) (st : app) : app :=
  {| is_inference := is_inference st; is_preview := is_preview st;
     is_monitoring := is_monitoring st; current_frame := current_frame
     st; start_monitor_image := start_monitor_image st;
     inference_start_time := inference_start_time st; last_detect_time
     := last_detect_time st; raw_areas := raw_areas st; raw_time_stamps
     := raw_time_stamps st; avg_areas := avg_areas st; avg_time_stamps
     := avg_time_stamps st; sma_areas := sma_areas st; sma_time_stamps
     := sma_time_stamps st; frame_group := frame_group st; frame_times
     := frame_times st; ng_3_times := ng_3_times st; ng_5_times := v;
     sma_window_var := sma_window_var st; after_queue := after_queue st;
     ng_log := ng_log st; events := events st |}.

Definition set_sma_window_var (v : positive) (st : app) : app :=
  {| is_inference := is_inference st; is_preview := is_preview st;
     is_monitoring := is_monitoring st; current_frame := current_frame
     st; start_monitor_image := start_monitor_image st;
     inference_start_time := inference_start_time st; last_detect_time
     := last_detect_time st; raw_areas := raw_areas st; raw_time_stamps
     := raw_time_stamps st; avg_areas := avg_areas st; avg_time_stamps
     := avg_time_stamps st; sma_areas := sma_areas st; sma_time_stamps
     := sma_time_stamps st; frame_group := frame_group st; frame_times
     := frame_times st; ng_3_times := ng_3_times st; ng_5_times :=
     ng_5_times st; sma_window_var := v; after_queue := after_queue st;
     ng_log := ng_log st; events := events st |}.

Definition set_after_queue (v : list callback) (st : app) : app :=
  {| is_inference := is_inference st; is_preview := is_preview st;
     is_monitoring := is_monitoring st; current_frame := current_frame
     st; start_monitor_image := start_monitor_image st;
     inference_start_time := inference_start_time st; last_detect_time
     := last_detect_time st; raw_areas := raw_areas st; raw_time_stamps
     := raw_time_stamps st; avg_areas := avg_areas st; avg_time_stamps
     := avg_time_stamps st; sma_areas := sma_areas st; sma_time_stamps
     := sma_time_stamps st; frame_group := frame_group st; frame_times
     := frame_times st; ng_3_times := ng_3_times st; ng_5_times :=
     ng_5_times st; sma_window_var := sma_window_var st; after_queue :=
     v; ng_log := ng_log st; events := events st |}.

Definition set_ng_log (v : list csv_line) (st : app) : app :=
  {| is_inference := is_inference st; is_preview := is_preview st;
     is_monitoring := is_monitoring st; current_frame := current_frame
     st; start_monitor_image := start_monitor_image st;
     inference_start_time := inference_start_time st; last_detect_time
     := last_detect_time st; raw_areas := raw_areas st; raw_time_stamps
     := raw_time_stamps st; avg_areas := avg_areas st; avg_time_stamps
     := avg_time_stamps st; sma_areas := sma_areas st; sma_time_stamps
     := sma_time_stamps st; frame_group := frame_group st; frame_times
     := frame_times st; ng_3_times := ng_3_times st; ng_5_times :=
     ng_5_times st; sma_window_var := sma_window_var st; after_queue :=
     after_queue st; ng_log := v; events := events st |}.

Definition set_events (v : list event) (st : app) : app :=
  {| is_inference := is_inference st; is_preview := is_preview st;
     is_monitoring := is_monitoring st; current_frame := current_frame
     st; start_monitor_image := start_monitor_image st;
     inference_start_time := inference_start_time st; last_detect_time
     := last_detect_time st; raw_areas := raw_areas st; raw_time_stamps
     := raw_time_stamps st; avg_areas := avg_areas st; avg_time_stamps
     := avg_time_stamps st; sma_areas := sma_areas st; sma_time_stamps
     := sma_time_stamps st; frame_group := frame_group st; frame_times
     := frame_times st; ng_3_times := ng_3_times st; ng_5_times :=
     ng_5_times st; sma_window_var := sma_window_var st; after_queue :=
     after_queue st; ng_log := ng_log st; events := v |}.

(** [__init__], over the log file found on disk. *)
Definition init (log : list csv_line) : app :=
  {| is_inference := false; is_preview := false; is_monitoring := false;
     current_frame := None; start_monitor_image := None;
     inference_start_time := None; last_detect_time := None;
     raw_areas := []; raw_time_stamps := [];
     avg_areas := []; avg_time_stamps := [];
     sma_areas := []; sma_time_stamps := [];
     frame_group := []; frame_times := [];
     ng_3_times := ∅; ng_5_times := ∅;
     sma_window_var := 7%positive;
     after_queue := []; ng_log := log; events := [] |}.

(** [reset_area_data]. *)
Definition reset_area_data (st : app) : app :=
  set_start_monitor_image None
    (set_ng_5_times ∅
    (set_ng_3_times ∅
    (set_last_detect_time None
    (set_frame_times []
    (set_frame_group []
    (set_sma_time_stamps []
    (set_sma_areas []
    (set_avg_time_stamps []
    (set_avg_areas []
    (set_raw_time_stamps []
    (set_raw_areas [] st))))))))))).

(** [ResourceManager.clear_memory_and_resources]: the data lists are
    emptied in place. *)
Definition clear_memory_and_resources (st : app) : app :=
  set_frame_times []
    (set_frame_group []
    (set_sma_time_stamps []
    (set_sma_areas []
    (set_avg_time_stamps []
    (set_avg_areas []
    (set_raw_time_stamps []
    (set_raw_areas [] st))))))).

(** [start_preview]; [source_ok] is [self.cap and self.cap.isOpened()]. *)
Definition start_preview (source_ok : bool) (st : app) : app :=
  if negb source_ok then st else set_is_preview true st.

(** [toggle_monitoring]. *)
Definition toggle_monitoring (st : app) : app :=
  if negb (is_inference st) then st
  else
    let st := set_is_monitoring (negb (is_monitoring st)) st in
    if is_monitoring st then
      match current_frame st with
      | Some frame => set_start_monitor_image (Some frame) st
      | None => st
      end
    else set_start_monitor_image None st.

(** [start_inference]; [ready] says that a model is loaded and a video
    source is open, [now] is [time.time()]. *)
Definition start_inference (ready : bool) (now : Q) (st : app) : app :=
  if negb ready then st
  else
    let st := reset_area_data st in
    set_inference_start_time (Some now) (set_is_inference true st).

(** [stop_inference]. *)
Definition stop_inference (st : app) : app :=
  set_is_preview true (set_is_monitoring false (set_is_inference false st)).

(** [stop_processing]. *)
Definition stop_processing (st : app) : app :=
  set_is_monitoring false (set_is_preview false (set_is_inference false st)).

(** [clear_all_data]; [confirmed] is the answer to the dialog shown
    while the system runs. *)
Definition clear_all_data (confirmed : bool) (st : app) : app :=
  if is_inference st || is_preview st then
    if negb confirmed then st
    else clear_memory_and_resources (reset_area_data (stop_processing st))
  else clear_memory_and_resources (reset_area_data st).

(** [auto_reset_system]. *)
Definition auto_reset_system (st : app) : app :=
  clear_memory_and_resources (stop_inference st).

(** [show_non_modal_warning(range_str)]. *)
Definition show_non_modal_warning (range_str : time_range) (st : app)
  : app :=
  let st := set_events (events st ++ [Beep range_str]) st in
  let ng_image := current_frame st in
  let st :=
    match start_monitor_image st, ng_image with
    | Some img1, Some img2 =>
        set_events (events st ++ [GeneratePdf range_str img1 img2]) st
    | _, _ => set_events (events st ++ [MissingImages range_str]) st
    end in
  set_events (events st ++ [WarningWindow range_str]) st.

(** The body of [for t in new_ng_5]: one row (after the header when the
    file is empty) and one deferred warning per new alert time.
    Formatting [inference_start_time + t] raises while the start time
    is [None]. *)
Fixpoint alert_loop (new_ng_5 : list Z) (st : app) : app * option exn :=
  match new_ng_5 with
  | [] => (st, None)
  | t :: rest =>
      match inference_start_time st with
      | None => (st, Some TypeError)
      | Some start =>
          let range_str := {| range_from := start; range_offset := t |} in
          let duration := (5 * 60)%Z in
          let file_exists := negb (length (ng_log st) =? 0)%nat in
          let st :=
            if negb file_exists then set_ng_log (ng_log st ++ [Header]) st
            else st in
          let st := set_ng_log (ng_log st ++ [Row range_str duration]) st in
          let st :=
            set_after_queue
              (after_queue st ++ [ShowNonModalWarning range_str]) st in
          alert_loop rest st
      end
  end.

(** [check_and_handle_ng] from the update of the NG sets on, over the
    markers [ng_3] and [ng_5] of the two detectors. *)
Definition handle_ng (ng_3 ng_5 : list Z) (st : app) : app * option exn :=
  let st := set_ng_3_times (ng_3_times st ∪ list_to_set ng_3) st in
  let new_ng_5 : gset Z := list_to_set ng_5 ∖ ng_5_times st in
  let st := set_ng_5_times (ng_5_times st ∪ list_to_set ng_5) st in
  alert_loop (elements new_ng_5) st.

(** [check_and_handle_ng] from the two detector calls on, over the area
    series [cleaned_areas] handed to both of them. *)
Definition detect_and_handle (cleaned_areas : list float) (st : app)
  : app * option exn :=
  match check_area_trend_timebased cleaned_areas (sma_time_stamps st)
          3 (15 # 100) (7 # 10) 180 with
  | Raise e => (st, Some e)
  | Ok results_3 =>
      match check_area_trend_timebased cleaned_areas (sma_time_stamps st)
              4 (5 # 100) (7 # 10) 210 with
      | Raise e => (st, Some e)
      | Ok results_5 =>
          handle_ng (extract_ng_markers results_3)
                    (extract_ng_markers results_5) st
      end
  end.

(** [check_and_handle_ng]: the final state and the exception, if one
    ends the call. *)
Definition check_and_handle_ng (st : app) : app * option exn :=
  let cleaned_areas :=
    clean_data (sma_areas st) (sma_time_stamps st) 3 in
  detect_and_handle cleaned_areas st.

End App.

(* ===================================================================== *)
(** * video_processor.py: ingestion and frame-pair aggregation *)
(* ===================================================================== *)

Module VideoProcessor.
Import App.

(** [cls_id == 0 and conf > conf_thres]. *)
Definition qualifies (conf_thres : Q) (b : box) : bool :=
  (cls_id b =? 0)%Z && Qlt_bool conf_thres (conf b).

(** [(x2 - x1) * (y2 - y1)]. *)
Definition area (b : box) : Q := ((x2 b - x1 b) * (y2 b - y1 b))%Q.

(** The inner loop [for box in boxes] on [(total_area, count)]. *)
Definition count_box (conf_thres : Q) (acc : Q * Z) (b : box) : Q * Z :=
  if qualifies conf_thres b
  then ((fst acc + area b)%Q, (snd acc + 1)%Z)
  else acc.

(** The outer loop [for boxes in self.app.frame_group]. *)
Definition count_frame (conf_thres : Q) (acc : Q * Z) (bs : boxes)
  : Q * Z :=
  match bs with
  | None => acc
  | Some l => fold_left (count_box conf_thres) l acc
  end.

(** [calculate_average_area_with_sma(group_time, conf_thres, nan_gap)];
    [now] is [time.time()]. *)
Definition calculate_average_area_with_sma (group_time conf_thres nan_gap
    now : Q) (st : app) : result app :=
  let '(total_area, count) :=
    fold_left (count_frame conf_thres) (frame_group st) (0%Q, 0%Z) in
  if (0 <? count)%Z then
    let avg_area := (total_area / inject_Z count)%Q in
    let st := set_avg_areas (avg_areas st ++ [Some avg_area]) st in
    let st := set_avg_time_stamps (avg_time_stamps st ++ [group_time]) st in
    let st := set_last_detect_time (Some now) st in
    let st :=
      if (1 <=? length (avg_areas st))%nat then
        let window_size := sma_window_var st in
        let smoothed := Pandas.rolling_mean window_size (avg_areas st) in
        set_sma_time_stamps (avg_time_stamps st)
          (set_sma_areas smoothed st)
      else st in
    if is_monitoring st
    then mret (set_after_queue (after_queue st ++ [CheckAndHandleNg]) st)
    else mret st
  else
    match last_detect_time st with
    | None => mret st
    | Some last =>
        match inference_start_time st with
        | None => Raise TypeError
        | Some start =>
            if Qlt_bool nan_gap (group_time - (last - start))%Q then
              mret (set_avg_time_stamps (avg_time_stamps st ++ [group_time])
                     (set_avg_areas (avg_areas st ++ [None]) st))
            else mret st
        end
    end.

(** [np.mean]. *)
Definition mean (l : list Q) : Q :=
  (Qsum l / inject_Z (Z.of_nat (length l)))%Q.

(** [sum(current_areas)]. *)
Definition sum (l : list Q) : Q := fold_left Qplus l 0%Q.

(** One iteration of the loop of [process_video] on a frame that was
    read, with the boxes the model returns for it in inference mode;
    [now] is [time.time()], [conf_thres] and [nan_gap] are read when the
    loop starts.  An exception in the iteration ends the loop, after
    which [stop_processing] runs. *)
Definition process_video_step (now : Q) (frame : image) (bs : boxes)
    (conf_thres nan_gap : Q) (st : app) : app :=
  if is_inference st then
    match inference_start_time st with
    | None => stop_processing st
    | Some start =>
        let time_sec := (now - start)%Q in
        let st := set_current_frame (Some frame) st in
        let st := set_frame_group (frame_group st ++ [bs]) st in
        let st := set_frame_times (frame_times st ++ [time_sec]) st in
        let current_areas :=
          match bs with
          | Some l => map area (List.filter (qualifies conf_thres) l)
          | None => []
          end in
        let detected := negb (length current_areas =? 0)%nat in
        let st :=
          if detected then
            let total_area := sum current_areas in
            set_last_detect_time (Some now)
              (set_raw_time_stamps (raw_time_stamps st ++ [time_sec])
              (set_raw_areas (raw_areas st ++ [Some total_area]) st))
          else
            match last_detect_time st with
            | Some last =>
                if Qlt_bool nan_gap (time_sec - (last - start))%Q then
                  set_raw_time_stamps (raw_time_stamps st ++ [time_sec])
                    (set_raw_areas (raw_areas st ++ [None]) st)
                else st
            | None => st
            end in
        if (length (frame_group st) =? 2)%nat then
          let group_time :=
            if (length (frame_times st) =? 0)%nat then time_sec
            else mean (frame_times st) in
          match calculate_average_area_with_sma group_time conf_thres
                  nan_gap now st with
          | Ok st => set_frame_times [] (set_frame_group [] st)
          | Raise _ => stop_processing st
          end
        else st
    end
  else set_current_frame (Some frame) st.

(** [stream_type]: ["video"], ["camera"], ["rtsp"] or ["none"]. *)
Inductive stream := Video | Camera | Rtsp | NoSource.

#[global] Instance stream_eq_dec : EqDecision stream.
Proof. solve_decision. Defined.

(** What the video source does at one turn of the loop of
    [process_video]: [cap] is gone or closed, [cap.read()] gives no
    frame, or it gives a frame, read at [now], for which the model
    returns the boxes [bs] in inference mode. *)
Inductive capture :=
| Closed
| ReadFailed
| ReadOk (now : Q) (frame : image) (bs : boxes).

Definition max_failures : nat := 10.

(** The loop of [process_video] and the [stop_processing] that follows
    it, over what the source does turn by turn; [None] when the loop is
    still running after the last turn given.  A failed read is retried on
    an RTSP stream until [max_failures] reads in a row have failed, and
    ends the loop otherwise.  An exception in an iteration ends the loop
    as well: [process_video_step] has then run [stop_processing], so the
    loop condition is false at the next turn. *)
Fixpoint process_video_loop (stream_type : stream) (conf_thres nan_gap : Q)
    (consecutive_failures : nat) (source : list capture) (st : app)
  : option app :=
  if negb (is_inference st || is_preview st) then Some (stop_processing st)
  else
    match source with
    | [] => None
    | Closed :: _ => Some (stop_processing st)
    | ReadFailed :: rest =>
        let consecutive_failures := S consecutive_failures in
        if bool_decide (stream_type = Rtsp)
           && (consecutive_failures <? max_failures)%nat
        then process_video_loop stream_type conf_thres nan_gap
               consecutive_failures rest st
        else Some (stop_processing st)
    | ReadOk now frame bs :: rest =>
        let consecutive_failures := 0%nat in
        process_video_loop stream_type conf_thres nan_gap
          consecutive_failures rest
          (process_video_step now frame bs conf_thres nan_gap st)
    end.

(** [process_video]: the loop starts with no failure counted. *)
Definition process_video (stream_type : stream) (conf_thres nan_gap : Q)
    (source : list capture) (st : app) : option app :=
  process_video_loop stream_type conf_thres nan_gap 0 source st.

End VideoProcessor.

(* ===================================================================== *)
(** * The session as a transition system *)
(* ===================================================================== *)

Module Session.
Import App VideoProcessor.

(** What can happen to the application: the buttons, the iterations of
    the video thread, the watchdog, the Tk event loop running the next
    deferred call. *)
Inductive action :=
| StartPreview (source_ok : bool)
| StartInference (ready : bool) (now : Q)
| StopInference
| StopProcessing
| ClearAllData (confirmed : bool)
| AutoResetSystem
| ToggleMonitoring
| SetSmaWindow (window_size : positive)
| ProcessFrame (now : Q) (frame : image) (bs : boxes)
    (conf_thres nan_gap : Q)
| RunCallback.

(** The Tk event loop takes the oldest deferred call and runs it; an
    exception in the call is reported and the loop goes on. *)
Definition run_callback (st : app) : app :=
  match after_queue st with
  | [] => st
  | cb :: rest =>
      let st := set_after_queue rest st in
      match cb with
      | CheckAndHandleNg => fst (check_and_handle_ng st)
      | ShowNonModalWarning range_str => show_non_modal_warning range_str st
      end
  end.

Definition step (a : action) (st : app) : app :=
  match a with
  | StartPreview source_ok => start_preview source_ok st
  | StartInference ready now => start_inference ready now st
  | StopInference => stop_inference st
  | StopProcessing => stop_processing st
  | ClearAllData confirmed => clear_all_data confirmed st
  | AutoResetSystem => auto_reset_system st
  | ToggleMonitoring => toggle_monitoring st
  | SetSmaWindow w => set_sma_window_var w st
  | ProcessFrame now frame bs conf_thres nan_gap =>
      process_video_step now frame bs conf_thres nan_gap st
  | RunCallback => run_callback st
  end.

Definition run (acts : list action) (st : app) : app :=
  fold_left (fun st a => step a st) acts st.

(** The states the application can be in. *)
Inductive reachable : app -> Prop :=
| reachable_init log : reachable (init log)
| reachable_step a st : reachable st -> reachable (step a st).

(** The actions that call [reset_area_data], which starts a new
    session. *)
Definition resets (a : action) : bool :=
  match a with
  | StartInference _ _ | ClearAllData _ => true
  | _ => false
  end.

End Session.

(* ===================================================================== *)
(** * Vocabulary of the statements *)
(* ===================================================================== *)

Import Pandas DataProcessor App VideoProcessor Session.

(** A series without NaN. *)
Definition no_missing (s : list float) : Prop :=
  Forall (fun v => isna v = false) s.

(** Equality of floats up to the representation of the rational. *)
Definition feq (a b : float) : Prop :=
  match a, b with
  | Some x, Some y => (x == y)%Q
  | None, None => True
  | _, _ => False
  end.

(** The arithmetic mean of a whole series as float arithmetic gives it:
    NaN as soon as one entry is NaN. *)
Definition arithmetic_mean (s : list float) : float :=
  if forallb (fun v => negb (isna v)) s then nanmean s else None.

(** The qualifying boxes of one buffered frame, and of the whole buffer. *)
Definition frame_qualifying (conf_thres : Q) (bs : App.boxes)
  : list App.box :=
  match bs with
  | Some l => List.filter (VideoProcessor.qualifies conf_thres) l
  | None => []
  end.

Definition group_qualifying (conf_thres : Q) (group : list App.boxes)
  : list App.box :=
  flat_map (frame_qualifying conf_thres) group.

(** The area the specification describes: the mean, over the frames with
    a qualifying detection, of the total qualifying area of the frame. *)
Definition spec_mean_of_frame_totals (conf_thres : Q)
    (group : list App.boxes) : Q :=
  let detecting :=
    List.filter
      (fun bs => negb (length (frame_qualifying conf_thres bs) =? 0)%nat)
      group in
  (Qsum (map (fun bs => Qsum (map VideoProcessor.area (frame_qualifying conf_thres bs)))
             detecting)
   / inject_Z (Z.of_nat (length detecting)))%Q.

(** Every buffered frame has at most one qualifying box. *)
Definition one_box_per_frame (conf_thres : Q) (group : list App.boxes)
  : Prop :=
  Forall (fun bs => (length (frame_qualifying conf_thres bs) <= 1)%nat)
         group.

(** [prev_window] and [curr_window] at [t_now]. *)
Definition prev_window (areas : list float) (timestamps : list Q)
    (minutes : Q) (t_now : Z) : list float :=
  compress areas (prev_mask timestamps (minutes * 60)%Q t_now).

Definition curr_window (areas : list float) (timestamps : list Q)
    (minutes : Q) (t_now : Z) : list float :=
  compress areas (curr_mask timestamps (minutes * 60)%Q t_now).

(** [t_now] is evaluated when both windows are non-empty and [prev_avg]
    is positive; then [prev_avg] and [curr_avg] are returned. *)
Definition evaluated (areas : list float) (timestamps : list Q)
    (minutes : Q) (t_now : Z) : option (Q * float) :=
  match prev_window areas timestamps minutes t_now,
        curr_window areas timestamps minutes t_now with
  | [], _ | _, [] => None
  | pw, cw =>
      match nanmean pw with
      | Some p => if Qlt_bool 0 p then Some (p, nanmean cw) else None
      | None => None
      end
  end.

(** [|ratio - 1| < epsilon]. *)
Definition flat_trend (ratio : float) (epsilon : Q) : Prop :=
  exists r, ratio = Some r /\ (Qabs (r - 1) < epsilon)%Q.

(** [t_now - last_ng_time > cooldown], where [None] is minus infinity. *)
Definition cooled_down (t_now : Z) (last_ng_time : option Z) (cooldown : Q)
  : Prop :=
  match last_ng_time with
  | Some l => (cooldown < inject_Z (t_now - l))%Q
  | None => True
  end.

(** The time of the last entry with status NG. *)
Definition last_ng (results : list WindowEvaluation) : option Z :=
  last (extract_ng_markers results).

(** The state of the loop after [t_now], when the mask selections do not
    raise. *)
Definition loop_next (areas : list float) (timestamps : list Q)
    (minutes epsilon cooldown : Q) (st : loop_state) (t_now : Z)
  : loop_state :=
  match evaluated areas timestamps minutes t_now with
  | None => st
  | Some (p, c) =>
      let r := option_map (fun c => (c / p)%Q) c in
      let s := if flat r epsilon
               then (if in_cooldown t_now (fst st) cooldown then SKIP else NG)
               else NORMAL in
      (if bool_decide (s = NG) then Some t_now else fst st,
       snd st ++ [ {| time_sec := t_now; minutes := minutes;
                      prev_avg_area := Some p; curr_avg_area := c;
                      ratio := r; status := s |} ])
  end.

Definition is_evaluated (areas : list float) (timestamps : list Q)
    (minutes : Q) (t_now : Z) : bool :=
  match evaluated areas timestamps minutes t_now with
  | Some _ => true
  | None => false
  end.

(** What the claim says of one recorded entry [e], recorded after the
    entries [pre]. *)
Definition entry_as_claimed (areas : list float) (timestamps : list Q)
    (minutes epsilon cooldown : Q) (pre : list WindowEvaluation)
    (e : WindowEvaluation) : Prop :=
  exists p c,
    evaluated areas timestamps minutes (time_sec e) = Some (p, c)
    /\ prev_avg_area e = Some p
    /\ curr_avg_area e = c
    /\ ratio e = option_map (fun c => (c / p)%Q) c
    /\ (status e = NG <->
        flat_trend (ratio e) epsilon
        /\ cooled_down (time_sec e) (last_ng pre) cooldown)
    /\ (status e = SKIP <->
        flat_trend (ratio e) epsilon
        /\ ~ cooled_down (time_sec e) (last_ng pre) cooldown)
    /\ (status e = NORMAL <-> ~ flat_trend (ratio e) epsilon).

(** The invariant of the evaluation loop, after the evaluation times
    [done]. *)
Definition loop_inv (areas : list float) (timestamps : list Q)
    (minutes epsilon cooldown : Q) (st : loop_state) (done : list Z)
  : Prop :=
  fst st = last_ng (snd st)
  /\ map time_sec (snd st)
     = List.filter (is_evaluated areas timestamps minutes) done
  /\ forall pre e post,
       snd st = pre ++ e :: post ->
       entry_as_claimed areas timestamps minutes epsilon cooldown pre e.

(** A flat series sampled every 30 seconds. *)
Definition sample_timestamps : list Q :=
  [0; 30; 60; 90; 120; 150; 180; 210; 240]%Q.

Definition sample_areas : list float :=
  map (fun _ => Some 100%Q) sample_timestamps.

#[global] Instance Q_eq_dec : EqDecision Q.
Proof. solve_decision. Defined.
#[global] Instance time_range_eq_dec : EqDecision time_range.
Proof. solve_decision. Defined.
#[global] Instance image_eq_dec : EqDecision image.
Proof. solve_decision. Defined.

(** The [range_str] of the alert time [t] in a session started at
    [start]. *)
Definition range_of (start : Q) (t : Z) : time_range :=
  {| range_from := start; range_offset := t |}.

Definition is_row_for (rs : time_range) (l : csv_line) : bool :=
  match l with
  | Row r _ => bool_decide (r = rs)
  | Header => false
  end.

Definition is_warning_for (rs : time_range) (cb : callback) : bool :=
  match cb with
  | ShowNonModalWarning r => bool_decide (r = rs)
  | CheckAndHandleNg => false
  end.

Definition is_beep_for (rs : time_range) (ev : event) : bool :=
  match ev with
  | Beep r => bool_decide (r = rs)
  | _ => false
  end.

Definition is_window_for (rs : time_range) (ev : event) : bool :=
  match ev with
  | WarningWindow r => bool_decide (r = rs)
  | _ => false
  end.

Definition is_pdf_for (rs : time_range) (ev : event) : bool :=
  match ev with
  | GeneratePdf r _ _ => bool_decide (r = rs)
  | _ => false
  end.

Definition count {A} (f : A -> bool) (l : list A) : nat :=
  length (List.filter f l).
Arguments count : simpl never.

(** Log rows, pending warnings, beeps, warning windows and report
    requests for [rs]. *)
Definition rows_for (rs : time_range) (st : app) : nat :=
  count (is_row_for rs) (ng_log st).
Definition pending_for (rs : time_range) (st : app) : nat :=
  count (is_warning_for rs) (after_queue st).
Definition beeps_for (rs : time_range) (st : app) : nat :=
  count (is_beep_for rs) (events st).
Definition windows_for (rs : time_range) (st : app) : nat :=
  count (is_window_for rs) (events st).
Definition pdfs_for (rs : time_range) (st : app) : nat :=
  count (is_pdf_for rs) (events st).

(** The log file after the rows of the alert times [ts]. *)
Definition log_after (start : Q) (ts : list Z) (log : list csv_line)
  : list csv_line :=
  fold_left
    (fun log t =>
       (if (length log =? 0)%nat then log ++ [Header] else log)
         ++ [Row (range_of start t) (5 * 60)])
    ts log.

(** How many rows and warnings a call adds for the alert time [t]. *)
Definition new_alert (t : Z) (ng_5 : list Z) (st : app) : nat :=
  if bool_decide (t ∈ (list_to_set ng_5 ∖ ng_5_times st : gset Z))
  then 1%nat else 0%nat.

(** A step that leaves the log, the events, the seen alert times and the
    start time alone, and at most defers one more NG check. *)
Definition untouched (st st' : app) : Prop :=
  ng_log st' = ng_log st
  /\ events st' = events st
  /\ ng_5_times st' = ng_5_times st
  /\ inference_start_time st' = inference_start_time st
  /\ (after_queue st' = after_queue st
      \/ after_queue st' = after_queue st ++ [CheckAndHandleNg]).

(** Between [st] and [st'] nothing new happens for [rs]: no row, and the
    warnings shown are warnings that were pending. *)
Definition quiet (rs : time_range) (st st' : app) : Prop :=
  rows_for rs st' = rows_for rs st
  /\ (beeps_for rs st' + pending_for rs st'
      = beeps_for rs st + pending_for rs st)%nat
  /\ (windows_for rs st' + pending_for rs st'
      = windows_for rs st + pending_for rs st)%nat
  /\ (pdfs_for rs st' + pending_for rs st'
      <= pdfs_for rs st + pending_for rs st)%nat.

(** Between [st] and [st'] the alert [rs] is raised once: one row, one
    more warning pending or shown. *)
Definition fired (rs : time_range) (st st' : app) : Prop :=
  rows_for rs st' = S (rows_for rs st)
  /\ (beeps_for rs st' + pending_for rs st'
      = S (beeps_for rs st + pending_for rs st))%nat
  /\ (windows_for rs st' + pending_for rs st'
      = S (windows_for rs st + pending_for rs st))%nat
  /\ (pdfs_for rs st' + pending_for rs st'
      <= S (pdfs_for rs st + pending_for rs st))%nat.

(** While inference runs and monitoring is off, there is no start
    snapshot. *)
Definition snapshot_inv (st : app) : Prop :=
  is_inference st = true -> is_monitoring st = false ->
  start_monitor_image st = None.

(** The frame buffer holds at most one sample, with its timestamp. *)
Definition buffer_inv (st : app) : Prop :=
  (length (frame_group st) <= 1)%nat
  /\ length (frame_times st) = length (frame_group st).

(** Example data: a detection of class 0 with confidence 0.9 and the
    given area, and three short runs of the application. *)
Definition box_of_area (a : Q) : App.box :=
  {| App.conf := 9 # 10; App.cls_id := 0;
     App.x1 := 0; App.y1 := 0; App.x2 := a; App.y2 := 1 |}.

(** Two frames, the first with two qualifying boxes. *)
Definition run_two_boxes : list Session.action :=
  [ Session.StartInference true 0;
    Session.ProcessFrame 0 (App.Frame 1)
      (Some [box_of_area 10; box_of_area 30]) (1 # 2) 10;
    Session.ProcessFrame 1 (App.Frame 2)
      (Some [box_of_area 20]) (1 # 2) 10 ].

(** Monitoring on, window 3; a detected pair, a pair without detection
    more than [nan_gap = 1] seconds later, a detected pair. *)
Definition run_with_gap : list Session.action :=
  [ Session.StartInference true 0;
    Session.ToggleMonitoring;
    Session.SetSmaWindow 3;
    Session.ProcessFrame 0 (App.Frame 1) (Some [box_of_area 10]) (1 # 2) 1;
    Session.ProcessFrame 0 (App.Frame 2) (Some [box_of_area 10]) (1 # 2) 1;
    Session.ProcessFrame 2 (App.Frame 3) (Some []) (1 # 2) 1;
    Session.ProcessFrame 2 (App.Frame 4) None (1 # 2) 1;
    Session.ProcessFrame 4 (App.Frame 5) (Some [box_of_area 20]) (1 # 2) 1;
    Session.ProcessFrame 4 (App.Frame 6) (Some [box_of_area 20]) (1 # 2) 1 ].

(** Twelve detected pairs of frames, 30 seconds apart. *)
Definition frames_every_30s : list action :=
  flat_map
    (fun k =>
       let now := inject_Z (30 * Z.of_nat k) in
       [ProcessFrame now (Frame k) (Some [box_of_area 100]) (1 # 2) 10;
        ProcessFrame now (Frame k) (Some [box_of_area 100]) (1 # 2) 10])
    (seq 0 12).

(** Monitoring is enabled before the first frame; after the twelve pairs
    the event loop runs the thirteen deferred calls. *)
Definition run_alert_no_snapshot : list action :=
  [StartInference true 0; ToggleMonitoring] ++ frames_every_30s
  ++ repeat RunCallback 13.


(** The state when the twelve pairs are processed and no deferred call
    has run yet. *)
Definition alert_pending_state : app :=
  run ([StartInference true 0; ToggleMonitoring] ++ frames_every_30s)
      (init []).

(** The neighbourhood of position [i]: the entries at most [gap_limit]
    positions before or after it (fewer at the ends of the series). *)
Definition neighbourhood (areas : list float) (gap_limit : positive)
    (i : nat) : list float :=
  slice areas (i - Pos.to_nat gap_limit) (i + Pos.to_nat gap_limit + 1).

(** A value that is not missing lies between [lo] and [hi]. *)
Definition within (lo hi : Q) (v : float) : Prop :=
  match v with
  | Some q => (lo <= q <= hi)%Q
  | None => True
  end.

(** The area series and their timestamp series have the same length. *)
Definition series_inv (st : app) : Prop :=
  length (raw_areas st) = length (raw_time_stamps st)
  /\ length (avg_areas st) = length (avg_time_stamps st)
  /\ length (sma_areas st) = length (sma_time_stamps st).

(** Monitoring is on only while inference runs, inference runs only
    with a start time, and there is no smoothed series before the first
    start. *)
Definition mode_inv (st : app) : Prop :=
  (is_monitoring st = true -> is_inference st = true)
  /\ (is_inference st = true -> inference_start_time st <> None)
  /\ (inference_start_time st = None -> sma_areas st = []).

(** A log file written by the application alone: empty, or the header
    followed by rows whose duration is [5 * 60]. *)
Definition well_formed_log (log : list csv_line) : Prop :=
  log = []
  \/ exists rows,
       log = Header :: rows
       /\ Forall (fun l => exists rs, l = Row rs (5 * 60)) rows.

(** Every alert time of the session has its row in the log. *)
Definition alerts_logged (st : app) : Prop :=
  forall t, t ∈ ng_5_times st ->
    exists start,
      inference_start_time st = Some start
      /\ Row (range_of start t) (5 * 60) ∈ ng_log st.

(** The iterations of the video loop on the frames read in [source], as
    actions of the session. *)
Definition frames_read (conf_thres nan_gap : Q) (source : list capture)
  : list action :=
  flat_map
    (fun c =>
       match c with
       | ReadOk now frame bs => [ProcessFrame now frame bs conf_thres nan_gap]
       | _ => []
       end)
    source.

(** Inference or preview is on: the loop of [process_video] goes on. *)
Definition running (st : app) : Prop :=
  is_inference st || is_preview st = true.

(** What recording and alerting write: the three pairs of series, the
    alert times, the deferred calls, the log and the events. *)
Definition same_records (st st' : app) : Prop :=
  raw_areas st' = raw_areas st
  /\ raw_time_stamps st' = raw_time_stamps st
  /\ avg_areas st' = avg_areas st
  /\ avg_time_stamps st' = avg_time_stamps st
  /\ sma_areas st' = sma_areas st
  /\ sma_time_stamps st' = sma_time_stamps st
  /\ ng_3_times st' = ng_3_times st
  /\ ng_5_times st' = ng_5_times st
  /\ after_queue st' = after_queue st
  /\ ng_log st' = ng_log st
  /\ events st' = events st.

(* ===================================================================== *)
(** * Properties of the gap cleaner *)
(* ===================================================================== *)

Section CleanData.

Lemma fillna_no_missing value s : no_missing (fillna value s).
Proof.
  induction s as [| [v |] s IH]; simpl; constructor; auto.
Qed.

Lemma fillna_id value s : no_missing s -> fillna value s = s.
Proof.
  induction 1 as [| v s Hv _ IH]; simpl; [reflexivity |].
  destruct v; [| discriminate]. rewrite IH. reflexivity.
Qed.

Lemma no_missing_forallb s : no_missing s -> forallb negb (map isna s) = true.
Proof.
  induction 1 as [| v s Hv _ IH]; simpl; [reflexivity |].
  rewrite Hv, IH. reflexivity.
Qed.

Lemma interpolate_no_missing indices s limit :
  no_missing s -> _interpolate_1d indices s limit = s.
Proof.
  intros H. unfold _interpolate_1d.
  rewrite (no_missing_forallb s H).
  destruct (forallb id (map isna s)); reflexivity.
Qed.

Lemma clean_data_no_missing_id areas timestamps gap_limit :
  no_missing areas -> clean_data areas timestamps gap_limit = areas.
Proof.
  intros H. unfold clean_data.
  destruct (_ || _ || _); [reflexivity |].
  rewrite interpolate_no_missing by assumption.
  apply fillna_id; assumption.
Qed.

Lemma clean_data_cases areas timestamps gap_limit :
  clean_data areas timestamps gap_limit = areas
  \/ no_missing (clean_data areas timestamps gap_limit).
Proof.
  unfold clean_data. destruct (_ || _ || _); [left; reflexivity |].
  right. apply fillna_no_missing.
Qed.

Lemma guard_true (areas : list float) (timestamps : list Q) :
  areas = [] \/ timestamps = [] \/ length areas <> length timestamps ->
  (length areas =? 0)%nat || (length timestamps =? 0)%nat
  || negb (length areas =? length timestamps)%nat = true.
Proof.
  intros [-> | [-> | H]]; simpl.
  - reflexivity.
  - apply orb_true_iff. left. apply orb_true_r.
  - apply orb_true_iff. right. apply negb_true_iff.
    apply Nat.eqb_neq. assumption.
Qed.

Lemma guard_false (areas : list float) (timestamps : list Q) :
  areas <> [] -> length areas = length timestamps ->
  (length areas =? 0)%nat || (length timestamps =? 0)%nat
  || negb (length areas =? length timestamps)%nat = false.
Proof.
  intros Hne Hlen. rewrite <- Hlen, Nat.eqb_refl.
  destruct areas; [congruence | reflexivity].
Qed.

End CleanData.

(** C10. When [areas] is empty, [timestamps] is empty or the lengths
    differ, [clean_data] returns [areas] as it is, NaN entries included;
    when both are non-empty and of equal length, no missing value is left
    in the output. *)
Theorem clean_data_guard_returns_input (areas : list float)
    (timestamps : list Q) (gap_limit : positive) :
  (areas = [] \/ timestamps = [] \/ length areas <> length timestamps ->
   DataProcessor.clean_data areas timestamps gap_limit = areas)
  /\ (areas <> [] -> length areas = length timestamps ->
      no_missing (DataProcessor.clean_data areas timestamps gap_limit)).
Proof.
  split.
  - intros H. unfold DataProcessor.clean_data.
    rewrite (guard_true _ _ H). reflexivity.
  - intros Hne Hlen. unfold DataProcessor.clean_data.
    rewrite (guard_false _ _ Hne Hlen). apply fillna_no_missing.
Qed.

(** With one timestamp for two areas the NaN comes back unfilled; with
    two timestamps it is filled. *)
Lemma clean_data_guard_returns_input_witness :
  DataProcessor.clean_data [None; Some 1%Q] [0%Q] 3 = [None; Some 1%Q]
  /\ no_missing (DataProcessor.clean_data [None; Some 1%Q] [0%Q; 1%Q] 3).
Proof.
  split.
  - apply (proj1 (clean_data_guard_returns_input
                    [None; Some 1%Q] [0%Q] 3)).
    right; right. simpl. lia.
  - apply (proj2 (clean_data_guard_returns_input
                    [None; Some 1%Q] [0%Q; 1%Q] 3)).
    + discriminate.
    + reflexivity.
Defined.

(** C7. [clean_data] is idempotent: cleaning its own output again, with
    the same timestamps and gap limit, changes nothing (whatever the
    lengths); and a series without missing values is returned as it
    is. *)
Theorem clean_data_idempotent (areas : list float) (timestamps : list Q)
    (gap_limit : positive) :
  (areas <> [] -> length areas = length timestamps ->
   DataProcessor.clean_data
     (DataProcessor.clean_data areas timestamps gap_limit)
     timestamps gap_limit
   = DataProcessor.clean_data areas timestamps gap_limit)
  /\ (no_missing areas ->
      DataProcessor.clean_data areas timestamps gap_limit = areas).
Proof.
  split.
  - intros _ _.
    destruct (clean_data_cases areas timestamps gap_limit) as [H | H].
    + rewrite H. exact H.
    + apply clean_data_no_missing_id. exact H.
  - apply clean_data_no_missing_id.
Qed.

Lemma clean_data_idempotent_witness :
  DataProcessor.clean_data
    (DataProcessor.clean_data [Some 10%Q; None; Some 20%Q]
       [0%Q; 2%Q; 4%Q] 3) [0%Q; 2%Q; 4%Q] 3
  = DataProcessor.clean_data [Some 10%Q; None; Some 20%Q]
      [0%Q; 2%Q; 4%Q] 3
  /\ DataProcessor.clean_data [Some 10%Q; Some 20%Q] [0%Q; 2%Q] 3
     = [Some 10%Q; Some 20%Q].
Proof.
  split.
  - apply (proj1 (clean_data_idempotent [Some 10%Q; None; Some 20%Q]
                    [0%Q; 2%Q; 4%Q] 3)).
    + discriminate.
    + reflexivity.
  - apply (proj2 (clean_data_idempotent [Some 10%Q; Some 20%Q]
                    [0%Q; 2%Q] 3)).
    repeat constructor.
Defined.

(** C3. A run of four missing entries between two valid neighbours, with
    [gap_limit = 3]: every entry of the run is interpolated, none is reset
    to 0. *)
Theorem clean_data_fills_run_of_four :
  map (option_map Qred)
      (DataProcessor.clean_data
         [Some 10%Q; None; None; None; None; Some 20%Q]
         [0%Q; 1%Q; 2%Q; 3%Q; 4%Q; 5%Q] 3)
  = [Some 10%Q; Some 12%Q; Some 14%Q; Some 16%Q; Some 18%Q; Some 20%Q].
Proof. vm_compute. reflexivity. Qed.

(* ===================================================================== *)
(** * Properties of the smoother *)
(* ===================================================================== *)

Section RollingMean.

Lemma rolling_mean_lookup window (s : list float) (i : nat) :
  (i < length s)%nat ->
  rolling_mean window s !! i
  = Some (nanmean (slice s (i + 1 - Pos.to_nat window) (i + 1))).
Proof.
  intros Hi. unfold rolling_mean.
  rewrite list_lookup_fmap, lookup_seq_lt by assumption. reflexivity.
Qed.

Lemma rolling_mean_length window (s : list float) :
  length (rolling_mean window s) = length s.
Proof. unfold rolling_mean. rewrite length_map, length_seq. reflexivity. Qed.

Lemma slice_prefix {A} (s : list A) (i : nat) : slice s 0 i = firstn i s.
Proof. unfold slice. rewrite Nat.sub_0_r. reflexivity. Qed.

Lemma slice_single {A} (s : list A) (i : nat) (x : A) :
  s !! i = Some x -> slice s i (i + 1) = [x].
Proof.
  intros H. unfold slice.
  replace (i + 1 - i)%nat with 1%nat by lia.
  revert i H. induction s as [| y s IH]; intros [| i] H; simpl in *;
    try discriminate.
  - injection H as ->. destruct s; reflexivity.
  - apply IH. exact H.
Qed.

Lemma nanmean_single (v : float) : feq (nanmean [v]) v.
Proof.
  destruct v as [q |]; simpl; [| exact I].
  unfold nanmean; simpl. field.
Qed.

Lemma nanmean_valid (vs : list Q) :
  vs <> [] ->
  nanmean (map Some vs)
  = Some (Qsum vs / inject_Z (Z.of_nat (length vs)))%Q.
Proof.
  intros Hne. unfold nanmean.
  assert (E : valid_values (map Some vs) = vs).
  { clear Hne. induction vs as [| v vs IH]; simpl; congruence. }
  rewrite E. destruct vs; [congruence | reflexivity].
Qed.

Lemma nanmean_defined (w : list float) :
  Exists (fun v => isna v = false) w -> exists m, nanmean w = Some m.
Proof.
  intros H. unfold nanmean.
  assert (E : valid_values w <> []).
  { induction H as [[q |] w Hv | [q |] w _ IH]; simpl;
      try discriminate; auto. }
  destruct (valid_values w); [congruence | eauto].
Qed.

End RollingMean.

(** C6, as the code has it.  With window 1 the smoother returns its input
    (a missing entry stays missing).  With a window at least as long as
    the series, the last output is the mean of the entries of the whole
    series that are not missing: the arithmetic mean when none is
    missing.  At a position with fewer points than the window, the output
    is the mean of the entries up to that position that are not missing;
    it is defined as soon as one of them is not missing. *)
Theorem rolling_mean_partial_windows (window : positive) (s : list float) :
  (window = 1%positive -> Forall2 feq (Pandas.rolling_mean window s) s)
  /\ (s <> [] -> (length s <= Pos.to_nat window)%nat ->
      last (Pandas.rolling_mean window s) = Some (nanmean s)
      /\ (no_missing s -> nanmean s = arithmetic_mean s)
      /\ forall vs, s = map Some vs ->
           nanmean s
           = Some (Qsum vs / inject_Z (Z.of_nat (length vs)))%Q)
  /\ (forall i, (i < length s)%nat -> (i < Pos.to_nat window)%nat ->
      Pandas.rolling_mean window s !! i
      = Some (nanmean (firstn (S i) s))
      /\ (Exists (fun v => isna v = false) (firstn (S i) s) ->
          exists m, Pandas.rolling_mean window s !! i = Some (Some m))).
Proof.
  split; [| split].
  - intros ->. apply Forall2_same_length_lookup. split.
    + apply rolling_mean_length.
    + intros i a b Ha Hb.
      assert (Hi : (i < length s)%nat) by (eapply lookup_lt_Some; eauto).
      rewrite rolling_mean_lookup in Ha by assumption.
      injection Ha as <-.
      replace (i + 1 - Pos.to_nat 1)%nat with i by lia.
      rewrite (slice_single s i b Hb). apply nanmean_single.
  - intros Hne Hlen. split.
    + rewrite last_lookup, rolling_mean_length.
      destruct s as [| x s]; [congruence |]. simpl length in *. simpl pred.
      rewrite rolling_mean_lookup by (simpl; lia).
      replace (length s + 1 - Pos.to_nat window)%nat with 0%nat by lia.
      rewrite slice_prefix.
      replace (length s + 1)%nat with (length (x :: s)) by (simpl; lia).
      rewrite firstn_all. reflexivity.
    + split.
      * intros Hs. unfold arithmetic_mean.
        assert (E : forallb (fun v => negb (isna v)) s = true).
        { clear - Hs. induction Hs as [| v s Hv _ IH]; simpl;
            [reflexivity |]. rewrite Hv, IH. reflexivity. }
        rewrite E. reflexivity.
      * intros vs ->. apply nanmean_valid. destruct vs; [| discriminate].
        contradiction Hne. reflexivity.
  - intros i Hi Hw.
    assert (E : Pandas.rolling_mean window s !! i
                = Some (nanmean (firstn (S i) s))).
    { rewrite rolling_mean_lookup by assumption.
      replace (i + 1 - Pos.to_nat window)%nat with 0%nat by lia.
      rewrite slice_prefix. replace (i + 1)%nat with (S i) by lia.
      reflexivity. }
    split; [exact E |].
    intros Hex. destruct (nanmean_defined _ Hex) as [m Hm].
    exists m. rewrite E, Hm. reflexivity.
Qed.

Lemma rolling_mean_partial_windows_witness :
  Forall2 feq (Pandas.rolling_mean 1 [Some 10%Q; None; Some 20%Q])
          [Some 10%Q; None; Some 20%Q]
  /\ last (Pandas.rolling_mean 3 [Some 10%Q; Some 20%Q])
     = Some (nanmean [Some 10%Q; Some 20%Q])
  /\ Pandas.rolling_mean 3 [Some 10%Q; Some 20%Q] !! 0%nat
     = Some (nanmean (firstn 1 [Some 10%Q; Some 20%Q])).
Proof.
  pose proof (rolling_mean_partial_windows 1 [Some 10%Q; None; Some 20%Q])
    as [H1 _].
  pose proof (rolling_mean_partial_windows 3 [Some 10%Q; Some 20%Q])
    as [_ [H2 H3]].
  split; [| split].
  - apply H1. reflexivity.
  - apply H2; [discriminate | simpl; lia].
  - apply (H3 0%nat); simpl; lia.
Defined.

(** C6 as stated fails on series with missing entries.  On the averaged
    series 10, NaN, 20 that the application builds when a pair of frames
    without detection comes between two detected pairs, with window 3,
    the last output is 15, the mean of the two entries that are not
    missing, where the arithmetic mean of the whole series is NaN.  And a
    first position that is missing is undefined in the output. *)
Lemma rolling_mean_undefined_prefix :
  (let s := avg_areas (run run_with_gap (init [])) in
   map (option_map Qred) s = [Some 10%Q; None; Some 20%Q]
   /\ option_map (option_map Qred) (last (Pandas.rolling_mean 3 s))
      = Some (Some 15%Q)
   /\ arithmetic_mean s = None)
  /\ Pandas.rolling_mean 3 [None; Some 10%Q] !! 0%nat = Some None.
Proof. repeat split; vm_compute; reflexivity. Qed.

(* ===================================================================== *)
(** * Properties of the frame-pair aggregator *)
(* ===================================================================== *)

Section Aggregator.

Lemma Qsum_app (a b : list Q) : (Qsum (a ++ b) == Qsum a + Qsum b)%Q.
Proof.
  induction a as [| x a IH]; simpl.
  - ring.
  - rewrite IH. ring.
Qed.

Lemma count_box_fold conf_thres (l : list box) (acc : Q * Z) :
  (fst (fold_left (count_box conf_thres) l acc)
   == fst acc + Qsum (map area (List.filter (qualifies conf_thres) l)))%Q
  /\ snd (fold_left (count_box conf_thres) l acc)
     = (snd acc
        + Z.of_nat (length (List.filter (qualifies conf_thres) l)))%Z.
Proof.
  revert acc. induction l as [| b l IH]; intros acc; simpl.
  - split; [ring | lia].
  - destruct (IH (count_box conf_thres acc b)) as [Ht Hn].
    rewrite Ht, Hn. unfold count_box.
    destruct (qualifies conf_thres b); simpl; split; try ring; lia.
Qed.

Lemma count_frame_fold conf_thres (group : list boxes) (acc : Q * Z) :
  (fst (fold_left (count_frame conf_thres) group acc)
   == fst acc + Qsum (map area (group_qualifying conf_thres group)))%Q
  /\ snd (fold_left (count_frame conf_thres) group acc)
     = (snd acc
        + Z.of_nat (length (group_qualifying conf_thres group)))%Z.
Proof.
  revert acc. induction group as [| bs group IH]; intros acc; simpl.
  - split; [ring | lia].
  - destruct (IH (count_frame conf_thres acc bs)) as [Ht Hn].
    rewrite Ht, Hn. unfold group_qualifying in *.
    rewrite map_app, Qsum_app, length_app.
    destruct bs as [l |]; simpl.
    + destruct (count_box_fold conf_thres l acc) as [Ht' Hn'].
      rewrite Ht', Hn'. split; [ring | lia].
    + split; [ring | lia].
Qed.

Lemma calc_detect (gt conf_thres nan_gap now : Q) (st : app) :
  (0 < snd (fold_left (count_frame conf_thres) (frame_group st) (0%Q, 0%Z)))%Z ->
  exists st',
    calculate_average_area_with_sma gt conf_thres nan_gap now st = Ok st'
    /\ avg_areas st'
       = avg_areas st
         ++ [Some (fst (fold_left (count_frame conf_thres) (frame_group st) (0%Q, 0%Z))
                   / inject_Z (snd (fold_left (count_frame conf_thres) (frame_group st) (0%Q, 0%Z))))%Q]
    /\ avg_time_stamps st' = avg_time_stamps st ++ [gt]
    /\ sma_areas st' = Pandas.rolling_mean (sma_window_var st) (avg_areas st')
    /\ sma_time_stamps st' = avg_time_stamps st'
    /\ frame_group st' = frame_group st
    /\ frame_times st' = frame_times st
    /\ after_queue st'
       = (if is_monitoring st then after_queue st ++ [CheckAndHandleNg]
          else after_queue st).
Proof.
  intros H. unfold calculate_average_area_with_sma.
  destruct (fold_left _ _ _) as [total count]. simpl in H |- *.
  apply Z.ltb_lt in H. rewrite H.
  cbn.
  rewrite length_app. simpl. rewrite Nat.add_1_r. cbn.
  destruct (is_monitoring st); eexists; (split; [reflexivity |]); cbn; repeat split; reflexivity.
Qed.

Lemma calc_no_detect (gt conf_thres nan_gap now start : Q) (st : app) :
  inference_start_time st = Some start ->
  (snd (fold_left (count_frame conf_thres) (frame_group st) (0%Q, 0%Z)) <= 0)%Z ->
  exists st',
    calculate_average_area_with_sma gt conf_thres nan_gap now st = Ok st'
    /\ frame_group st' = frame_group st
    /\ frame_times st' = frame_times st.
Proof.
  intros Hs H. unfold calculate_average_area_with_sma.
  destruct (fold_left _ _ _) as [total count]. simpl in H.
  apply Z.ltb_ge in H. rewrite H, Hs.
  destruct (last_detect_time st); [| eauto].
  destruct (Qlt_bool _ _); eexists; (split; [reflexivity |]); cbn; auto.
Qed.

Lemma mean_pair (a b : Q) : (mean [a; b] == (a + b) / 2)%Q.
Proof. unfold mean. simpl. field. Qed.

Lemma spec_mean_one_box conf_thres (group : list boxes) :
  one_box_per_frame conf_thres group ->
  (spec_mean_of_frame_totals conf_thres group
   == Qsum (map area (group_qualifying conf_thres group))
      / inject_Z (Z.of_nat (length (group_qualifying conf_thres group))))%Q.
Proof.
  intros H. unfold spec_mean_of_frame_totals.
  assert (E : (Qsum (map (fun bs => Qsum (map area (frame_qualifying conf_thres bs)))
                 (List.filter (fun bs => negb (length (frame_qualifying conf_thres bs) =? 0)%nat) group))
               == Qsum (map area (group_qualifying conf_thres group)))%Q
              /\ length (List.filter (fun bs => negb (length (frame_qualifying conf_thres bs) =? 0)%nat) group)
                 = length (group_qualifying conf_thres group)).
  { induction H as [| bs group Hbs _ [IH1 IH2]]; simpl.
    - split; reflexivity.
    - unfold group_qualifying in *. simpl.
      rewrite map_app, Qsum_app, length_app.
      destruct (frame_qualifying conf_thres bs) as [| b [| b' r]] eqn:E;
        simpl in *; rewrite ?E; simpl.
      + split; [rewrite Qplus_0_l; exact IH1 | exact IH2].
      + split; [rewrite IH1; ring | rewrite IH2; reflexivity].
      + lia. }
  destruct E as [E1 E2]. rewrite E1, E2. reflexivity.
Qed.

End Aggregator.

Lemma frame_pair_step (st : App.app) (start now conf_thres nan_gap t1 : Q)
    (b1 b2 : App.boxes) (frame : App.image) :
  is_inference st = true ->
  inference_start_time st = Some start ->
  frame_group st = [b1] ->
  frame_times st = [t1] ->
  let st' := process_video_step now frame b2 conf_thres nan_gap st in
  let qs := group_qualifying conf_thres [b1; b2] in
  (frame_group st' = [] /\ frame_times st' = [])
  /\ (qs <> [] ->
      exists a,
        avg_areas st' = avg_areas st ++ [Some a]
        /\ (a == Qsum (map area qs) / inject_Z (Z.of_nat (length qs)))%Q
        /\ (one_box_per_frame conf_thres [b1; b2] ->
            (a == spec_mean_of_frame_totals conf_thres [b1; b2])%Q)
        /\ avg_time_stamps st'
           = avg_time_stamps st ++ [mean [t1; (now - start)%Q]]
        /\ (mean [t1; (now - start)%Q] == (t1 + (now - start)) / 2)%Q).
Proof.
  intros Hinf Hstart Hgroup Htimes st' qs.
  subst st'. unfold process_video_step. rewrite Hinf, Hstart.
  set (st1 := (if negb _ then _ else _)).
  assert (Hg1 : frame_group st1 = [b1; b2]).
  { subst st1. destruct (negb _); [| destruct (last_detect_time _); [destruct (Qlt_bool _ _) |]]; cbn; rewrite Hgroup; reflexivity. }
  assert (Ht1 : frame_times st1 = [t1; (now - start)%Q]).
  { subst st1. destruct (negb _); [| destruct (last_detect_time _); [destruct (Qlt_bool _ _) |]]; cbn; rewrite Htimes; reflexivity. }
  assert (Hs1 : inference_start_time st1 = Some start).
  { subst st1. destruct (negb _); [| destruct (last_detect_time _); [destruct (Qlt_bool _ _) |]]; cbn; exact Hstart. }
  assert (Ha1 : avg_areas st1 = avg_areas st /\ avg_time_stamps st1 = avg_time_stamps st).
  { subst st1. destruct (negb _); [| destruct (last_detect_time _); [destruct (Qlt_bool _ _) |]]; cbn; auto. }
  destruct Ha1 as [Ha1 Hat1].
  rewrite Hg1, Ht1. cbn [length Nat.eqb].
  destruct (count_frame_fold conf_thres (frame_group st1) (0%Q, 0%Z)) as [Htot Hcnt].
  rewrite Hg1 in Htot, Hcnt. fold qs in Htot, Hcnt.
  destruct (Z_lt_le_dec 0 (snd (fold_left (count_frame conf_thres) (frame_group st1) (0%Q, 0%Z)))) as [Hpos | Hzero].
  - destruct (calc_detect (mean [t1; (now - start)%Q]) conf_thres nan_gap now st1 Hpos)
      as (st2 & -> & Havg & Hts & _ & _ & Hfg & Hft & _).
    cbn. split; [auto |]. intros _.
    rewrite Havg, Hts, Ha1, Hat1, Hg1. eexists. split; [reflexivity |].
    assert (Ea : (fst (fold_left (count_frame conf_thres) [b1; b2] (0%Q, 0%Z))
                  / inject_Z (snd (fold_left (count_frame conf_thres) [b1; b2] (0%Q, 0%Z)))
                  == Qsum (map area qs) / inject_Z (Z.of_nat (length qs)))%Q).
    { rewrite Htot, Hcnt. cbn [fst snd]. rewrite Qplus_0_l, Z.add_0_l.
      reflexivity. }
    split; [exact Ea |]. split.
    + intros H1. rewrite Ea. symmetry. apply spec_mean_one_box. exact H1.
    + split; [reflexivity | apply mean_pair].
  - destruct (calc_no_detect (mean [t1; (now - start)%Q]) conf_thres nan_gap now start st1 Hs1 Hzero)
      as (st2 & -> & Hfg & Hft).
    cbn. split; [auto |]. intros Hne. exfalso.
    rewrite Hg1 in Hzero. rewrite Hcnt in Hzero. cbn [snd] in Hzero.
    apply Hne. apply length_zero_iff_nil.
    change (length (group_qualifying conf_thres [b1; b2]) = 0%nat).
    subst qs. lia.
Qed.

Lemma calculate_returns group_time conf_thres nan_gap now st start :
  inference_start_time st = Some start ->
  exists st',
    calculate_average_area_with_sma group_time conf_thres nan_gap now st
    = Ok st'.
Proof.
  intros Hs. unfold calculate_average_area_with_sma.
  destruct (fold_left _ _ _) as [total cnt].
  destruct (0 <? cnt)%Z.
  - destruct (1 <=? _)%nat; destruct (is_monitoring _); eauto.
  - destruct (last_detect_time st); [| eauto]. rewrite Hs.
    destruct (Qlt_bool _ _); eauto.
Qed.

Lemma alert_loop_buffer (ts : list Z) (st : app) :
  frame_group (fst (alert_loop ts st)) = frame_group st
  /\ frame_times (fst (alert_loop ts st)) = frame_times st.
Proof.
  revert st. induction ts as [| t ts IH]; intros st; simpl; [auto |].
  destruct (inference_start_time st); [| simpl; auto].
  match goal with |- context [alert_loop ts ?s] =>
    destruct (IH s) as (H1 & H2) end.
  rewrite H1, H2. destruct (negb _); cbn; auto.
Qed.

Lemma reachable_buffer_inv (st : app) : reachable st -> buffer_inv st.
Proof.
  induction 1 as [log | a st _ [IH1 IH2]]; unfold buffer_inv in *.
  - simpl. auto.
  - destruct a; cbn [step].
    + unfold start_preview. destruct (negb source_ok); cbn; auto.
    + unfold start_inference. destruct (negb ready); cbn; auto.
    + unfold stop_inference. cbn. auto.
    + unfold stop_processing. cbn. auto.
    + unfold clear_all_data.
      destruct (is_inference st || is_preview st);
        [destruct (negb confirmed) |]; cbn; auto.
    + unfold auto_reset_system. cbn. auto.
    + unfold toggle_monitoring.
      destruct (negb (is_inference st)); [auto |]. cbn.
      destruct (negb (is_monitoring st)); [destruct (current_frame st) |];
        cbn; auto.
    + cbn. auto.
    + unfold process_video_step.
      destruct (is_inference st); [| cbn; auto].
      destruct (inference_start_time st) as [start |] eqn:Hs; [| cbn; auto].
      set (st1 := (if negb _ then _ else _)).
      assert (H1 : frame_group st1 = frame_group st ++ [bs]
                   /\ frame_times st1 = frame_times st ++ [(now - start)%Q]
                   /\ inference_start_time st1 = Some start).
      { subst st1.
        destruct (negb _);
          [| destruct (last_detect_time _); [destruct (Qlt_bool _ _) |]];
          cbn; auto. }
      clearbody st1. destruct H1 as (Hg & Ht & Hs1).
      destruct (length (frame_group st1) =? 2)%nat eqn:E.
      * match goal with |- context [calculate_average_area_with_sma ?g ?c ?n ?w st1] =>
          destruct (calculate_returns g c n w st1 start Hs1) as [st2 ->] end.
        cbn. auto.
      * apply Nat.eqb_neq in E. rewrite Hg, Ht in *.
        rewrite !length_app in *. simpl in *. lia.
    + unfold run_callback. destruct (after_queue st) as [| cb rest];
        [auto |].
      destruct cb as [| r].
      * unfold check_and_handle_ng, detect_and_handle.
        destruct (check_area_trend_timebased _ _ 3 _ _ _); [| cbn; auto].
        destruct (check_area_trend_timebased _ _ 4 _ _ _); [| cbn; auto].
        unfold handle_ng.
        match goal with |- context [alert_loop ?ts ?s] =>
          destruct (alert_loop_buffer ts s) as (H1 & H2) end.
        rewrite H1, H2. cbn. auto.
      * unfold show_non_modal_warning. cbn.
        destruct (start_monitor_image st); [destruct (current_frame st) |];
          cbn; auto.
Qed.

(** C5, as the code has it.  In every reachable state the frame buffer
    holds at most one sample.  When the second frame of a pair arrives,
    the buffer is emptied whatever the outcome; and when at least one of
    the two frames has a qualifying detection, one sample is appended
    whose area is the total qualifying area of the pair divided by the
    number of qualifying boxes (which is the mean of the per-frame totals
    when no frame has more than one qualifying box) and whose timestamp
    is the mean of the two buffered timestamps. *)
Theorem frame_pair_aggregation :
  (forall st, reachable st -> buffer_inv st)
  /\ (forall (st : app) (start now conf_thres nan_gap t1 : Q)
        (b1 b2 : boxes) (frame : image),
        is_inference st = true ->
        inference_start_time st = Some start ->
        frame_group st = [b1] ->
        frame_times st = [t1] ->
        let st' := process_video_step now frame b2 conf_thres nan_gap st in
        let qs := group_qualifying conf_thres [b1; b2] in
        (frame_group st' = [] /\ frame_times st' = [])
        /\ (qs <> [] ->
            exists a,
              avg_areas st' = avg_areas st ++ [Some a]
              /\ (a == Qsum (map area qs)
                        / inject_Z (Z.of_nat (length qs)))%Q
              /\ (one_box_per_frame conf_thres [b1; b2] ->
                  (a == spec_mean_of_frame_totals conf_thres [b1; b2])%Q)
              /\ avg_time_stamps st'
                 = avg_time_stamps st ++ [mean [t1; (now - start)%Q]]
              /\ (mean [t1; (now - start)%Q]
                  == (t1 + (now - start)) / 2)%Q)).
Proof.
  split.
  - exact reachable_buffer_inv.
  - exact frame_pair_step.
Qed.

Lemma frame_pair_aggregation_witness :
  let st := run [StartInference true 0;
                 ProcessFrame 0 (Frame 1)
                   (Some [box_of_area 10; box_of_area 30]) (1 # 2) 10]
                (init []) in
  let st' := process_video_step 1 (Frame 2) (Some [box_of_area 20])
               (1 # 2) 10 st in
  frame_group st' = [] /\ frame_times st' = [].
Proof.
  intros st st'.
  refine (proj1 (proj2 frame_pair_aggregation st 0%Q 1%Q (1 # 2)%Q 10%Q 0%Q
                   (Some [box_of_area 10; box_of_area 30])
                   (Some [box_of_area 20]) (Frame 2) _ _ _ _));
    reflexivity.
Defined.

(** C5.  The aggregator divides the summed area by the number of
    qualifying boxes, where its docstring (the average area of 2 frames)
    and the claim describe the mean over the frames.  With qualifying
    boxes of areas 10 and 30 in the first frame and one of area 20 in the
    second, the ingestion path of [process_video] records the frame
    areas 40 and 20 in [raw_areas], the aggregator appends 20, the mean
    over the three boxes, and the mean of the per-frame totals is 30. *)
Lemma aggregated_area_is_mean_over_boxes :
  map (option_map Qred) (raw_areas (run run_two_boxes (init [])))
  = [Some 40%Q; Some 20%Q]
  /\ map (option_map Qred) (avg_areas (run run_two_boxes (init [])))
     = [Some 20%Q]
  /\ Qred (spec_mean_of_frame_totals (1 # 2)
             [Some [box_of_area 10; box_of_area 30];
              Some [box_of_area 20]])
     = 30%Q.
Proof. repeat split; vm_compute; reflexivity. Qed.

(* ===================================================================== *)
(** * The series handed to the detectors *)
(* ===================================================================== *)

Lemma qualifying_count_positive conf_thres (group : list boxes) :
  group_qualifying conf_thres group <> [] ->
  (0 < snd (fold_left (count_frame conf_thres) group (0%Q, 0%Z)))%Z.
Proof.
  intros Hne.
  destruct (count_frame_fold conf_thres group (0%Q, 0%Z)) as [_ ->].
  destruct (group_qualifying conf_thres group); [congruence |].
  simpl. lia.
Qed.

Lemma qualifying_count_zero conf_thres (group : list boxes) :
  group_qualifying conf_thres group = [] ->
  snd (fold_left (count_frame conf_thres) group (0%Q, 0%Z)) = 0%Z.
Proof.
  intros H.
  destruct (count_frame_fold conf_thres group (0%Q, 0%Z)) as [_ ->].
  rewrite H. reflexivity.
Qed.

(** Without a qualifying detection in the buffer the aggregation step
    defers no call and leaves the smoothed series alone. *)
Lemma calc_defers_nothing (gt conf_thres nan_gap now : Q) (st st' : app) :
  group_qualifying conf_thres (frame_group st) = [] ->
  calculate_average_area_with_sma gt conf_thres nan_gap now st = Ok st' ->
  after_queue st' = after_queue st
  /\ sma_areas st' = sma_areas st
  /\ sma_time_stamps st' = sma_time_stamps st.
Proof.
  intros Hq. apply qualifying_count_zero in Hq.
  unfold calculate_average_area_with_sma.
  destruct (fold_left _ _ _) as [total cnt]. simpl in Hq. subst cnt.
  cbn [Z.ltb Z.compare].
  destruct (last_detect_time st); [| intros [= <-]; auto].
  destruct (inference_start_time st); [| discriminate].
  destruct (Qlt_bool _ _); intros [= <-]; cbn; auto.
Qed.

Lemma step_defers_nothing (conf_thres nan_gap now : Q) (frame : image)
    (bs : boxes) (st : app) :
  group_qualifying conf_thres (frame_group st ++ [bs]) = [] ->
  after_queue (process_video_step now frame bs conf_thres nan_gap st)
  = after_queue st.
Proof.
  intros Hq. unfold process_video_step.
  destruct (is_inference st); [| reflexivity].
  destruct (inference_start_time st) as [start |]; [| reflexivity].
  set (st1 := (if negb _ then _ else _)).
  assert (H1 : frame_group st1 = frame_group st ++ [bs]
               /\ after_queue st1 = after_queue st).
  { subst st1.
    destruct (negb _);
      [| destruct (last_detect_time _); [destruct (Qlt_bool _ _) |]];
      cbn; auto. }
  clearbody st1. destruct H1 as [Hg Ha].
  destruct (length (frame_group st1) =? 2)%nat; [| exact Ha].
  rewrite <- Hg in Hq.
  destruct (calculate_average_area_with_sma _ _ _ _ st1) as [st2 | e] eqn:Hc.
  - destruct (calc_defers_nothing _ _ _ _ _ _ Hq Hc) as (Hq2 & _).
    cbn. rewrite Hq2. exact Ha.
  - cbn. exact Ha.
Qed.

(** C4, as the code has it.  On an aggregation step with a qualifying
    detection while monitoring is enabled, the sample is appended, the
    whole averaged series is smoothed, a call of [check_and_handle_ng] is
    handed to the event loop, and the area series that call hands to both
    detectors is the gap cleaner applied to the smoothed series: smooth
    first, then clean.  A step without qualifying detection runs no
    detector: the aggregation step hands no call to the event loop and
    leaves the smoothed series as it is, and no iteration of the video
    loop whose buffered frames hold no qualifying box hands one over. *)
Theorem detectors_receive_cleaned_sma (group_time conf_thres nan_gap now : Q)
    (st : app) :
  (is_monitoring st = true ->
   group_qualifying conf_thres (frame_group st) <> [] ->
   exists st' a,
     calculate_average_area_with_sma group_time conf_thres nan_gap now st
     = Ok st'
     /\ avg_areas st' = avg_areas st ++ [Some a]
     /\ avg_time_stamps st' = avg_time_stamps st ++ [group_time]
     /\ after_queue st' = after_queue st ++ [CheckAndHandleNg]
     /\ check_and_handle_ng st'
        = detect_and_handle
            (clean_data
               (rolling_mean (sma_window_var st) (avg_areas st'))
               (avg_time_stamps st') 3)
            st')
  /\ (group_qualifying conf_thres (frame_group st) = [] ->
      forall st',
        calculate_average_area_with_sma group_time conf_thres nan_gap now st
        = Ok st' ->
        after_queue st' = after_queue st
        /\ sma_areas st' = sma_areas st
        /\ sma_time_stamps st' = sma_time_stamps st)
  /\ (forall (frame : image) (bs : boxes),
        group_qualifying conf_thres (frame_group st ++ [bs]) = [] ->
        after_queue (process_video_step now frame bs conf_thres nan_gap st)
        = after_queue st).
Proof.
  split; [| split].
  - intros Hmon Hne.
    destruct (calc_detect group_time conf_thres nan_gap now st
                (qualifying_count_positive _ _ Hne))
      as (st' & Hcalc & Havg & Hts & Hsma & Hsts & _ & _ & Hq).
    exists st'. eexists. split; [exact Hcalc |].
    split; [exact Havg |]. split; [exact Hts |].
    split; [rewrite Hq, Hmon; reflexivity |].
    unfold check_and_handle_ng. rewrite Hsma, Hsts. reflexivity.
  - intros Hq st' Hc. exact (calc_defers_nothing _ _ _ _ _ _ Hq Hc).
  - intros frame bs Hq. apply step_defers_nothing. exact Hq.
Qed.

Lemma detectors_receive_cleaned_sma_witness :
  let st := set_frame_group [Some [box_of_area 20]; None]
              (set_is_monitoring true (init [])) in
  let quiet_st := run [StartInference true 0; ToggleMonitoring;
                       ProcessFrame 0 (Frame 1) None (1 # 2) 1]
                      (init []) in
  (exists st' a,
    calculate_average_area_with_sma 4 (1 # 2) 1 4 st = Ok st'
    /\ avg_areas st' = avg_areas st ++ [Some a]
    /\ avg_time_stamps st' = avg_time_stamps st ++ [4%Q]
    /\ after_queue st' = after_queue st ++ [CheckAndHandleNg]
    /\ check_and_handle_ng st'
       = detect_and_handle
           (clean_data
              (rolling_mean (sma_window_var st) (avg_areas st'))
              (avg_time_stamps st') 3)
           st')
  /\ after_queue (process_video_step 1 (Frame 2) (Some []) (1 # 2) 1
                    quiet_st)
     = after_queue quiet_st.
Proof.
  intros st quiet_st. split.
  - apply (proj1 (detectors_receive_cleaned_sma 4 (1 # 2) 1 4 st)).
    + reflexivity.
    + vm_compute. discriminate.
  - apply (proj2 (proj2 (detectors_receive_cleaned_sma 4 (1 # 2) 1 1
                           quiet_st))).
    reflexivity.
Defined.

(** C4 as stated fails on the series 10, NaN, 20 with window 3: the
    detectors receive the cleaned smoothed series 10, 10, 15, where the
    smoothed cleaned series is 10, 12.5, 15. *)
Lemma detectors_input_is_not_sma_of_cleaned :
  let st := run run_with_gap (init []) in
  map (option_map Qred) (avg_areas st) = [Some 10%Q; None; Some 20%Q]
  /\ map (option_map Qred)
         (clean_data (sma_areas st) (sma_time_stamps st) 3)
     = [Some 10%Q; Some 10%Q; Some 15%Q]
  /\ map (option_map Qred)
         (rolling_mean (sma_window_var st)
            (clean_data (avg_areas st) (avg_time_stamps st) 3))
     = [Some 10%Q; Some (25 # 2)%Q; Some 15%Q].
Proof. repeat split; vm_compute; reflexivity. Qed.

(* ===================================================================== *)
(** * Properties of the trend detector *)
(* ===================================================================== *)

Lemma Qlt_bool_iff a b : Qlt_bool a b = true <-> (a < b)%Q.
Proof.
  unfold Qlt_bool. rewrite negb_true_iff.
  split.
  - intros H. apply Qnot_le_lt. intros Hle.
    apply Qle_bool_iff in Hle. congruence.
  - intros H. destruct (Qle_bool b a) eqn:E; [| reflexivity].
    apply Qle_bool_iff in E. exfalso. eapply Qlt_not_le; eauto.
Qed.

Lemma flat_iff r eps : flat r eps = true <-> flat_trend r eps.
Proof.
  unfold flat, flat_trend. destruct r as [r |].
  - rewrite Qlt_bool_iff. split.
    + intros H. eauto.
    + intros (r' & E & H). injection E as <-. exact H.
  - split; [discriminate |]. intros (r' & E & _). discriminate.
Qed.

Lemma in_cooldown_iff t last cooldown :
  in_cooldown t last cooldown = false <-> cooled_down t last cooldown.
Proof.
  unfold in_cooldown, cooled_down. destruct last as [l |]; [| tauto].
  split.
  - intros H. apply Qnot_le_lt. intros Hle.
    apply Qle_bool_iff in Hle. congruence.
  - intros H. destruct (Qle_bool _ _) eqn:E; [| reflexivity].
    apply Qle_bool_iff in E. exfalso. eapply Qlt_not_le; eauto.
Qed.

Lemma mask_index_ok {A} (a : list A) (mask : list bool) :
  length a = length mask -> mask_index a mask = Ok (compress a mask).
Proof. intros H. unfold mask_index. rewrite H, Nat.eqb_refl. reflexivity. Qed.

Lemma mask_index_raise {A} (a : list A) (mask : list bool) :
  length a <> length mask -> mask_index a mask = Raise IndexError.
Proof.
  intros H. unfold mask_index.
  apply Nat.eqb_neq in H. rewrite H. reflexivity.
Qed.

Lemma loop_body_next areas timestamps minutes epsilon cooldown st t_now :
  length areas = length timestamps ->
  loop_body areas timestamps minutes epsilon cooldown st t_now
  = Ok (loop_next areas timestamps minutes epsilon cooldown st t_now).
Proof.
  intros Hlen. destruct st as [last results].
  unfold loop_body, loop_next, evaluated, prev_window, curr_window.
  rewrite !mask_index_ok by (unfold prev_mask, curr_mask; rewrite length_map; exact Hlen).
  cbn [mbind result_bind].
  destruct (compress areas (prev_mask _ _ _)) as [| a pw]; [reflexivity |].
  destruct (compress areas (curr_mask _ _ _)) as [| b cw]; [reflexivity |].
  cbn [length Nat.eqb orb].
  destruct (nanmean (a :: pw)) as [p |]; [| reflexivity].
  destruct (Qlt_bool 0 p); [| reflexivity].
  cbn [fst snd].
  destruct (flat _ epsilon); cbn.
  - destruct (in_cooldown t_now last cooldown); reflexivity.
  - reflexivity.
Qed.

Section Loop.
Variables (areas : list float) (timestamps : list Q).
Variables (minutes epsilon cooldown : Q).

Lemma last_ng_snoc results e :
  last_ng (results ++ [e])
  = if bool_decide (status e = NG) then Some (time_sec e)
    else last_ng results.
Proof.
  unfold last_ng, extract_ng_markers.
  rewrite List.filter_app, map_app. simpl.
  destruct (bool_decide (status e = NG)); simpl.
  - apply last_snoc.
  - rewrite app_nil_r. reflexivity.
Qed.

Lemma snoc_split {A} (l pre post : list A) (x e : A) :
  l ++ [x] = pre ++ e :: post ->
  (post = [] /\ pre = l /\ e = x)
  \/ exists post', post = post' ++ [x] /\ l = pre ++ e :: post'.
Proof.
  intros H. destruct post as [| y post0 _] using rev_ind.
  - left. apply app_inj_tail in H as [-> ->]. auto.
  - right. exists post0.
    change (pre ++ e :: post0 ++ [y]) with (pre ++ (e :: post0) ++ [y]) in H.
    rewrite app_assoc in H. apply app_inj_tail in H as [-> ->]. auto.
Qed.

Lemma loop_inv_next st done t :
  loop_inv areas timestamps minutes epsilon cooldown st done ->
  loop_inv areas timestamps minutes epsilon cooldown
    (loop_next areas timestamps minutes epsilon cooldown st t) (done ++ [t]).
Proof.
  intros (Hlast & Htimes & Hentries).
  unfold loop_next, loop_inv.
  rewrite List.filter_app. simpl. unfold is_evaluated at 2.
  destruct (evaluated areas timestamps minutes t) as [[p c] |] eqn:Hev.
  2:{ rewrite app_nil_r. auto. }
  set (r := option_map (fun c0 => (c0 / p)%Q) c).
  set (s := if flat r epsilon then _ else NORMAL).
  cbn [fst snd]. split; [| split].
  - rewrite last_ng_snoc. cbn [status time_sec].
    rewrite Hlast. reflexivity.
  - rewrite map_app, Htimes. reflexivity.
  - intros pre e post Hsplit.
    apply snoc_split in Hsplit as [(-> & -> & ->) | (post' & -> & Hl)].
    2:{ eapply Hentries. exact Hl. }
    exists p, c. cbn [time_sec prev_avg_area curr_avg_area ratio status].
    split; [exact Hev |]. do 3 (split; [reflexivity |]).
    fold r. rewrite <- Hlast.
    rewrite <- flat_iff, <- in_cooldown_iff. subst s.
    destruct (flat r epsilon); destruct (in_cooldown t (fst st) cooldown);
      repeat split; try discriminate; try tauto; intros; try congruence;
      try (intros []; congruence); intuition congruence.
Qed.

Lemma loop_inv_fold times st done :
  loop_inv areas timestamps minutes epsilon cooldown st done ->
  loop_inv areas timestamps minutes epsilon cooldown
    (fold_left (loop_next areas timestamps minutes epsilon cooldown)
       times st)
    (done ++ times).
Proof.
  revert st done. induction times as [| t times IH]; intros st done H; simpl.
  - rewrite app_nil_r. exact H.
  - replace (done ++ t :: times) with ((done ++ [t]) ++ times)
      by (rewrite <- app_assoc; reflexivity).
    apply IH. apply loop_inv_next. exact H.
Qed.

Lemma loop_inv_init :
  loop_inv areas timestamps minutes epsilon cooldown (None, []) [].
Proof.
  split; [reflexivity |]. split; [reflexivity |].
  intros pre e post H. destruct pre; discriminate.
Qed.

Lemma for_each_next times st :
  length areas = length timestamps ->
  for_each (loop_body areas timestamps minutes epsilon cooldown) st times
  = Ok (fold_left (loop_next areas timestamps minutes epsilon cooldown)
          times st).
Proof.
  intros Hlen. revert st. induction times as [| t times IH]; intros st; simpl.
  - reflexivity.
  - rewrite loop_body_next by exact Hlen. cbn [mbind result_bind].
    apply IH.
Qed.

Lemma for_each_mismatch times st :
  length areas <> length timestamps -> times <> [] ->
  for_each (loop_body areas timestamps minutes epsilon cooldown) st times
  = Raise IndexError.
Proof.
  intros Hlen Hne. destruct times as [| t times]; [congruence |].
  simpl. destruct st as [last results]. unfold loop_body.
  rewrite (mask_index_raise areas (prev_mask timestamps (minutes * 60) t));
    [reflexivity |].
  unfold prev_mask. rewrite length_map. exact Hlen.
Qed.

End Loop.

Section Sorted.
Context {A : Type} (R : A -> A -> Prop).

Lemma StronglySorted_list_filter (f : A -> bool) (l : list A) :
  StronglySorted R l -> StronglySorted R (List.filter f l).
Proof.
  induction 1 as [| x l Hl IH Hx]; simpl; [constructor |].
  destruct (f x); [| exact IH].
  constructor; [exact IH |].
  apply List.Forall_forall. intros y Hy.
  apply List.filter_In in Hy as [Hy _].
  rewrite List.Forall_forall in Hx. auto.
Qed.

Lemma StronglySorted_lookup_lt (l : list A) (i j : nat) (x y : A) :
  StronglySorted R l -> (i < j)%nat ->
  l !! i = Some x -> l !! j = Some y -> R x y.
Proof.
  intros Hl. revert i j. induction Hl as [| z l Hl IH Hz]; intros i j Hij Hi Hj.
  - discriminate.
  - destruct j as [| j]; [lia |]. simpl in Hj.
    destruct i as [| i]; simpl in Hi.
    + injection Hi as ->. rewrite List.Forall_forall in Hz. apply Hz.
      apply list_elem_of_In. eapply list_elem_of_lookup_2. exact Hj.
    + apply (IH i j); [lia | assumption | assumption].
Qed.

End Sorted.

Lemma StronglySorted_map_seq (R : Z -> Z -> Prop) (f : nat -> Z) (m n : nat) :
  (forall i j, (i < j)%nat -> R (f i) (f j)) ->
  StronglySorted R (map f (seq m n)).
Proof.
  intros Hf. revert m. induction n as [| n IH]; intros m; simpl.
  - constructor.
  - constructor; [apply IH |].
    apply List.Forall_forall. intros y Hy.
    apply List.in_map_iff in Hy as (k & <- & Hk).
    apply List.in_seq in Hk. apply Hf. lia.
Qed.

Lemma range_sorted (start stop step : Z) (times : list Z) :
  range start stop step = Ok times ->
  StronglySorted Z.lt times \/ StronglySorted Z.gt times.
Proof.
  unfold range. destruct (step =? 0)%Z eqn:E; [discriminate |].
  intros [= <-]. apply Z.eqb_neq in E.
  destruct (Z_lt_le_dec 0 step).
  - left. apply StronglySorted_map_seq. intros i j Hij. nia.
  - right. apply StronglySorted_map_seq. intros i j Hij. nia.
Qed.

Lemma range_nonempty (start stop step : Z) :
  (1 <= step)%Z -> (start < stop)%Z ->
  exists times, range start stop step = Ok (start :: times).
Proof.
  intros Hs Hlt. unfold range.
  destruct (step =? 0)%Z eqn:E; [apply Z.eqb_eq in E; lia |].
  unfold range_length.
  destruct (0 <? step)%Z eqn:E1; [| apply Z.ltb_ge in E1; lia].
  destruct (stop <=? start)%Z eqn:E2; [apply Z.leb_le in E2; lia |].
  assert (H : (0 <= (stop - start - 1) / step)%Z)
    by (apply Z.div_pos; lia).
  replace (Z.to_nat ((stop - start - 1) / step + 1))
    with (S (Z.to_nat ((stop - start - 1) / step))) by lia.
  simpl. rewrite Z.add_0_r. eauto.
Qed.

(** The last NG entry of [pre] comes at or after any NG entry of [pre]. *)
Lemma last_ng_after (pre : list WindowEvaluation) (i : nat)
    (ei : WindowEvaluation) :
  pre !! i = Some ei -> status ei = NG ->
  exists k ek, (i <= k)%nat /\ pre !! k = Some ek
               /\ last_ng pre = Some (time_sec ek).
Proof.
  revert i ei. induction pre as [| x pre IH] using rev_ind; intros i ei Hi Hng.
  - discriminate.
  - rewrite last_ng_snoc.
    destruct (bool_decide (status x = NG)) eqn:E.
    + exists (length pre), x. split; [| split].
      * apply lookup_lt_Some in Hi. rewrite length_app in Hi. simpl in Hi. lia.
      * rewrite lookup_app_r by lia. rewrite Nat.sub_diag. reflexivity.
      * reflexivity.
    + apply bool_decide_eq_false in E.
      assert (Hlt : (i < length pre)%nat).
      { destruct (Nat.lt_ge_cases i (length pre)) as [? | Hge]; [assumption |].
        exfalso. pose proof (lookup_lt_Some _ _ _ Hi) as Hb.
        rewrite length_app in Hb. simpl in Hb.
        assert (i = length pre) by lia. subst i.
        rewrite lookup_app_r in Hi by lia.
        rewrite Nat.sub_diag in Hi. injection Hi as ->. contradiction. }
      rewrite lookup_app_l in Hi by assumption.
      destruct (IH i ei Hi Hng) as (k & ek & Hk & Hlk & Hlast).
      exists k, ek. split; [assumption |]. split; [| assumption].
      rewrite lookup_app_l; [assumption |].
      eapply lookup_lt_Some. exact Hlk.
Qed.

Lemma ng_separated areas timestamps minutes epsilon cooldown
    (results : list WindowEvaluation) :
  (StronglySorted Z.lt (map time_sec results)
   \/ StronglySorted Z.gt (map time_sec results)) ->
  (forall pre e post, results = pre ++ e :: post ->
     entry_as_claimed areas timestamps minutes epsilon cooldown pre e) ->
  forall i j ei ej,
    (i < j)%nat -> results !! i = Some ei -> results !! j = Some ej ->
    status ei = NG -> status ej = NG ->
    (cooldown < inject_Z (Z.abs (time_sec ej - time_sec ei)))%Q.
Proof.
  intros Hsorted Hentries i j ei ej Hij Hi Hj Hngi Hngj.
  pose proof (take_drop_middle results j ej Hj) as Hsplit.
  symmetry in Hsplit.
  destruct (Hentries _ _ _ Hsplit) as (p & c & _ & _ & _ & _ & Hng & _ & _).
  apply Hng in Hngj as [_ Hcool].
  assert (Hpi : take j results !! i = Some ei)
    by (rewrite lookup_take_lt by lia; exact Hi).
  destruct (last_ng_after _ _ _ Hpi Hngi) as (k & ek & Hik & Hk & Hlast).
  rewrite Hlast in Hcool. simpl in Hcool.
  assert (Hkj : (k < j)%nat).
  { apply lookup_lt_Some in Hk. rewrite length_take in Hk. lia. }
  rewrite lookup_take_lt in Hk by lia.
  assert (Hti : map time_sec results !! i = Some (time_sec ei))
    by (rewrite list_lookup_fmap, Hi; reflexivity).
  assert (Htk : map time_sec results !! k = Some (time_sec ek))
    by (rewrite list_lookup_fmap, Hk; reflexivity).
  assert (Htj : map time_sec results !! j = Some (time_sec ej))
    by (rewrite list_lookup_fmap, Hj; reflexivity).
  eapply Qlt_le_trans; [exact Hcool |].
  rewrite <- Zle_Qle.
  destruct Hsorted as [Hs | Hs].
  - pose proof (StronglySorted_lookup_lt _ _ _ _ _ _ Hs Hkj Htk Htj).
    destruct (Nat.eq_dec i k) as [-> | Hne].
    + rewrite Hk in Hi. injection Hi as ->. lia.
    + assert (Hik' : (i < k)%nat) by lia.
      pose proof (StronglySorted_lookup_lt _ _ _ _ _ _ Hs Hik' Hti Htk).
      lia.
  - pose proof (StronglySorted_lookup_lt _ _ _ _ _ _ Hs Hkj Htk Htj).
    lia.
Qed.

Lemma guard_nonempty (areas : list float) (timestamps : list Q) :
  areas <> [] -> timestamps <> [] ->
  (length areas =? 0)%nat || (length timestamps =? 0)%nat = false.
Proof. destruct areas, timestamps; simpl; congruence. Qed.

(** C1. Let [check_area_trend_timebased] return [results] on non-empty
    input.  The recorded entries are, in order, those of the evaluation
    times whose two windows are non-empty and whose [prev_avg] is
    positive.  For each entry, with [last_ng_time] the time of the last NG
    entry recorded before it (minus infinity when there is none): the
    status is NG if and only if [|ratio - 1| < epsilon] and
    [t_now - last_ng_time > cooldown]; it is SKIP if and only if
    [|ratio - 1| < epsilon] and [t_now - last_ng_time <= cooldown]; it is
    NORMAL otherwise.  Any two NG entries are more than [cooldown] apart
    in [time_sec]. *)
Theorem trend_status_and_cooldown (areas : list float) (timestamps : list Q)
    (minutes epsilon overlap_ratio cooldown : Q)
    (results : list WindowEvaluation) :
  areas <> [] -> timestamps <> [] ->
  check_area_trend_timebased areas timestamps minutes epsilon overlap_ratio
    cooldown = Ok results ->
  (exists times,
      range (int (hd 0%Q timestamps + minutes * 60)%Q)
            (int (List.last timestamps 0%Q + 1)%Q)
            (step_size minutes overlap_ratio) = Ok times
      /\ map time_sec results
         = List.filter (is_evaluated areas timestamps minutes) times)
  /\ (forall pre e post,
        results = pre ++ e :: post ->
        entry_as_claimed areas timestamps minutes epsilon cooldown pre e)
  /\ (forall i j ei ej,
        (i < j)%nat -> results !! i = Some ei -> results !! j = Some ej ->
        status ei = NG -> status ej = NG ->
        (cooldown < inject_Z (Z.abs (time_sec ej - time_sec ei)))%Q).
Proof.
  intros Ha Ht Hcheck. unfold check_area_trend_timebased in Hcheck.
  rewrite (guard_nonempty _ _ Ha Ht) in Hcheck.
  destruct (range _ _ _) as [times | e] eqn:Hrange; [| discriminate].
  cbn [mbind result_bind] in Hcheck.
  assert (Hinv : loop_inv areas timestamps minutes epsilon cooldown
                   (last_ng results, results) times).
  { destruct (Nat.eq_dec (length areas) (length timestamps)) as [Hlen | Hlen].
    - rewrite for_each_next in Hcheck by exact Hlen.
      cbn [mbind result_bind mret result_ret] in Hcheck.
      injection Hcheck as <-.
      pose proof (loop_inv_fold areas timestamps minutes epsilon cooldown
                    times (None, []) []
                    (loop_inv_init areas timestamps minutes epsilon cooldown))
        as H.
      rewrite app_nil_l in H. destruct H as (H1 & H2 & H3).
      split; [reflexivity |]. split; assumption.
    - destruct times as [| t times].
      + simpl in Hcheck. injection Hcheck as <-.
        apply loop_inv_init.
      + rewrite for_each_mismatch in Hcheck by (assumption || discriminate).
        discriminate. }
  destruct Hinv as (_ & Htimes & Hentries). cbn [snd] in Htimes, Hentries.
  split; [eauto |]. split; [exact Hentries |].
  eapply ng_separated; [| exact Hentries].
  rewrite Htimes.
  destruct (range_sorted _ _ _ _ Hrange) as [Hs | Hs]; [left | right];
    apply StronglySorted_list_filter; exact Hs.
Qed.

Lemma trend_status_and_cooldown_witness :
  let results :=
    match check_area_trend_timebased sample_areas sample_timestamps 1
            (15 # 100) (7 # 10) 30 with
    | Ok r => r
    | Raise _ => []
    end in
  extract_ng_markers results = [78; 114; 150; 186; 222]%Z
  /\ forall i j ei ej,
       (i < j)%nat -> results !! i = Some ei -> results !! j = Some ej ->
       status ei = NG -> status ej = NG ->
       (30 < inject_Z (Z.abs (time_sec ej - time_sec ei)))%Q.
Proof.
  intros results. split; [vm_compute; reflexivity |].
  refine (proj2 (proj2 (trend_status_and_cooldown sample_areas
                          sample_timestamps 1 (15 # 100) (7 # 10) 30
                          results _ _ _))).
  - discriminate.
  - discriminate.
  - vm_compute. reflexivity.
Defined.

(** C9, as the code has it.  On non-empty input: when the truncated step
    size is at least 1 and [areas] and [timestamps] have the same length,
    the call returns a list; when the truncated step size is 0, [range]
    raises [ValueError]; when the step size is at least 1, the lengths
    differ and the evaluation range is non-empty, the first mask
    selection raises [IndexError]. *)
Theorem trend_check_totality (areas : list float) (timestamps : list Q)
    (minutes epsilon overlap_ratio cooldown : Q) :
  areas <> [] -> timestamps <> [] ->
  ((1 <= step_size minutes overlap_ratio)%Z ->
   length areas = length timestamps ->
   exists results,
     check_area_trend_timebased areas timestamps minutes epsilon
       overlap_ratio cooldown = Ok results)
  /\ (step_size minutes overlap_ratio = 0%Z ->
      check_area_trend_timebased areas timestamps minutes epsilon
        overlap_ratio cooldown = Raise ValueError)
  /\ ((1 <= step_size minutes overlap_ratio)%Z ->
      length areas <> length timestamps ->
      (int (hd 0%Q timestamps + minutes * 60)%Q
       < int (List.last timestamps 0%Q + 1)%Q)%Z ->
      check_area_trend_timebased areas timestamps minutes epsilon
        overlap_ratio cooldown = Raise IndexError).
Proof.
  intros Ha Ht. unfold check_area_trend_timebased.
  rewrite (guard_nonempty _ _ Ha Ht).
  split; [| split].
  - intros Hstep Hlen. unfold range.
    destruct (step_size minutes overlap_ratio =? 0)%Z eqn:E;
      [apply Z.eqb_eq in E; lia |].
    cbn [mbind result_bind]. rewrite for_each_next by exact Hlen.
    cbn [mbind result_bind mret result_ret]. eauto.
  - intros ->. reflexivity.
  - intros Hstep Hlen Hlt.
    destruct (range_nonempty _ _ _ Hstep Hlt) as [times ->].
    cbn [mbind result_bind].
    rewrite for_each_mismatch by (assumption || discriminate).
    reflexivity.
Qed.

Lemma trend_check_totality_witness :
  (exists results,
      check_area_trend_timebased sample_areas sample_timestamps 1
        (15 # 100) (7 # 10) 30 = Ok results)
  /\ check_area_trend_timebased sample_areas sample_timestamps 1
       (15 # 100) 1 30 = Raise ValueError
  /\ check_area_trend_timebased [Some 1%Q] sample_timestamps 1
       (15 # 100) (7 # 10) 30 = Raise IndexError.
Proof.
  split; [| split].
  - apply (proj1 (trend_check_totality sample_areas sample_timestamps 1
                    (15 # 100) (7 # 10) 30 ltac:(discriminate)
                    ltac:(discriminate))).
    + vm_compute. discriminate.
    + reflexivity.
  - apply (proj1 (proj2 (trend_check_totality sample_areas
                           sample_timestamps 1 (15 # 100) 1 30
                           ltac:(discriminate) ltac:(discriminate)))).
    reflexivity.
  - apply (proj2 (proj2 (trend_check_totality [Some 1%Q]
                           sample_timestamps 1 (15 # 100) (7 # 10) 30
                           ltac:(discriminate) ltac:(discriminate)))).
    + vm_compute. discriminate.
    + simpl. lia.
    + vm_compute. reflexivity.
Defined.

(** C9 as stated fails when the lengths differ: with step size 18, one
    area and two timestamps, the call raises [IndexError]. *)
Lemma trend_check_raises_on_mismatch :
  (1 <= step_size 1 (7 # 10))%Z
  /\ check_area_trend_timebased [Some 1%Q] [0%Q; 200%Q] 1 (15 # 100) (7 # 10)
       30 = Raise IndexError.
Proof. split; vm_compute; [discriminate | reflexivity]. Qed.

(* ===================================================================== *)
(** * Properties of the escalation coordinator *)
(* ===================================================================== *)

Lemma count_app {A} (f : A -> bool) (l1 l2 : list A) :
  count f (l1 ++ l2) = (count f l1 + count f l2)%nat.
Proof. unfold count. rewrite List.filter_app, length_app. reflexivity. Qed.

Lemma alert_loop_closed (start : Q) (ts : list Z) (st : app) :
  inference_start_time st = Some start ->
  alert_loop ts st
  = (set_after_queue
       (after_queue st ++ map (fun t => ShowNonModalWarning (range_of start t)) ts)
       (set_ng_log (log_after start ts (ng_log st)) st),
     None).
Proof.
  revert st. induction ts as [| t ts IH]; intros st Hs.
  - simpl. rewrite app_nil_r. destruct st; reflexivity.
  - simpl. rewrite Hs.
    rewrite IH by (destruct (negb _); exact Hs).
    destruct (length (ng_log st) =? 0)%nat eqn:E; cbn; rewrite ?E; cbn;
      rewrite <- app_assoc; reflexivity.
Qed.

Lemma count_snoc {A} (f : A -> bool) (l : list A) (x : A) :
  count f (l ++ [x]) = (count f l + if f x then 1 else 0)%nat.
Proof. rewrite count_app. unfold count. simpl. destruct (f x); reflexivity. Qed.

Lemma range_of_eq start t t' :
  bool_decide (range_of start t' = range_of start t) = bool_decide (t' = t).
Proof.
  apply bool_decide_ext. split; [intros [= ->] | intros ->]; reflexivity.
Qed.

Lemma rows_log_after start t ts log :
  count (is_row_for (range_of start t)) (log_after start ts log)
  = (count (is_row_for (range_of start t)) log
     + count (fun t' => bool_decide (t' = t)) ts)%nat.
Proof.
  revert log. induction ts as [| t' ts IH]; intros log; simpl.
  - unfold count at 3. simpl. lia.
  - unfold log_after in *. simpl. rewrite IH.
    rewrite count_snoc. simpl. rewrite range_of_eq.
    assert (E : count (is_row_for (range_of start t))
                  (if (length log =? 0)%nat then log ++ [Header] else log)
                = count (is_row_for (range_of start t)) log).
    { destruct (length log =? 0)%nat; [| reflexivity].
      rewrite count_snoc. simpl. lia. }
    rewrite E. unfold count at 4. simpl.
    destruct (bool_decide (t' = t)); simpl; unfold count; lia.
Qed.

Lemma warnings_map start t ts :
  count (is_warning_for (range_of start t))
        (map (fun t' => ShowNonModalWarning (range_of start t')) ts)
  = count (fun t' => bool_decide (t' = t)) ts.
Proof.
  induction ts as [| t' ts IH]; [reflexivity |].
  unfold count in *. simpl. rewrite range_of_eq.
  destruct (bool_decide (t' = t)); simpl; rewrite IH; reflexivity.
Qed.

Lemma count_NoDup (t : Z) (ts : list Z) :
  NoDup ts ->
  count (fun t' => bool_decide (t' = t)) ts
  = if bool_decide (t ∈ ts) then 1%nat else 0%nat.
Proof.
  induction 1 as [| t' ts Hnotin Hnd IH]; [reflexivity |].
  unfold count in *. simpl.
  destruct (bool_decide (t' = t)) eqn:E.
  - apply bool_decide_eq_true in E. subst t'.
    rewrite bool_decide_eq_true_2 by (apply elem_of_cons; auto).
    simpl. rewrite IH. rewrite bool_decide_eq_false_2 by assumption.
    reflexivity.
  - apply bool_decide_eq_false in E. rewrite IH.
    rewrite (bool_decide_ext (t ∈ t' :: ts) (t ∈ ts)); [reflexivity |].
    rewrite elem_of_cons. intuition congruence.
Qed.

Lemma handle_ng_closed (start : Q) (ng_3 ng_5 : list Z) (st : app) :
  inference_start_time st = Some start ->
  handle_ng ng_3 ng_5 st
  = (set_after_queue
       (after_queue st
        ++ map (fun t => ShowNonModalWarning (range_of start t))
               (elements (list_to_set ng_5 ∖ ng_5_times st : gset Z)))
       (set_ng_log
          (log_after start
             (elements (list_to_set ng_5 ∖ ng_5_times st : gset Z))
             (ng_log st))
          (set_ng_5_times (ng_5_times st ∪ list_to_set ng_5)
             (set_ng_3_times (ng_3_times st ∪ list_to_set ng_3) st))),
     None).
Proof.
  intros Hs. unfold handle_ng.
  rewrite (alert_loop_closed start) by exact Hs. reflexivity.
Qed.

Lemma new_alert_seen (t : Z) (ng_5 : list Z) (st : app) :
  t ∈ ng_5_times st \/ t ∉ ng_5_times st ∪ list_to_set ng_5 ->
  new_alert t ng_5 st = 0%nat.
Proof.
  intros H. unfold new_alert. rewrite bool_decide_eq_false_2; [reflexivity |].
  rewrite elem_of_difference. rewrite elem_of_union in H. tauto.
Qed.

Lemma new_alert_fresh (t : Z) (ng_5 : list Z) (st : app) :
  t ∉ ng_5_times st -> t ∈ ng_5_times st ∪ list_to_set ng_5 ->
  new_alert t ng_5 st = 1%nat.
Proof.
  intros H1 H2. unfold new_alert.
  rewrite bool_decide_eq_true_2; [reflexivity |].
  rewrite elem_of_difference. rewrite elem_of_union in H2. tauto.
Qed.

Lemma handle_ng_effect (start : Q) (t : Z) (ng_3 ng_5 : list Z) (st : app) :
  inference_start_time st = Some start ->
  let st' := fst (handle_ng ng_3 ng_5 st) in
  let rs := range_of start t in
  snd (handle_ng ng_3 ng_5 st) = None
  /\ ng_5_times st' = ng_5_times st ∪ list_to_set ng_5
  /\ rows_for rs st' = (rows_for rs st + new_alert t ng_5 st)%nat
  /\ pending_for rs st' = (pending_for rs st + new_alert t ng_5 st)%nat
  /\ events st' = events st
  /\ inference_start_time st' = Some start
  /\ is_inference st' = is_inference st
  /\ is_monitoring st' = is_monitoring st
  /\ start_monitor_image st' = start_monitor_image st
  /\ current_frame st' = current_frame st.
Proof.
  intros Hs st' rs. subst st' rs.
  rewrite (handle_ng_closed start) by exact Hs. cbn.
  split; [reflexivity |]. split; [reflexivity |].
  assert (E : count (fun t' => bool_decide (t' = t))
                (elements (list_to_set ng_5 ∖ ng_5_times st : gset Z))
              = new_alert t ng_5 st).
  { rewrite count_NoDup by apply NoDup_elements. unfold new_alert.
    rewrite (bool_decide_ext _ _ (elem_of_elements _ t)). reflexivity. }
  unfold rows_for, pending_for. cbn.
  rewrite rows_log_after, count_app, warnings_map, E.
  repeat split; auto.
Qed.

Lemma calculate_untouched group_time conf_thres nan_gap now st st' :
  calculate_average_area_with_sma group_time conf_thres nan_gap now st
  = Ok st' ->
  untouched st st'
  /\ is_inference st' = is_inference st
  /\ is_monitoring st' = is_monitoring st
  /\ start_monitor_image st' = start_monitor_image st
  /\ current_frame st' = current_frame st.
Proof.
  unfold calculate_average_area_with_sma, untouched.
  destruct (fold_left _ _ _) as [total cnt].
  destruct (0 <? cnt)%Z.
  - cbn. rewrite length_app. simpl. rewrite Nat.add_1_r. cbn.
    destruct (is_monitoring st) eqn:Hm; cbn; intros [= <-]; cbn;
      rewrite ?Hm; auto 10.
  - destruct (last_detect_time st);
      [| intros [= <-]; repeat split; auto].
    destruct (inference_start_time st) eqn:Hs; [| discriminate].
    destruct (Qlt_bool _ _); intros [= <-]; cbn; rewrite ?Hs;
      repeat split; auto.
Qed.

Lemma process_video_step_untouched now frame bs conf_thres nan_gap st :
  let st' := process_video_step now frame bs conf_thres nan_gap st in
  untouched st st'
  /\ (is_inference st' = is_inference st
      /\ is_monitoring st' = is_monitoring st
      \/ is_inference st' = false)
  /\ start_monitor_image st' = start_monitor_image st.
Proof.
  unfold process_video_step.
  destruct (is_inference st) eqn:Hinf;
    [| unfold untouched; cbn; rewrite ?Hinf; auto 10].
  destruct (inference_start_time st) as [start |] eqn:Hs;
    [| unfold untouched; cbn; rewrite ?Hs; auto 10].
  set (st1 := (if negb _ then _ else _)).
  assert (H1 : (ng_log st1 = ng_log st /\ events st1 = events st
                /\ ng_5_times st1 = ng_5_times st
                /\ inference_start_time st1 = inference_start_time st
                /\ after_queue st1 = after_queue st)
               /\ is_inference st1 = is_inference st
               /\ is_monitoring st1 = is_monitoring st
               /\ start_monitor_image st1 = start_monitor_image st).
  { subst st1.
    destruct (negb _);
      [| destruct (last_detect_time _); [destruct (Qlt_bool _ _) |]];
      cbn; auto 10. }
  clearbody st1.
  destruct H1 as ((Hl & He & Hn & Hst & Hq) & Hi & Hm & Himg).
  destruct (length (frame_group st1) =? 2)%nat.
  2:{ unfold untouched. rewrite Hl, He, Hn, Hst, Hq, Hi, Hm, Himg, Hinf.
      auto 10. }
  destruct (calculate_average_area_with_sma _ _ _ _ st1) as [st2 | e] eqn:Hc.
  - apply calculate_untouched in Hc
      as ((Hl2 & He2 & Hn2 & Hst2 & Hq2) & Hi2 & Hm2 & Himg2 & _).
    unfold untouched. cbn.
    rewrite Hl2, He2, Hn2, Hst2, Hi2, Hm2, Himg2.
    rewrite Hl, He, Hn, Hst, Hi, Hm, Himg, Hinf.
    rewrite <- Hq. auto 10.
  - unfold untouched. cbn.
    rewrite Hl, He, Hn, Hst, Hq, Himg. auto 10.
Qed.

Lemma untouched_quiet rs st st' : untouched st st' -> quiet rs st st'.
Proof.
  intros (Hl & He & _ & _ & Hq).
  unfold quiet, rows_for, beeps_for, windows_for, pdfs_for, pending_for.
  rewrite Hl, He.
  destruct Hq as [-> | ->]; rewrite ?count_snoc; simpl; lia.
Qed.

Lemma show_non_modal_warning_effect (r rs : time_range) (st : app) :
  let st' := show_non_modal_warning r st in
  let hit := if bool_decide (r = rs) then 1%nat else 0%nat in
  let both :=
    match start_monitor_image st, current_frame st with
    | Some _, Some _ => hit
    | _, _ => 0%nat
    end in
  beeps_for rs st' = (beeps_for rs st + hit)%nat
  /\ windows_for rs st' = (windows_for rs st + hit)%nat
  /\ pdfs_for rs st' = (pdfs_for rs st + both)%nat
  /\ ng_log st' = ng_log st
  /\ after_queue st' = after_queue st
  /\ ng_5_times st' = ng_5_times st
  /\ inference_start_time st' = inference_start_time st
  /\ is_inference st' = is_inference st
  /\ is_monitoring st' = is_monitoring st
  /\ start_monitor_image st' = start_monitor_image st
  /\ current_frame st' = current_frame st.
Proof.
  unfold show_non_modal_warning, beeps_for, windows_for, pdfs_for. cbn.
  destruct (start_monitor_image st) as [img1 |] eqn:H1;
    destruct (current_frame st) as [img2 |] eqn:H2; cbn;
    rewrite !count_snoc; simpl;
    destruct (bool_decide (r = rs)); repeat split;
    try reflexivity; try assumption; lia.
Qed.

Lemma step_effect (a : action) (st : app) (start : Q) (t : Z) :
  resets a = false ->
  inference_start_time st = Some start ->
  let st' := step a st in
  let rs := range_of start t in
  inference_start_time st' = Some start
  /\ ng_5_times st ⊆ ng_5_times st'
  /\ (t ∈ ng_5_times st \/ t ∉ ng_5_times st' -> quiet rs st st')
  /\ (t ∉ ng_5_times st -> t ∈ ng_5_times st' -> fired rs st st').
Proof.
  intros Hr Hs st' rs.
  assert (Hunt : forall st2, untouched st st2 ->
                 inference_start_time st2 = Some start
                 /\ ng_5_times st ⊆ ng_5_times st2
                 /\ (t ∈ ng_5_times st \/ t ∉ ng_5_times st2 -> quiet rs st st2)
                 /\ (t ∉ ng_5_times st -> t ∈ ng_5_times st2 -> fired rs st st2)).
  { intros st2 Hu. pose proof (untouched_quiet rs _ _ Hu) as Hq.
    destruct Hu as (_ & _ & Hn & Hst & _).
    rewrite Hst, Hn. split; [exact Hs |]. split; [reflexivity |].
    split; [intros _; exact Hq | intros H1 H2; contradiction]. }
  destruct a; try discriminate; subst st'; cbn [step].
  - (* StartPreview *)
    apply Hunt. unfold start_preview, untouched.
    destruct (negb source_ok); cbn; auto 10.
  - (* StopInference *)
    apply Hunt. unfold stop_inference, untouched. cbn. auto 10.
  - (* StopProcessing *)
    apply Hunt. unfold stop_processing, untouched. cbn. auto 10.
  - (* AutoResetSystem *)
    apply Hunt. unfold auto_reset_system, untouched. cbn. auto 10.
  - (* ToggleMonitoring *)
    apply Hunt. unfold toggle_monitoring, untouched.
    destruct (negb (is_inference st)); [auto 10 |]. cbn.
    destruct (negb (is_monitoring st)); [destruct (current_frame st) |];
      cbn; auto 10.
  - (* SetSmaWindow *)
    apply Hunt. unfold untouched. cbn. auto 10.
  - (* ProcessFrame *)
    apply Hunt. apply process_video_step_untouched.
  - (* RunCallback *)
    unfold run_callback.
    destruct (after_queue st) as [| cb rest] eqn:Hqueue.
    { apply Hunt. unfold untouched. rewrite Hqueue. auto 10. }
    set (st1 := set_after_queue rest st).
    assert (Hs1 : inference_start_time st1 = Some start) by exact Hs.
    assert (Hrows : rows_for rs st1 = rows_for rs st) by reflexivity.
    assert (Hbeeps : beeps_for rs st1 = beeps_for rs st) by reflexivity.
    assert (Hwin : windows_for rs st1 = windows_for rs st) by reflexivity.
    assert (Hpdf : pdfs_for rs st1 = pdfs_for rs st) by reflexivity.
    assert (Hseen : ng_5_times st1 = ng_5_times st) by reflexivity.
    assert (Hpend : pending_for rs st
                    = ((if is_warning_for rs cb then 1 else 0)
                       + pending_for rs st1)%nat).
    { unfold pending_for. rewrite Hqueue. unfold count. cbn.
      destruct (is_warning_for rs cb); reflexivity. }
    destruct cb as [| r].
    + (* CheckAndHandleNg *)
      simpl in Hpend.
      assert (Hq1 : quiet rs st st1).
      { unfold quiet. rewrite Hrows, Hbeeps, Hwin, Hpdf, Hpend. lia. }
      assert (Hsame : inference_start_time st1 = Some start
                      /\ ng_5_times st ⊆ ng_5_times st1
                      /\ (t ∈ ng_5_times st \/ t ∉ ng_5_times st1 ->
                          quiet rs st st1)
                      /\ (t ∉ ng_5_times st -> t ∈ ng_5_times st1 ->
                          fired rs st st1)).
      { rewrite Hseen. split; [exact Hs1 |]. split; [reflexivity |].
        split; [intros _; exact Hq1 | intros H1 H2; contradiction]. }
      unfold check_and_handle_ng, detect_and_handle.
      destruct (check_area_trend_timebased _ _ 3 _ _ _) as [results_3 | e];
        [| exact Hsame].
      destruct (check_area_trend_timebased _ _ 4 _ _ _) as [results_5 | e];
        [| exact Hsame].
      clear Hsame.
      destruct (handle_ng_effect start t (extract_ng_markers results_3)
                  (extract_ng_markers results_5) st1 Hs1)
        as (_ & Hn & Hr' & Hp' & He' & Hst' & _).
      fold rs in Hr', Hp'.
      set (st2 := fst (handle_ng _ _ st1)) in *.
      assert (Hb2 : beeps_for rs st2 = beeps_for rs st1)
        by (unfold beeps_for; rewrite He'; reflexivity).
      assert (Hw2 : windows_for rs st2 = windows_for rs st1)
        by (unfold windows_for; rewrite He'; reflexivity).
      assert (Hd2 : pdfs_for rs st2 = pdfs_for rs st1)
        by (unfold pdfs_for; rewrite He'; reflexivity).
      split; [exact Hst' |]. rewrite Hn, Hseen.
      split; [apply union_subseteq_l |].
      unfold quiet, fired.
      split.
      * intros Hcase. rewrite <- Hseen in Hcase.
        rewrite (new_alert_seen _ _ _ Hcase) in Hr', Hp'. lia.
      * intros Hnot Hin. rewrite <- Hseen in Hnot, Hin.
        rewrite (new_alert_fresh _ _ _ Hnot Hin) in Hr', Hp'. lia.
    + (* ShowNonModalWarning *)
      destruct (show_non_modal_warning_effect r rs st1)
        as (Hb & Hw & Hd & Hl & Hq & Hn & Hst & _).
      cbv zeta in Hb, Hw, Hd.
      rewrite Hst, Hn, Hseen. split; [exact Hs1 |].
      split; [reflexivity |]. split; [| intros; contradiction].
      intros _. unfold quiet.
      assert (Hrows2 : rows_for rs (show_non_modal_warning r st1)
                       = rows_for rs st1)
        by (unfold rows_for; rewrite Hl; reflexivity).
      assert (Hpend2 : pending_for rs (show_non_modal_warning r st1)
                       = pending_for rs st1)
        by (unfold pending_for; rewrite Hq; reflexivity).
      rewrite Hrows2, Hpend2, Hb, Hw, Hd, Hrows, Hbeeps, Hwin, Hpdf, Hpend.
      simpl is_warning_for.
      destruct (bool_decide (r = rs));
        destruct (start_monitor_image st1); destruct (current_frame st1);
        lia.
Qed.

Lemma quiet_trans rs st1 st2 st3 :
  quiet rs st1 st2 -> quiet rs st2 st3 -> quiet rs st1 st3.
Proof. unfold quiet. lia. Qed.

Lemma fired_quiet rs st1 st2 st3 :
  fired rs st1 st2 -> quiet rs st2 st3 -> fired rs st1 st3.
Proof. unfold quiet, fired. lia. Qed.

Lemma quiet_fired rs st1 st2 st3 :
  quiet rs st1 st2 -> fired rs st2 st3 -> fired rs st1 st3.
Proof. unfold quiet, fired. lia. Qed.

Lemma quiet_refl rs st : quiet rs st st.
Proof. unfold quiet. lia. Qed.

Lemma run_effect (acts : list action) (st : app) (start : Q) (t : Z) :
  Forall (fun a => resets a = false) acts ->
  inference_start_time st = Some start ->
  let st' := run acts st in
  let rs := range_of start t in
  inference_start_time st' = Some start
  /\ ng_5_times st ⊆ ng_5_times st'
  /\ (t ∈ ng_5_times st -> quiet rs st st')
  /\ (quiet rs st st' \/ fired rs st st').
Proof.
  intros Hacts. revert st.
  induction Hacts as [| a acts Ha _ IH]; intros st Hs; cbn zeta.
  - simpl. split; [exact Hs |]. split; [reflexivity |].
    split; [intros _ |]; auto using quiet_refl.
  - change (run (a :: acts) st) with (run acts (step a st)).
    destruct (step_effect a st start t Ha Hs) as (Hs1 & Hsub1 & Hq1 & Hf1).
    destruct (IH (step a st) Hs1) as (Hs2 & Hsub2 & Hq2 & Hqf2).
    split; [exact Hs2 |]. split; [etrans; eassumption |].
    split.
    + intros Hin. eapply quiet_trans; [apply Hq1; auto |].
      apply Hq2. apply Hsub1. exact Hin.
    + destruct (decide (t ∈ ng_5_times st)) as [Hin | Hnot].
      { left. eapply quiet_trans; [apply Hq1; auto |].
        apply Hq2. apply Hsub1. exact Hin. }
      destruct (decide (t ∈ ng_5_times (step a st))) as [Hin1 | Hnot1].
      * right. eapply fired_quiet; [apply Hf1; assumption |].
        apply Hq2. exact Hin1.
      * destruct Hqf2 as [Hq | Hf].
        -- left. eapply quiet_trans; [apply Hq1; auto | exact Hq].
        -- right. eapply quiet_fired; [apply Hq1; auto | exact Hf].
Qed.

Lemma alert_loop_flags (ts : list Z) (st : app) :
  let st' := fst (alert_loop ts st) in
  is_inference st' = is_inference st
  /\ is_monitoring st' = is_monitoring st
  /\ start_monitor_image st' = start_monitor_image st.
Proof.
  revert st. induction ts as [| t ts IH]; intros st; simpl; [auto |].
  destruct (inference_start_time st); [| simpl; auto].
  match goal with |- context [alert_loop ts ?s] =>
    destruct (IH s) as (H1 & H2 & H3) end.
  cbv zeta in H1, H2, H3. rewrite H1, H2, H3.
  destruct (negb _); cbn; auto.
Qed.

Lemma check_and_handle_ng_flags (st : app) :
  let st' := fst (check_and_handle_ng st) in
  is_inference st' = is_inference st
  /\ is_monitoring st' = is_monitoring st
  /\ start_monitor_image st' = start_monitor_image st.
Proof.
  unfold check_and_handle_ng, detect_and_handle.
  destruct (check_area_trend_timebased _ _ 3 _ _ _); [| simpl; auto].
  destruct (check_area_trend_timebased _ _ 4 _ _ _); [| simpl; auto].
  unfold handle_ng.
  match goal with |- context [alert_loop ?ts ?s] =>
    destruct (alert_loop_flags ts s) as (H1 & H2 & H3) end.
  cbv zeta in H1, H2, H3. rewrite H1, H2, H3. cbn. auto.
Qed.

Lemma reachable_snapshot_inv (st : app) : reachable st -> snapshot_inv st.
Proof.
  induction 1 as [log | a st _ IH]; unfold snapshot_inv in *.
  - discriminate.
  - destruct a; cbn [step].
    + unfold start_preview. destruct (negb source_ok); cbn; exact IH.
    + unfold start_inference. destruct (negb ready); [exact IH |].
      cbn. reflexivity.
    + unfold stop_inference. cbn. discriminate.
    + unfold stop_processing. cbn. discriminate.
    + unfold clear_all_data.
      destruct (is_inference st || is_preview st);
        [destruct (negb confirmed); [exact IH |] |]; cbn; reflexivity.
    + unfold auto_reset_system. cbn. discriminate.
    + unfold toggle_monitoring.
      destruct (negb (is_inference st)); [exact IH |]. cbn.
      destruct (is_monitoring st) eqn:Hm; cbn.
      * reflexivity.
      * destruct (current_frame st); cbn; intros _ H2; discriminate.
    + cbn. exact IH.
    + destruct (process_video_step_untouched now frame bs conf_thres
                  nan_gap st) as (_ & [[Hi Hm] | Hi] & Himg).
      * rewrite Hi, Hm, Himg. exact IH.
      * rewrite Hi. discriminate.
    + unfold run_callback. destruct (after_queue st) as [| cb rest];
        [exact IH |].
      destruct cb as [| r].
      * destruct (check_and_handle_ng_flags (set_after_queue rest st))
          as (Hi & Hm & Himg).
        cbv zeta in Hi, Hm, Himg. rewrite Hi, Hm, Himg. exact IH.
      * destruct (show_non_modal_warning_effect r r
                    (set_after_queue rest st))
          as (_ & _ & _ & _ & _ & _ & _ & Hi & Hm & Himg & _).
        rewrite Hi, Hm, Himg. exact IH.
Qed.


Lemma handle_ng_series (start : Q) (ng_3 ng_5 : list Z) (st : app) :
  inference_start_time st = Some start ->
  sma_areas (fst (handle_ng ng_3 ng_5 st)) = sma_areas st
  /\ sma_time_stamps (fst (handle_ng ng_3 ng_5 st)) = sma_time_stamps st.
Proof.
  intros Hs. rewrite (handle_ng_closed start) by exact Hs.
  cbn. auto.
Qed.

(** C2, as the code has it.  Within a session (no [reset_area_data]),
    whatever happens, an alert time adds at most one log row, one beep,
    one warning window and one report request, and none once it is in
    [ng_5_times].  Two successive calls of [check_and_handle_ng] whose
    alert detector marks [t], with [t] not seen before, add exactly one
    log row and one deferred warning; the warning gives exactly one beep
    and one warning window, and one report request when the start
    snapshot and the current frame are both there, none otherwise. *)
Theorem alert_escalation_once (st0 : app) (start : Q) (t : Z) :
  inference_start_time st0 = Some start ->
  let rs := range_of start t in
  (forall acts,
      Forall (fun a => resets a = false) acts ->
      let st := run acts st0 in
      (rows_for rs st <= rows_for rs st0 + 1)%nat
      /\ (beeps_for rs st + pending_for rs st
          <= beeps_for rs st0 + pending_for rs st0 + 1)%nat
      /\ (windows_for rs st + pending_for rs st
          <= windows_for rs st0 + pending_for rs st0 + 1)%nat
      /\ (pdfs_for rs st + pending_for rs st
          <= pdfs_for rs st0 + pending_for rs st0 + 1)%nat
      /\ (t ∈ ng_5_times st0 -> quiet rs st0 st))
  /\ (forall results_3 results_5,
        let cleaned_areas :=
          clean_data (sma_areas st0) (sma_time_stamps st0) 3 in
        check_area_trend_timebased cleaned_areas (sma_time_stamps st0)
          3 (15 # 100) (7 # 10) 180 = Ok results_3 ->
        check_area_trend_timebased cleaned_areas (sma_time_stamps st0)
          4 (5 # 100) (7 # 10) 210 = Ok results_5 ->
        t ∈ extract_ng_markers results_5 ->
        t ∉ ng_5_times st0 ->
        let st1 := fst (check_and_handle_ng st0) in
        let st2 := fst (check_and_handle_ng st1) in
        rows_for rs st1 = S (rows_for rs st0)
        /\ pending_for rs st1 = S (pending_for rs st0)
        /\ t ∈ ng_5_times st1
        /\ rows_for rs st2 = rows_for rs st1
        /\ pending_for rs st2 = pending_for rs st1
        /\ events st2 = events st0)
  /\ (forall st,
        let st' := show_non_modal_warning rs st in
        beeps_for rs st' = S (beeps_for rs st)
        /\ windows_for rs st' = S (windows_for rs st)
        /\ pdfs_for rs st'
           = (pdfs_for rs st
              + match start_monitor_image st, current_frame st with
                | Some _, Some _ => 1
                | _, _ => 0
                end)%nat).
Proof.
  intros Hs rs. split; [| split].
  - intros acts Hacts st.
    destruct (run_effect acts st0 start t Hacts Hs) as (_ & _ & Hq & Hqf).
    fold rs in Hq, Hqf. fold st in Hq, Hqf.
    split; [| split; [| split; [| split]]]; try exact Hq;
      destruct Hqf as [H | H]; unfold quiet, fired in H; lia.
  - intros results_3 results_5 cleaned_areas H3 H5 Hin Hnot st1 st2.
    assert (E1 : check_and_handle_ng st0
                 = handle_ng (extract_ng_markers results_3)
                     (extract_ng_markers results_5) st0).
    { unfold check_and_handle_ng, detect_and_handle.
      fold cleaned_areas. rewrite H3, H5. reflexivity. }
    destruct (handle_ng_effect start t (extract_ng_markers results_3)
                (extract_ng_markers results_5) st0 Hs)
      as (_ & Hn1 & Hr1 & Hp1 & He1 & Hs1 & _).
    destruct (handle_ng_series start (extract_ng_markers results_3)
                (extract_ng_markers results_5) st0 Hs) as [Ha1 Ht1].
    rewrite <- E1 in Hn1, Hr1, Hp1, He1, Hs1, Ha1, Ht1.
    fold st1 in Hn1, Hr1, Hp1, He1, Hs1, Ha1, Ht1. fold rs in Hr1, Hp1.
    assert (Hin1 : t ∈ ng_5_times st1).
    { rewrite Hn1. apply elem_of_union_r. apply elem_of_list_to_set.
      exact Hin. }
    rewrite new_alert_fresh in Hr1, Hp1
      by (assumption || (rewrite <- Hn1; exact Hin1)).
    assert (E2 : check_and_handle_ng st1
                 = handle_ng (extract_ng_markers results_3)
                     (extract_ng_markers results_5) st1).
    { unfold check_and_handle_ng, detect_and_handle.
      rewrite Ha1, Ht1. fold cleaned_areas. rewrite H3, H5. reflexivity. }
    destruct (handle_ng_effect start t (extract_ng_markers results_3)
                (extract_ng_markers results_5) st1 Hs1)
      as (_ & _ & Hr2 & Hp2 & He2 & _).
    rewrite <- E2 in Hr2, Hp2, He2. fold st2 in Hr2, Hp2, He2.
    fold rs in Hr2, Hp2.
    rewrite new_alert_seen in Hr2, Hp2 by (left; exact Hin1).
    repeat split; try lia; try assumption. congruence.
  - intros st st'.
    destruct (show_non_modal_warning_effect rs rs st) as (Hb & Hw & Hd & _).
    cbv zeta in Hb, Hw, Hd. fold st' in Hb, Hw, Hd.
    rewrite bool_decide_eq_true_2 in Hb, Hw, Hd by reflexivity.
    rewrite Hb, Hw, Hd. repeat split; lia.
Qed.

Lemma alert_escalation_once_witness :
  let st0 := alert_pending_state in
  let rs := range_of 0 312 in
  let st1 := fst (check_and_handle_ng st0) in
  let st2 := fst (check_and_handle_ng st1) in
  (rows_for rs (run (repeat RunCallback 13) st0) <= rows_for rs st0 + 1)%nat
  /\ rows_for rs st1 = S (rows_for rs st0)
  /\ rows_for rs st2 = rows_for rs st1
  /\ pending_for rs st2 = pending_for rs st1.
Proof.
  intros st0 rs st1 st2.
  assert (Hs : inference_start_time st0 = Some 0%Q) by reflexivity.
  destruct (alert_escalation_once st0 0 312 Hs) as (Ha & Hb & _).
  split.
  - apply (Ha (repeat RunCallback 13)). repeat constructor.
  - pose (cleaned := clean_data (sma_areas st0) (sma_time_stamps st0) 3).
    pose (r3 := match check_area_trend_timebased cleaned
                        (sma_time_stamps st0) 3 (15 # 100) (7 # 10) 180
                with Ok r => r | Raise _ => [] end).
    pose (r5 := match check_area_trend_timebased cleaned
                        (sma_time_stamps st0) 4 (5 # 100) (7 # 10) 210
                with Ok r => r | Raise _ => [] end).
    assert (H3 : check_area_trend_timebased cleaned (sma_time_stamps st0)
                   3 (15 # 100) (7 # 10) 180 = Ok r3)
      by (vm_compute; reflexivity).
    assert (H5 : check_area_trend_timebased cleaned (sma_time_stamps st0)
                   4 (5 # 100) (7 # 10) 210 = Ok r5)
      by (vm_compute; reflexivity).
    assert (Hin : (312%Z : Z) ∈ extract_ng_markers r5)
      by (vm_compute; apply list_elem_of_here).
    assert (Hseen : ng_5_times st0 = ∅) by (vm_compute; reflexivity).
    assert (Hnot : (312%Z : Z) ∉ ng_5_times st0)
      by (rewrite Hseen; apply not_elem_of_empty).
    destruct (Hb r3 r5 H3 H5 Hin Hnot) as (H1 & _ & _ & H2 & H4 & _).
    auto.
Defined.

(** C2 as stated fails when the start snapshot is missing: monitoring is
    enabled before the first frame, the alert time 312 comes out of
    twelve successive checks, and the session ends with one log row, one
    beep, one warning window and no report request. *)
Lemma alert_without_report_request :
  let st := run run_alert_no_snapshot (init []) in
  let rs := range_of 0 312 in
  elements (ng_5_times st) = [312%Z]
  /\ ng_log st = [Header; Row rs 300]
  /\ events st = [Beep rs; MissingImages rs; WarningWindow rs]
  /\ after_queue st = []
  /\ rows_for rs st = 1%nat
  /\ beeps_for rs st = 1%nat
  /\ pdfs_for rs st = 0%nat.
Proof. repeat split; vm_compute; reflexivity. Qed.

(** C8. In a reachable state where inference runs, monitoring is off and
    no frame was received, enabling monitoring leaves the start snapshot
    absent.  With the start snapshot absent, a new alert time is added to
    [ng_5_times], gets its log row and its deferred warning, and is not
    handled again by later calls; the warning beeps, reports the missing
    images instead of requesting a report, and opens the window. *)
Theorem alert_without_start_snapshot :
  (forall st,
      reachable st ->
      is_inference st = true -> is_monitoring st = false ->
      current_frame st = None ->
      is_monitoring (toggle_monitoring st) = true
      /\ start_monitor_image (toggle_monitoring st) = None)
  /\ (forall st start t ng_3 ng_5,
        inference_start_time st = Some start ->
        start_monitor_image st = None ->
        t ∈ ng_5 -> t ∉ ng_5_times st ->
        let st1 := fst (handle_ng ng_3 ng_5 st) in
        let rs := range_of start t in
        snd (handle_ng ng_3 ng_5 st) = None
        /\ t ∈ ng_5_times st1
        /\ rows_for rs st1 = S (rows_for rs st)
        /\ pending_for rs st1 = S (pending_for rs st)
        /\ start_monitor_image st1 = None
        /\ forall ng_3' ng_5',
             let st2 := fst (handle_ng ng_3' ng_5' st1) in
             rows_for rs st2 = rows_for rs st1
             /\ pending_for rs st2 = pending_for rs st1)
  /\ (forall st rs,
        start_monitor_image st = None ->
        events (show_non_modal_warning rs st)
        = events st ++ [Beep rs; MissingImages rs; WarningWindow rs]).
Proof.
  split; [| split].
  - intros st Hreach Hinf Hmon Hframe.
    pose proof (reachable_snapshot_inv st Hreach Hinf Hmon) as Himg.
    unfold toggle_monitoring. rewrite Hinf, Hmon. cbn.
    rewrite Hframe. cbn. auto.
  - intros st start t ng_3 ng_5 Hs Himg Hin Hnot st1 rs.
    destruct (handle_ng_effect start t ng_3 ng_5 st Hs)
      as (Hexc & Hn & Hr & Hp & _ & Hs1 & _ & _ & Himg1 & _).
    fold st1 in Hn, Hr, Hp, Hs1, Himg1. fold rs in Hr, Hp.
    assert (Hin1 : t ∈ ng_5_times st1).
    { rewrite Hn. apply elem_of_union_r. apply elem_of_list_to_set.
      exact Hin. }
    rewrite new_alert_fresh in Hr, Hp
      by (assumption || (rewrite <- Hn; exact Hin1)).
    split; [exact Hexc |]. split; [exact Hin1 |].
    split; [lia |]. split; [lia |]. split; [congruence |].
    intros ng_3' ng_5' st2.
    destruct (handle_ng_effect start t ng_3' ng_5' st1 Hs1)
      as (_ & _ & Hr2 & Hp2 & _).
    fold st2 in Hr2, Hp2. fold rs in Hr2, Hp2.
    rewrite new_alert_seen in Hr2, Hp2 by (left; exact Hin1).
    lia.
  - intros st rs Himg. unfold show_non_modal_warning. cbn.
    rewrite Himg. cbn. rewrite <- !app_assoc. reflexivity.
Qed.

Lemma alert_without_start_snapshot_witness :
  let st := step (StartInference true 0) (init []) in
  let st' := toggle_monitoring st in
  (is_monitoring st' = true /\ start_monitor_image st' = None)
  /\ 312%Z ∈ ng_5_times (fst (handle_ng [] [312%Z] st'))
  /\ events (show_non_modal_warning (range_of 0 312) st')
     = events st'
       ++ [Beep (range_of 0 312); MissingImages (range_of 0 312);
           WarningWindow (range_of 0 312)].
Proof.
  intros st st'.
  destruct alert_without_start_snapshot as (H1 & H2 & H3).
  split; [| split].
  - apply (H1 st).
    + apply reachable_step. apply reachable_init.
    + reflexivity.
    + reflexivity.
    + reflexivity.
  - refine (proj1 (proj2 (H2 st' 0%Q 312%Z [] [312%Z] _ _ _ _))).
    + reflexivity.
    + reflexivity.
    + apply list_elem_of_here.
    + apply not_elem_of_empty.
  - apply (H3 st'). reflexivity.
Defined.

(* ===================================================================== *)
(** * Further properties of the gap cleaner *)
(* ===================================================================== *)

Lemma fill_from_lookup pts preserve (k : nat) (xs : list Q) (ys : list float)
    (i : nat) (x : Q) (y : float) :
  xs !! i = Some x -> ys !! i = Some y ->
  fill_from pts preserve k xs ys !! i
  = Some (fill_entry pts preserve (k + i) x y).
Proof.
  revert k ys i. induction xs as [| x0 xs IH]; intros k ys i Hx Hy.
  - discriminate.
  - destruct ys as [| y0 ys]; [discriminate |].
    destruct i as [| i]; simpl in *.
    + injection Hx as ->. injection Hy as ->. rewrite Nat.add_0_r.
      reflexivity.
    + rewrite (IH (S k) ys i Hx Hy). f_equal. f_equal. lia.
Qed.

Lemma fill_from_length pts preserve (k : nat) (xs : list Q)
    (ys : list float) :
  length xs = length ys ->
  length (fill_from pts preserve k xs ys) = length ys.
Proof.
  revert k ys. induction xs as [| x0 xs IH]; intros k [| y0 ys] H;
    simpl in *; try discriminate; try reflexivity.
  rewrite IH by lia. reflexivity.
Qed.

Lemma interpolate_length (indices : list Q) (s : list float) limit :
  length indices = length s ->
  length (_interpolate_1d indices s limit) = length s.
Proof.
  intros H. unfold _interpolate_1d.
  destruct (forallb id _); [reflexivity |].
  destruct (forallb negb _); [reflexivity |].
  apply fill_from_length. exact H.
Qed.

Lemma fillna_length value s : length (fillna value s) = length s.
Proof. unfold fillna. apply length_map. Qed.

Lemma guard_cases (areas : list float) (timestamps : list Q) :
  ((length areas =? 0)%nat || (length timestamps =? 0)%nat
   || negb (length areas =? length timestamps)%nat = true)
  \/ ((length areas =? 0)%nat || (length timestamps =? 0)%nat
      || negb (length areas =? length timestamps)%nat = false
      /\ length timestamps = length areas /\ areas <> []).
Proof.
  destruct (_ || _ || _) eqn:E; [left; reflexivity | right].
  split; [reflexivity |].
  apply orb_false_iff in E as [E1 E2]. apply orb_false_iff in E1 as [E1 _].
  apply negb_false_iff in E2. apply Nat.eqb_eq in E2.
  apply Nat.eqb_neq in E1. split; [lia |].
  intros ->. simpl in E1. lia.
Qed.

Lemma clean_data_same_length (areas : list float) (timestamps : list Q)
    (gap_limit : positive) :
  length (clean_data areas timestamps gap_limit) = length areas.
Proof.
  unfold clean_data.
  destruct (guard_cases areas timestamps) as [-> | (-> & Hlen & _)];
    [reflexivity |].
  rewrite fillna_length. apply interpolate_length. exact Hlen.
Qed.

(** X1. [clean_data] returns as many entries as [areas] has, whatever
    the timestamps and the gap limit. *)
Theorem clean_data_length (areas : list float) (timestamps : list Q)
    (gap_limit : positive) :
  length (clean_data areas timestamps gap_limit) = length areas.
Proof. apply clean_data_same_length. Qed.

Lemma fillna_lookup_valid value (s : list float) i v :
  s !! i = Some (Some v) -> fillna value s !! i = Some (Some v).
Proof.
  intros H. unfold fillna. rewrite list_lookup_fmap, H. reflexivity.
Qed.

Lemma interpolate_lookup_valid (indices : list Q) (s : list float) limit i v :
  length indices = length s ->
  s !! i = Some (Some v) ->
  _interpolate_1d indices s limit !! i = Some (Some v).
Proof.
  intros Hlen H. unfold _interpolate_1d.
  destruct (forallb id _); [exact H |].
  destruct (forallb negb _); [exact H |].
  assert (Hi : (i < length indices)%nat)
    by (rewrite Hlen; eapply lookup_lt_Some; eauto).
  destruct (lookup_lt_is_Some_2 indices i Hi) as [x Hx].
  rewrite (fill_from_lookup _ _ 0 indices s i x (Some v) Hx H).
  reflexivity.
Qed.

(** X2. [clean_data] leaves every entry that is not missing as it is:
    only missing entries are rewritten. *)
Theorem clean_data_keeps_valid (areas : list float) (timestamps : list Q)
    (gap_limit : positive) (i : nat) (v : Q) :
  areas !! i = Some (Some v) ->
  clean_data areas timestamps gap_limit !! i = Some (Some v).
Proof.
  intros H. unfold clean_data.
  destruct (guard_cases areas timestamps) as [-> | (-> & Hlen & _)];
    [exact H |].
  apply fillna_lookup_valid. apply interpolate_lookup_valid; assumption.
Qed.

Lemma clean_data_keeps_valid_witness :
  clean_data [Some 10%Q; None; Some 20%Q] [0%Q; 1%Q; 2%Q] 3 !! 2%nat
  = Some (Some 20%Q).
Proof. apply clean_data_keeps_valid. reflexivity. Defined.

Lemma existsb_filter_seq (f : nat -> bool) (n i : nat) :
  existsb (Nat.eqb i) (List.filter f (seq 0 n)) = f i && (i <? n)%nat.
Proof.
  destruct (existsb _ _) eqn:E.
  - apply existsb_exists in E as (j & Hj & Hij).
    apply Nat.eqb_eq in Hij. subst j.
    apply List.filter_In in Hj as [Hin Hf]. apply List.in_seq in Hin.
    rewrite Hf. symmetry. apply Nat.ltb_lt. lia.
  - destruct (f i) eqn:Hf; [| reflexivity].
    destruct (i <? n)%nat eqn:Hn; [| reflexivity].
    apply Nat.ltb_lt in Hn. exfalso.
    assert (H : existsb (Nat.eqb i) (List.filter f (seq 0 n)) = true).
    { apply existsb_exists. exists i. split; [| apply Nat.eqb_refl].
      apply List.filter_In. split; [apply List.in_seq; lia | exact Hf]. }
    congruence.
Qed.

Lemma In_slice {A} (l : list A) lo hi (x : A) :
  In x (slice l lo hi) -> In x l.
Proof.
  unfold slice. intros H. apply list_elem_of_In in H.
  apply list_elem_of_In.
  apply (subseteq_drop lo l). apply (subseteq_take (hi - lo) _). exact H.
Qed.

Lemma forallb_slice (l : list bool) lo hi :
  forallb id l = true -> forallb id (slice l lo hi) = true.
Proof.
  intros H. apply forallb_forall. intros b Hb.
  rewrite forallb_forall in H. apply H.
  eapply In_slice. exact Hb.
Qed.

Lemma slice_map {A B} (f : A -> B) (l : list A) lo hi :
  slice (map f l) lo hi = map f (slice l lo hi).
Proof. unfold slice. rewrite List.skipn_map, List.firstn_map. reflexivity. Qed.

Lemma fillna_lookup_missing value (s : list float) i :
  s !! i = Some None -> fillna value s !! i = Some (Some value).
Proof.
  intros H. unfold fillna. rewrite list_lookup_fmap, H. reflexivity.
Qed.

Lemma forallb_isna_missing (s : list float) :
  forallb id (map isna s) = true <-> Forall (fun v => v = None) s.
Proof.
  induction s as [| [q |] s IH]; simpl.
  - split; [constructor | reflexivity].
  - split; [discriminate | intros H; inversion H; discriminate].
  - rewrite IH. split; [intros H; constructor; auto |].
    intros H. inversion H. assumption.
Qed.

Lemma nth_isna (s : list float) i :
  s !! i = Some None -> nth i (map isna s) false = true.
Proof.
  revert i. induction s as [| y s IH]; intros [| i] H; simpl in *;
    try discriminate.
  - injection H as ->. reflexivity.
  - apply IH. exact H.
Qed.

Lemma clean_data_missing_lookup (areas : list float) (timestamps : list Q)
    (gap_limit : positive) (i : nat) (x : Q) :
  length areas = length timestamps ->
  areas !! i = Some None ->
  timestamps !! i = Some x ->
  (Forall (fun v => v = None) (neighbourhood areas gap_limit i) ->
   clean_data areas timestamps gap_limit !! i = Some (Some 0%Q))
  /\ (~ Forall (fun v => v = None) (neighbourhood areas gap_limit i) ->
      clean_data areas timestamps gap_limit !! i
      = Some (Some (np_interp x
                      (sort_pts (valid_points timestamps areas))))).
Proof.
  intros Hlen Hi Hx. unfold clean_data.
  destruct (guard_cases areas timestamps) as [Hg | (-> & Hlen' & Hne)].
  { exfalso. apply lookup_lt_Some in Hi.
    apply orb_true_iff in Hg as [Hg | Hg].
    - apply orb_true_iff in Hg as [Hg | Hg]; apply Nat.eqb_eq in Hg; lia.
    - apply negb_true_iff, Nat.eqb_neq in Hg. lia. }
  unfold _interpolate_1d.
  destruct (forallb id (map isna areas)) eqn:Hall.
  { split.
    - intros _. apply fillna_lookup_missing. exact Hi.
    - intros Hnot. exfalso. apply Hnot. unfold neighbourhood.
      apply forallb_isna_missing. rewrite <- slice_map.
      apply forallb_slice. exact Hall. }
  destruct (forallb negb (map isna areas)) eqn:Hnone.
  { exfalso. rewrite forallb_forall in Hnone.
    specialize (Hnone true). simpl in Hnone.
    assert (Hin : In true (map isna areas)).
    { apply List.in_map_iff. exists None. split; [reflexivity |].
      apply list_elem_of_In. eapply list_elem_of_lookup_2. exact Hi. }
    specialize (Hnone Hin). discriminate. }
  assert (E : fill_from (sort_pts (valid_points timestamps areas))
                (_interp_limit (map isna areas) (Pos.to_nat gap_limit)
                   (Pos.to_nat gap_limit)) 0 timestamps areas !! i
              = Some (if forallb id
                           (map isna (neighbourhood areas gap_limit i))
                      then None
                      else Some (np_interp x
                                   (sort_pts
                                      (valid_points timestamps areas))))).
  { rewrite (fill_from_lookup _ _ 0 timestamps areas i x None Hx Hi).
    change (0 + i)%nat with i.
    unfold fill_entry, _interp_limit. rewrite existsb_filter_seq.
    rewrite (nth_isna areas i Hi). rewrite length_map.
    assert (Hlt : (i <? length areas)%nat = true)
      by (apply Nat.ltb_lt; apply lookup_lt_Some in Hi; lia).
    rewrite Hlt. rewrite andb_true_r. cbn [andb].
    unfold neighbourhood. rewrite <- slice_map. reflexivity. }
  split.
  - intros Hforall. apply forallb_isna_missing in Hforall.
    rewrite Hforall in E.
    unfold fillna. rewrite list_lookup_fmap, E. reflexivity.
  - intros Hnot.
    destruct (forallb id (map isna (neighbourhood areas gap_limit i)))
      eqn:Hw.
    { exfalso. apply Hnot. apply forallb_isna_missing. exact Hw. }
    unfold fillna. rewrite list_lookup_fmap, E. reflexivity.
Qed.

Lemma Qle_bool_lt (a b : Q) : (a < b)%Q -> Qle_bool b a = false.
Proof.
  intros H. destruct (Qle_bool b a) eqn:E; [| reflexivity].
  apply Qle_bool_iff in E. exfalso. eapply Qlt_not_le; eauto.
Qed.

Lemma Qle_bool_le (a b : Q) : (a <= b)%Q -> Qle_bool a b = true.
Proof. apply Qle_bool_iff. Qed.

Lemma Qeq_bool_lt (a b : Q) : (a < b)%Q -> Qeq_bool a b = false.
Proof.
  intros H. destruct (Qeq_bool a b) eqn:E; [| reflexivity].
  apply Qeq_bool_iff in E. rewrite E in H. exfalso.
  eapply Qlt_irrefl. exact H.
Qed.

Lemma valid_points_app (xs1 xs2 : list Q) (ys1 ys2 : list float) :
  length xs1 = length ys1 ->
  valid_points (xs1 ++ xs2) (ys1 ++ ys2)
  = valid_points xs1 ys1 ++ valid_points xs2 ys2.
Proof.
  revert ys1. induction xs1 as [| x xs1 IH]; intros [| y ys1] H;
    simpl in *; try discriminate; [reflexivity |].
  destruct y; simpl; rewrite IH by lia; reflexivity.
Qed.

Lemma valid_points_missing (xs : list Q) (ys : list float) :
  Forall (fun v => v = None) ys -> valid_points xs ys = [].
Proof.
  intros H. revert xs. induction H as [| y ys -> _ IH]; intros [| x xs];
    simpl; auto.
Qed.

Lemma valid_points_fst (xs : list Q) (ys : list float) (p : Q * Q) :
  In p (valid_points xs ys) -> In (fst p) xs.
Proof.
  revert ys. induction xs as [| x xs IH]; intros [| y ys] H; simpl in *;
    try contradiction.
  destruct y; simpl in H.
  - destruct H as [<- | H]; [left; reflexivity | right; eauto].
  - right. eauto.
Qed.

Lemma insert_pt_last (p : Q * Q) (l : list (Q * Q)) :
  Forall (fun q => (fst q <= fst p)%Q) l -> insert_pt p l = l ++ [p].
Proof.
  induction 1 as [| q l Hq _ IH]; simpl; [reflexivity |].
  rewrite (Qle_bool_le _ _ Hq), IH. reflexivity.
Qed.

Lemma sort_pts_sorted (l : list (Q * Q)) :
  StronglySorted (fun p q => (fst p < fst q)%Q) l -> sort_pts l = l.
Proof.
  unfold sort_pts. intros H.
  assert (G : forall acc,
             StronglySorted (fun p q => (fst p < fst q)%Q) (acc ++ l) ->
             fold_left (fun acc p => insert_pt p acc) l acc = acc ++ l).
  { clear H. induction l as [| p l IH]; intros acc Hs; simpl.
    - rewrite app_nil_r. reflexivity.
    - rewrite insert_pt_last.
      + rewrite IH; rewrite <- app_assoc; [reflexivity | exact Hs].
      + apply List.Forall_forall. intros q Hq. apply Qlt_le_weak.
        apply (StronglySorted_app_1_elem_of _ _ _ q p Hs);
          [apply list_elem_of_In; exact Hq | apply list_elem_of_here]. }
  apply (G []). exact H.
Qed.

Lemma valid_points_sorted (xs : list Q) (ys : list float) :
  StronglySorted Qlt xs ->
  StronglySorted (fun p q => (fst p < fst q)%Q) (valid_points xs ys).
Proof.
  intros H. revert ys. induction H as [| x xs _ IH Hx]; intros [| y ys];
    simpl; try constructor.
  destruct y; [| apply IH].
  constructor; [apply IH |].
  apply List.Forall_forall. intros p Hp. simpl.
  rewrite List.Forall_forall in Hx. apply Hx.
  eapply valid_points_fst. exact Hp.
Qed.

Lemma interp_from_bracket (x : Q) (cur : Q * Q) (before after : list (Q * Q))
    (tl vl tr vr : Q) :
  Forall (fun p => (fst p <= x)%Q) before ->
  (tl < x)%Q -> (x < tr)%Q ->
  interp_from x cur (before ++ (tl, vl) :: (tr, vr) :: after)
  = ((vr - vl) / (tr - tl) * (x - tl) + vl)%Q.
Proof.
  intros Hb Hl Hr. revert cur.
  induction Hb as [| p before Hp _ IH]; intros cur; simpl.
  - rewrite (Qle_bool_le tl x) by (apply Qlt_le_weak; exact Hl).
    rewrite (Qle_bool_lt x tr Hr). simpl.
    rewrite (Qeq_bool_lt tl x Hl). reflexivity.
  - rewrite (Qle_bool_le _ _ Hp). apply IH.
Qed.

Lemma np_interp_bracket (x : Q) (before after : list (Q * Q))
    (tl vl tr vr : Q) :
  Forall (fun p => (fst p <= x)%Q) before ->
  (tl < x)%Q -> (x < tr)%Q ->
  np_interp x (before ++ (tl, vl) :: (tr, vr) :: after)
  = ((vr - vl) / (tr - tl) * (x - tl) + vl)%Q.
Proof.
  intros Hb Hl Hr. destruct before as [| p before]; simpl.
  - unfold Qlt_bool.
    rewrite (Qle_bool_le tl x) by (apply Qlt_le_weak; exact Hl). simpl.
    rewrite (Qle_bool_lt x tr Hr). simpl.
    rewrite (Qeq_bool_lt tl x Hl). reflexivity.
  - inversion Hb as [| ? ? Hp Hb']; subst.
    unfold Qlt_bool. rewrite (Qle_bool_le _ _ Hp). simpl.
    apply interp_from_bracket; assumption.
Qed.

Lemma interp_from_end (x : Q) (cur : Q * Q) (before : list (Q * Q))
    (tl vl : Q) :
  Forall (fun p => (fst p <= x)%Q) before -> (tl <= x)%Q ->
  interp_from x cur (before ++ [(tl, vl)]) = vl.
Proof.
  intros Hb Hl. revert cur.
  induction Hb as [| p before Hp _ IH]; intros cur; simpl.
  - rewrite (Qle_bool_le tl x Hl). reflexivity.
  - rewrite (Qle_bool_le _ _ Hp). apply IH.
Qed.

Lemma np_interp_right (x : Q) (before : list (Q * Q)) (tl vl : Q) :
  Forall (fun p => (fst p <= x)%Q) before -> (tl <= x)%Q ->
  np_interp x (before ++ [(tl, vl)]) = vl.
Proof.
  intros Hb Hl. destruct before as [| p before]; simpl.
  - unfold Qlt_bool. rewrite (Qle_bool_le tl x Hl). reflexivity.
  - inversion Hb as [| ? ? Hp Hb']; subst.
    unfold Qlt_bool. rewrite (Qle_bool_le _ _ Hp). simpl.
    apply interp_from_end; assumption.
Qed.

Lemma np_interp_left (x : Q) (after : list (Q * Q)) (tr vr : Q) :
  (x < tr)%Q -> np_interp x ((tr, vr) :: after) = vr.
Proof.
  intros Hr. simpl. unfold Qlt_bool. rewrite (Qle_bool_lt x tr Hr).
  reflexivity.
Qed.

Lemma valid_points_split (ts : list Q) (areas : list float) (l : nat)
    (tl vl : Q) :
  length areas = length ts ->
  areas !! l = Some (Some vl) -> ts !! l = Some tl ->
  valid_points ts areas
  = valid_points (take l ts) (take l areas)
    ++ (tl, vl) :: valid_points (drop (S l) ts) (drop (S l) areas).
Proof.
  intros Hlen Ha Ht.
  rewrite <- (take_drop_middle areas l (Some vl) Ha) at 1.
  rewrite <- (take_drop_middle ts l tl Ht) at 1.
  rewrite valid_points_app; [reflexivity |].
  rewrite !length_take. lia.
Qed.

Lemma take_before_sorted (ts : list Q) (l : nat) (tl : Q) :
  StronglySorted Qlt ts -> ts !! l = Some tl ->
  Forall (fun t => (t < tl)%Q) (take l ts).
Proof.
  intros Hs Ht. apply List.Forall_forall. intros t Hin.
  apply list_elem_of_In, list_elem_of_lookup in Hin as [k Hk].
  assert (Hkl : (k < l)%nat).
  { apply lookup_lt_Some in Hk. rewrite length_take in Hk. lia. }
  rewrite lookup_take_lt in Hk by exact Hkl.
  eapply (StronglySorted_lookup_lt Qlt ts k l); eassumption.
Qed.

Lemma before_points (ts : list Q) (areas : list float) (l : nat)
    (tl x : Q) :
  StronglySorted Qlt ts -> ts !! l = Some tl -> (tl < x)%Q ->
  Forall (fun p => (fst p <= x)%Q)
         (valid_points (take l ts) (take l areas)).
Proof.
  intros Hs Ht Hx. apply List.Forall_forall. intros p Hp.
  apply valid_points_fst in Hp.
  pose proof (take_before_sorted ts l tl Hs Ht) as Hall.
  rewrite List.Forall_forall in Hall.
  apply Qlt_le_weak. eapply Qlt_trans; [apply Hall; exact Hp | exact Hx].
Qed.

Lemma missing_between (areas : list float) (l r : nat) :
  (forall j, (l < j < r)%nat -> areas !! j = Some None) ->
  Forall (fun v => v = None) (take (r - l - 1) (drop (S l) areas)).
Proof.
  intros H. apply List.Forall_forall. intros v Hin.
  apply list_elem_of_In, list_elem_of_lookup in Hin as [k Hk].
  assert (Hkl : (k < r - l - 1)%nat).
  { apply lookup_lt_Some in Hk. rewrite length_take in Hk. lia. }
  rewrite lookup_take_lt in Hk by exact Hkl. rewrite lookup_drop in Hk.
  rewrite H in Hk by lia. congruence.
Qed.

Lemma neighbourhood_valid (areas : list float) (gap_limit : positive)
    (i k : nat) (v : Q) :
  areas !! k = Some (Some v) ->
  (i - Pos.to_nat gap_limit <= k <= i + Pos.to_nat gap_limit)%nat ->
  ~ Forall (fun v => v = None) (neighbourhood areas gap_limit i).
Proof.
  intros Hk Hrange Hall. rewrite List.Forall_forall in Hall.
  assert (Hin : In (Some v) (neighbourhood areas gap_limit i)).
  { apply list_elem_of_In, list_elem_of_lookup.
    exists (k - (i - Pos.to_nat gap_limit))%nat.
    unfold neighbourhood, slice.
    rewrite lookup_take_lt by lia. rewrite lookup_drop.
    replace (i - Pos.to_nat gap_limit
             + (k - (i - Pos.to_nat gap_limit)))%nat with k by lia.
    exact Hk. }
  specialize (Hall _ Hin). discriminate.
Qed.

(** X3. With strictly increasing timestamps, a missing entry between
    its nearest valid neighbours, at positions [l] and [r], and at most
    [gap_limit] positions away from one of them, gets the value of the
    straight line through the two neighbours at its own timestamp. *)
Theorem clean_data_interpolates (areas : list float) (timestamps : list Q)
    (gap_limit : positive) (l i r : nat) (vl vr tl x tr : Q) :
  length areas = length timestamps ->
  StronglySorted Qlt timestamps ->
  (l < i < r)%nat ->
  areas !! l = Some (Some vl) -> areas !! r = Some (Some vr) ->
  (forall j, (l < j < r)%nat -> areas !! j = Some None) ->
  timestamps !! l = Some tl -> timestamps !! i = Some x ->
  timestamps !! r = Some tr ->
  (i - l <= Pos.to_nat gap_limit \/ r - i <= Pos.to_nat gap_limit)%nat ->
  clean_data areas timestamps gap_limit !! i
  = Some (Some ((vr - vl) / (tr - tl) * (x - tl) + vl)%Q).
Proof.
  intros Hlen Hs Hlir Hl Hr Hmid Htl Hx Htr Hnear.
  assert (Hlx : (tl < x)%Q)
    by (eapply (StronglySorted_lookup_lt Qlt timestamps l i);
        [exact Hs | lia | eassumption | eassumption]).
  assert (Hxr : (x < tr)%Q)
    by (eapply (StronglySorted_lookup_lt Qlt timestamps i r);
        [exact Hs | lia | eassumption | eassumption]).
  destruct (clean_data_missing_lookup areas timestamps gap_limit i x Hlen
              (Hmid i Hlir) Hx) as [_ Hfill].
  rewrite Hfill.
  2:{ destruct Hnear as [Hn | Hn].
      - eapply (neighbourhood_valid areas gap_limit i l); [exact Hl | lia].
      - eapply (neighbourhood_valid areas gap_limit i r); [exact Hr | lia]. }
  do 2 f_equal.
  rewrite sort_pts_sorted by (apply valid_points_sorted; exact Hs).
  rewrite (valid_points_split timestamps areas l tl vl Hlen Hl Htl).
  assert (Hr' : drop (S l) areas !! (r - l - 1)%nat = Some (Some vr))
    by (rewrite lookup_drop; replace (S l + (r - l - 1))%nat with r by lia;
        exact Hr).
  assert (Htr' : drop (S l) timestamps !! (r - l - 1)%nat = Some tr)
    by (rewrite lookup_drop; replace (S l + (r - l - 1))%nat with r by lia;
        exact Htr).
  rewrite (valid_points_split (drop (S l) timestamps) (drop (S l) areas)
             (r - l - 1) tr vr) by (rewrite ?length_drop; congruence || lia).
  rewrite (valid_points_missing _ _ (missing_between areas l r Hmid)).
  rewrite app_nil_l.
  apply np_interp_bracket; [| exact Hlx | exact Hxr].
  eapply before_points; eassumption.
Qed.

Lemma clean_data_interpolates_witness :
  clean_data [Some 10%Q; None; None; Some 40%Q] [0%Q; 1%Q; 2%Q; 3%Q] 1
    !! 1%nat
  = Some (Some ((40 - 10) / (3 - 0) * (1 - 0) + 10)%Q).
Proof.
  apply (clean_data_interpolates _ _ 1%positive 0%nat 1%nat 3%nat).
  - reflexivity.
  - repeat constructor.
  - lia.
  - reflexivity.
  - reflexivity.
  - intros j Hj. assert (Hc : j = 1%nat \/ j = 2%nat) by lia.
    destruct Hc as [-> | ->]; reflexivity.
  - reflexivity.
  - reflexivity.
  - reflexivity.
  - left. simpl. lia.
Defined.

Lemma missing_prefix (areas : list float) (r : nat) :
  (forall j, (j < r)%nat -> areas !! j = Some None) ->
  Forall (fun v => v = None) (take r areas).
Proof.
  intros H. apply List.Forall_forall. intros v Hin.
  apply list_elem_of_In, list_elem_of_lookup in Hin as [k Hk].
  assert (Hkl : (k < r)%nat).
  { apply lookup_lt_Some in Hk. rewrite length_take in Hk. lia. }
  rewrite lookup_take_lt in Hk by exact Hkl.
  rewrite H in Hk by lia. congruence.
Qed.

Lemma missing_suffix (areas : list float) (l : nat) :
  (forall j, (l < j < length areas)%nat -> areas !! j = Some None) ->
  Forall (fun v => v = None) (drop (S l) areas).
Proof.
  intros H. apply List.Forall_forall. intros v Hin.
  apply list_elem_of_In, list_elem_of_lookup in Hin as [k Hk].
  rewrite lookup_drop in Hk.
  pose proof (lookup_lt_Some _ _ _ Hk) as Hlt.
  rewrite H in Hk by lia. congruence.
Qed.

(** X4. With strictly increasing timestamps, a missing entry before
    the first valid entry and at most [gap_limit] positions away from it
    gets the value of that first valid entry. *)
Theorem clean_data_leading_gap (areas : list float) (timestamps : list Q)
    (gap_limit : positive) (i r : nat) (vr : Q) :
  length areas = length timestamps ->
  StronglySorted Qlt timestamps ->
  (i < r)%nat -> (r - i <= Pos.to_nat gap_limit)%nat ->
  areas !! r = Some (Some vr) ->
  (forall j, (j < r)%nat -> areas !! j = Some None) ->
  clean_data areas timestamps gap_limit !! i = Some (Some vr).
Proof.
  intros Hlen Hs Hir Hnear Hr Hmiss.
  destruct (lookup_lt_is_Some_2 timestamps i) as [x Hx].
  { apply lookup_lt_Some in Hr. lia. }
  destruct (lookup_lt_is_Some_2 timestamps r) as [tr Htr].
  { apply lookup_lt_Some in Hr. lia. }
  assert (Hxr : (x < tr)%Q)
    by (eapply (StronglySorted_lookup_lt Qlt timestamps i r);
        [exact Hs | lia | eassumption | eassumption]).
  destruct (clean_data_missing_lookup areas timestamps gap_limit i x Hlen
              (Hmiss i Hir) Hx) as [_ Hfill].
  rewrite Hfill
    by (eapply (neighbourhood_valid areas gap_limit i r); [exact Hr | lia]).
  do 2 f_equal.
  rewrite sort_pts_sorted by (apply valid_points_sorted; exact Hs).
  rewrite (valid_points_split timestamps areas r tr vr Hlen Hr Htr).
  rewrite (valid_points_missing _ _ (missing_prefix areas r Hmiss)).
  rewrite app_nil_l. apply np_interp_left. exact Hxr.
Qed.

Lemma clean_data_leading_gap_witness :
  clean_data [None; None; Some 5%Q] [0%Q; 1%Q; 2%Q] 3 !! 0%nat
  = Some (Some 5%Q).
Proof.
  apply (clean_data_leading_gap _ _ 3%positive 0%nat 2%nat).
  - reflexivity.
  - repeat constructor.
  - lia.
  - simpl. lia.
  - reflexivity.
  - intros j Hj. assert (Hc : j = 0%nat \/ j = 1%nat) by lia.
    destruct Hc as [-> | ->]; reflexivity.
Defined.

(** X5. With strictly increasing timestamps, a missing entry after the
    last valid entry and at most [gap_limit] positions away from it gets
    the value of that last valid entry. *)
Theorem clean_data_trailing_gap (areas : list float) (timestamps : list Q)
    (gap_limit : positive) (l i : nat) (vl : Q) :
  length areas = length timestamps ->
  StronglySorted Qlt timestamps ->
  (l < i < length areas)%nat -> (i - l <= Pos.to_nat gap_limit)%nat ->
  areas !! l = Some (Some vl) ->
  (forall j, (l < j < length areas)%nat -> areas !! j = Some None) ->
  clean_data areas timestamps gap_limit !! i = Some (Some vl).
Proof.
  intros Hlen Hs Hli Hnear Hl Hmiss.
  destruct (lookup_lt_is_Some_2 timestamps i) as [x Hx]; [lia |].
  destruct (lookup_lt_is_Some_2 timestamps l) as [tl Htl]; [lia |].
  assert (Hlx : (tl < x)%Q)
    by (eapply (StronglySorted_lookup_lt Qlt timestamps l i);
        [exact Hs | lia | eassumption | eassumption]).
  destruct (clean_data_missing_lookup areas timestamps gap_limit i x Hlen
              (Hmiss i Hli) Hx) as [_ Hfill].
  rewrite Hfill
    by (eapply (neighbourhood_valid areas gap_limit i l); [exact Hl | lia]).
  do 2 f_equal.
  rewrite sort_pts_sorted by (apply valid_points_sorted; exact Hs).
  rewrite (valid_points_split timestamps areas l tl vl Hlen Hl Htl).
  rewrite (valid_points_missing _ _ (missing_suffix areas l Hmiss)).
  apply np_interp_right; [| apply Qlt_le_weak; exact Hlx].
  eapply before_points; eassumption.
Qed.

Lemma clean_data_trailing_gap_witness :
  clean_data [Some 5%Q; None; None] [0%Q; 1%Q; 2%Q] 3 !! 2%nat
  = Some (Some 5%Q).
Proof.
  apply (clean_data_trailing_gap _ _ 3%positive 0%nat 2%nat).
  - reflexivity.
  - repeat constructor.
  - simpl. lia.
  - simpl. lia.
  - reflexivity.
  - intros j Hj. simpl in Hj. assert (Hc : j = 1%nat \/ j = 2%nat) by lia.
    destruct Hc as [-> | ->]; reflexivity.
Defined.

(** X6. A missing entry with no valid entry within [gap_limit]
    positions on either side becomes 0, whatever the timestamps. *)
Theorem clean_data_long_gap_zero (areas : list float) (timestamps : list Q)
    (gap_limit : positive) (i : nat) :
  length areas = length timestamps ->
  (i < length areas)%nat ->
  (forall j, (i - Pos.to_nat gap_limit <= j <= i + Pos.to_nat gap_limit)%nat ->
             (j < length areas)%nat -> areas !! j = Some None) ->
  clean_data areas timestamps gap_limit !! i = Some (Some 0%Q).
Proof.
  intros Hlen Hi Hmiss.
  destruct (lookup_lt_is_Some_2 timestamps i) as [x Hx]; [lia |].
  destruct (clean_data_missing_lookup areas timestamps gap_limit i x Hlen
              (Hmiss i ltac:(lia) Hi) Hx) as [Hzero _].
  apply Hzero. apply List.Forall_forall. intros v Hin.
  apply list_elem_of_In, list_elem_of_lookup in Hin as [k Hk].
  unfold neighbourhood, slice in Hk.
  pose proof (lookup_lt_Some _ _ _ Hk) as Hlt.
  rewrite length_take in Hlt.
  rewrite lookup_take_lt in Hk by lia. rewrite lookup_drop in Hk.
  pose proof (lookup_lt_Some _ _ _ Hk) as Hlt2.
  rewrite Hmiss in Hk by lia. congruence.
Qed.

Lemma clean_data_long_gap_zero_witness :
  clean_data
    [Some 1%Q; None; None; None; None; None; None; None; Some 2%Q]
    [0%Q; 1%Q; 2%Q; 3%Q; 4%Q; 5%Q; 6%Q; 7%Q; 8%Q] 3 !! 4%nat
  = Some (Some 0%Q).
Proof.
  apply clean_data_long_gap_zero.
  - reflexivity.
  - simpl. lia.
  - intros j Hj _. simpl in Hj.
    assert (Hc : (j = 1 \/ j = 2 \/ j = 3 \/ j = 4 \/ j = 5 \/ j = 6
                  \/ j = 7)%nat) by lia.
    destruct Hc as [-> | [-> | [-> | [-> | [-> | [-> | ->]]]]]];
      reflexivity.
Defined.

(* ===================================================================== *)
(** * Further properties of the smoother *)
(* ===================================================================== *)

Lemma slice_app_l {A} (s s' : list A) (lo hi : nat) :
  (hi <= length s)%nat -> slice (s ++ s') lo hi = slice s lo hi.
Proof.
  intros H. unfold slice.
  destruct (le_lt_dec lo (length s)) as [Hlo | Hlo].
  - rewrite drop_app_le by exact Hlo.
    rewrite take_app_le by (rewrite length_drop; lia). reflexivity.
  - replace (hi - lo)%nat with 0%nat by lia. reflexivity.
Qed.

(** X7. The smoother is causal: the smoothed value at a position depends
    on the entries up to that position only, so appending samples leaves
    the smoothed values of the earlier positions as they are. *)
Theorem rolling_mean_causal (window : positive) (s s' : list float) :
  take (length s) (rolling_mean window (s ++ s')) = rolling_mean window s.
Proof.
  apply list_eq. intros i.
  destruct (le_lt_dec (length s) i) as [Hi | Hi].
  - rewrite lookup_take_ge by exact Hi.
    symmetry. apply lookup_ge_None. rewrite rolling_mean_length. exact Hi.
  - rewrite lookup_take_lt by exact Hi.
    rewrite !rolling_mean_lookup by (rewrite ?length_app; lia).
    rewrite slice_app_l by lia. reflexivity.
Qed.

Lemma valid_values_nil_iff (w : list float) :
  valid_values w = [] <-> forallb isna w = true.
Proof.
  induction w as [| [q |] w IH]; simpl.
  - tauto.
  - split; discriminate.
  - exact IH.
Qed.

Lemma nanmean_isna (w : list float) :
  isna (nanmean w) = forallb isna w.
Proof.
  unfold nanmean. destruct (valid_values w) as [| v vs] eqn:E.
  - symmetry. apply valid_values_nil_iff. exact E.
  - simpl. symmetry. apply not_true_is_false. intros H.
    apply valid_values_nil_iff in H. congruence.
Qed.

(** X8. A smoothed value is missing exactly when every entry of its
    trailing window is missing: a run of missing samples at least as
    long as the window comes out of the smoother as missing values. *)
Theorem rolling_mean_missing_iff (window : positive) (s : list float)
    (i : nat) (v : float) :
  rolling_mean window s !! i = Some v ->
  isna v
  = forallb isna (slice s (i + 1 - Pos.to_nat window) (i + 1)).
Proof.
  intros H.
  assert (Hi : (i < length s)%nat).
  { apply lookup_lt_Some in H. rewrite rolling_mean_length in H. exact H. }
  rewrite rolling_mean_lookup in H by exact Hi.
  injection H as <-. apply nanmean_isna.
Qed.

Lemma rolling_mean_missing_iff_witness :
  isna None
  = forallb isna (slice [Some 4%Q; None; None; Some 6%Q]
                    (2 + 1 - Pos.to_nat 2) (2 + 1)).
Proof.
  apply (rolling_mean_missing_iff 2 [Some 4%Q; None; None; Some 6%Q] 2 None).
  reflexivity.
Defined.

Lemma Qsum_bounds (lo hi : Q) (vs : list Q) :
  Forall (fun q => (lo <= q <= hi)%Q) vs ->
  (inject_Z (Z.of_nat (length vs)) * lo <= Qsum vs)%Q
  /\ (Qsum vs <= inject_Z (Z.of_nat (length vs)) * hi)%Q.
Proof.
  induction 1 as [| q vs [Hlo Hhi] _ [IH1 IH2]].
  - simpl. split; apply Qle_lteq; right; ring.
  - cbn [length Qsum fold_right].
    rewrite Nat2Z.inj_succ, <- Z.add_1_r, inject_Z_plus.
    split.
    + assert (E : ((inject_Z (Z.of_nat (length vs)) + inject_Z 1) * lo
                   == lo + inject_Z (Z.of_nat (length vs)) * lo)%Q) by ring.
      rewrite E. apply Qplus_le_compat; assumption.
    + assert (E : ((inject_Z (Z.of_nat (length vs)) + inject_Z 1) * hi
                   == hi + inject_Z (Z.of_nat (length vs)) * hi)%Q) by ring.
      rewrite E. apply Qplus_le_compat; assumption.
Qed.

Lemma valid_values_within (lo hi : Q) (w : list float) :
  Forall (within lo hi) w ->
  Forall (fun q => (lo <= q <= hi)%Q) (valid_values w).
Proof.
  induction 1 as [| [q |] w Hq _ IH]; simpl; auto.
Qed.

Lemma nanmean_within (lo hi : Q) (w : list float) :
  Forall (within lo hi) w -> within lo hi (nanmean w).
Proof.
  intros H. apply valid_values_within in H.
  unfold nanmean. destruct (valid_values w) as [| v vs] eqn:E; [exact I |].
  destruct (Qsum_bounds lo hi (v :: vs) H) as [H1 H2].
  assert (Hn : (0 < inject_Z (Z.of_nat (length (v :: vs))))%Q).
  { change 0%Q with (inject_Z 0). rewrite <- Zlt_Qlt. simpl. lia. }
  simpl. split.
  - apply Qle_shift_div_l; [exact Hn |].
    rewrite Qmult_comm. exact H1.
  - apply Qle_shift_div_r; [exact Hn |].
    rewrite Qmult_comm. exact H2.
Qed.

Lemma Forall_slice {A} (P : A -> Prop) (l : list A) (lo hi : nat) :
  Forall P l -> Forall P (slice l lo hi).
Proof.
  intros H. unfold slice. apply Forall_take, Forall_drop. exact H.
Qed.

(** X9. Smoothing does not leave the range of the samples: when every
    sample that is not missing lies between [lo] and [hi], so does every
    smoothed value that is not missing. *)
Theorem rolling_mean_within (window : positive) (lo hi : Q)
    (s : list float) :
  Forall (within lo hi) s -> Forall (within lo hi) (rolling_mean window s).
Proof.
  intros H. unfold rolling_mean. apply Forall_map.
  apply List.Forall_forall. intros i _.
  apply nanmean_within, Forall_slice. exact H.
Qed.

Lemma rolling_mean_within_witness :
  Forall (within 10 30)
         (rolling_mean 2 [Some 10%Q; None; Some 30%Q; Some 20%Q]).
Proof.
  apply rolling_mean_within.
  repeat constructor; discriminate.
Defined.

(* ===================================================================== *)
(** * Further properties of the trend detector *)
(* ===================================================================== *)

(** What a returned list satisfies: it is empty, or the loop ran over
    the evaluation times and kept its invariant. *)
Lemma check_ok_inv (areas : list float) (timestamps : list Q)
    (minutes epsilon overlap_ratio cooldown : Q)
    (results : list WindowEvaluation) :
  check_area_trend_timebased areas timestamps minutes epsilon overlap_ratio
    cooldown = Ok results ->
  exists times,
    (results = []
     \/ range (int (hd 0%Q timestamps + minutes * 60)%Q)
              (int (List.last timestamps 0%Q + 1)%Q)
              (step_size minutes overlap_ratio) = Ok times)
    /\ loop_inv areas timestamps minutes epsilon cooldown
         (last_ng results, results) times.
Proof.
  intros Hcheck. unfold check_area_trend_timebased in Hcheck.
  destruct ((length areas =? 0)%nat || (length timestamps =? 0)%nat).
  { injection Hcheck as <-. exists []. split; [left; reflexivity |].
    apply loop_inv_init. }
  destruct (range _ _ _) as [times | e] eqn:Hrange; [| discriminate].
  cbn [mbind result_bind] in Hcheck.
  exists times. split; [right; reflexivity |].
  destruct (Nat.eq_dec (length areas) (length timestamps)) as [Hlen | Hlen].
  - rewrite for_each_next in Hcheck by exact Hlen.
    cbn [mbind result_bind mret result_ret] in Hcheck.
    injection Hcheck as <-.
    pose proof (loop_inv_fold areas timestamps minutes epsilon cooldown
                  times (None, []) []
                  (loop_inv_init areas timestamps minutes epsilon cooldown))
      as H.
    rewrite app_nil_l in H. destruct H as (H1 & H2 & H3).
    split; [reflexivity |]. split; assumption.
  - destruct times as [| t times].
    + simpl in Hcheck. injection Hcheck as <-. apply loop_inv_init.
    + rewrite for_each_mismatch in Hcheck by (assumption || discriminate).
      discriminate.
Qed.

Lemma range_increasing (start stop step : Z) (times : list Z) :
  (1 <= step)%Z -> range start stop step = Ok times ->
  StronglySorted Z.lt times
  /\ Forall (fun t => (start <= t < stop)%Z) times.
Proof.
  intros Hstep. unfold range.
  destruct (step =? 0)%Z eqn:E; [discriminate |].
  intros [= <-]. split.
  - apply StronglySorted_map_seq. intros i j Hij. nia.
  - apply List.Forall_forall. intros t Ht.
    apply List.in_map_iff in Ht as (k & <- & Hk).
    apply List.in_seq in Hk. unfold range_length in Hk.
    destruct (0 <? step)%Z eqn:E1; [| apply Z.ltb_ge in E1; lia].
    destruct (stop <=? start)%Z eqn:E2; [simpl in Hk; lia |].
    apply Z.leb_gt in E2.
    pose proof (Z.mul_div_le (stop - start - 1) step ltac:(lia)) as Hd.
    assert (H0 : (0 <= (stop - start - 1) / step)%Z)
      by (apply Z.div_pos; lia).
    assert (Hk' : (Z.of_nat k <= (stop - start - 1) / step)%Z) by lia.
    nia.
Qed.

Lemma StronglySorted_map_filter {A B} (R : B -> B -> Prop) (f : A -> B)
    (p : A -> bool) (l : list A) :
  StronglySorted R (map f l) -> StronglySorted R (map f (List.filter p l)).
Proof.
  induction l as [| x l IH]; simpl; intros H; [constructor |].
  apply StronglySorted_inv in H as [Hl Hx].
  destruct (p x); [| apply IH; exact Hl].
  simpl. constructor; [apply IH; exact Hl |].
  rewrite List.Forall_forall in Hx |- *. intros y Hy. apply Hx.
  apply List.in_map_iff in Hy as (a & <- & Ha).
  apply List.filter_In in Ha as [Ha _].
  apply List.in_map. exact Ha.
Qed.

(** X10. With a step of at least one second, the entries returned by
    [check_area_trend_timebased] come in strictly increasing order of
    [time_sec], every [time_sec] lies between the first evaluation time
    [int(timestamps[0] + L_sec)] and [int(timestamps[-1] + 1)]
    (excluded), and [extract_ng_markers] is strictly increasing as
    well. *)
Theorem trend_times_increasing (areas : list float) (timestamps : list Q)
    (minutes epsilon overlap_ratio cooldown : Q)
    (results : list WindowEvaluation) :
  (1 <= step_size minutes overlap_ratio)%Z ->
  check_area_trend_timebased areas timestamps minutes epsilon overlap_ratio
    cooldown = Ok results ->
  StronglySorted Z.lt (map time_sec results)
  /\ Forall (fun e =>
               (int (hd 0%Q timestamps + minutes * 60)%Q <= time_sec e
                < int (List.last timestamps 0%Q + 1)%Q)%Z) results
  /\ StronglySorted Z.lt (extract_ng_markers results).
Proof.
  intros Hstep Hcheck.
  destruct (check_ok_inv _ _ _ _ _ _ _ Hcheck)
    as (times & Hrange & _ & Htimes & _).
  cbn [snd] in Htimes.
  assert (H : StronglySorted Z.lt (map time_sec results)
              /\ Forall (fun t =>
                   (int (hd 0%Q timestamps + minutes * 60)%Q <= t
                    < int (List.last timestamps 0%Q + 1)%Q)%Z)
                   (map time_sec results)).
  { destruct Hrange as [-> | Hrange]; [split; constructor |].
    destruct (range_increasing _ _ _ _ Hstep Hrange) as [Hs Hb].
    rewrite Htimes. split.
    - apply StronglySorted_list_filter. exact Hs.
    - rewrite List.Forall_forall in Hb |- *. intros t Ht.
      apply List.filter_In in Ht as [Ht _]. auto. }
  destruct H as [Hs Hb]. split; [exact Hs |]. split.
  - rewrite List.Forall_forall in Hb |- *. intros e He.
    apply Hb. apply List.in_map. exact He.
  - unfold extract_ng_markers. apply StronglySorted_map_filter. exact Hs.
Qed.

Lemma trend_times_increasing_witness :
  let results :=
    match check_area_trend_timebased sample_areas sample_timestamps 1
            (15 # 100) (7 # 10) 30 with
    | Ok r => r
    | Raise _ => []
    end in
  StronglySorted Z.lt (extract_ng_markers results).
Proof.
  intros results.
  refine (proj2 (proj2 (trend_times_increasing sample_areas
                          sample_timestamps 1 (15 # 100) (7 # 10) 30
                          results _ _))).
  - vm_compute. discriminate.
  - vm_compute. reflexivity.
Defined.

(** X11. With [epsilon <= 0] no window is flat: every returned entry has
    status NORMAL and [extract_ng_markers] is empty. *)
Theorem trend_nonpositive_epsilon (areas : list float) (timestamps : list Q)
    (minutes epsilon overlap_ratio cooldown : Q)
    (results : list WindowEvaluation) :
  (epsilon <= 0)%Q ->
  check_area_trend_timebased areas timestamps minutes epsilon overlap_ratio
    cooldown = Ok results ->
  Forall (fun e => status e = NORMAL) results
  /\ extract_ng_markers results = [].
Proof.
  intros Heps Hcheck.
  destruct (check_ok_inv _ _ _ _ _ _ _ Hcheck)
    as (times & _ & _ & _ & Hentries).
  cbn [snd] in Hentries.
  assert (Hall : Forall (fun e => status e = NORMAL) results).
  { apply List.Forall_forall. intros e He.
    apply List.in_split in He as (pre & post & ->).
    destruct (Hentries pre e post eq_refl)
      as (p & c & _ & _ & _ & _ & _ & _ & Hnormal).
    apply Hnormal. intros (r & _ & Hr).
    apply (Qlt_not_le _ _ Hr).
    eapply Qle_trans; [exact Heps | apply Qabs_nonneg]. }
  split; [exact Hall |].
  unfold extract_ng_markers. clear Hcheck Hentries.
  induction Hall as [| e l He _ IH]; [reflexivity |].
  simpl. rewrite He. simpl. exact IH.
Qed.

Lemma trend_nonpositive_epsilon_witness :
  let results :=
    match check_area_trend_timebased sample_areas sample_timestamps 1
            0 (7 # 10) 30 with
    | Ok r => r
    | Raise _ => []
    end in
  results <> [] /\ extract_ng_markers results = [].
Proof.
  intros results. split; [vm_compute; discriminate |].
  refine (proj2 (trend_nonpositive_epsilon sample_areas
                   sample_timestamps 1 0 (7 # 10) 30 results _ _)).
  - vm_compute. discriminate.
  - vm_compute. reflexivity.
Defined.

Lemma compress_Forall {A} (P : A -> Prop) (a : list A) (mask : list bool) :
  Forall P a -> Forall P (compress a mask).
Proof.
  intros H. revert mask.
  induction H as [| x a Hx _ IH]; intros [| [|] mask]; simpl; auto.
Qed.

Lemma nanmean_steady (c : Q) (w : list float) :
  w <> [] -> Forall (fun v => feq v (Some c)) w ->
  exists m, nanmean w = Some m /\ (m == c)%Q.
Proof.
  intros Hne Hall.
  assert (Hw : Forall (within c c) w).
  { eapply Forall_impl; [exact Hall |].
    intros [q |] Hq; simpl in *; [| contradiction].
    rewrite Hq. split; apply Qle_refl. }
  assert (Hex : Exists (fun v => isna v = false) w).
  { destruct Hall as [| [q |] w Hq _]; [congruence | | contradiction].
    left. reflexivity. }
  destruct (nanmean_defined w Hex) as [m Hm].
  exists m. split; [exact Hm |].
  pose proof (nanmean_within c c w Hw) as Hin. rewrite Hm in Hin.
  destruct Hin. apply Qle_antisym; assumption.
Qed.

Lemma evaluated_steady (c : Q) (areas : list float) (timestamps : list Q)
    (minutes : Q) (t_now : Z) (p : Q) (cur : float) :
  Forall (fun v => feq v (Some c)) areas ->
  evaluated areas timestamps minutes t_now = Some (p, cur) ->
  (p == c)%Q /\ exists m, cur = Some m /\ (m == c)%Q.
Proof.
  intros Hall. unfold evaluated.
  pose proof (compress_Forall _ areas
                (prev_mask timestamps (minutes * 60) t_now) Hall) as Hp.
  pose proof (compress_Forall _ areas
                (curr_mask timestamps (minutes * 60) t_now) Hall) as Hc.
  fold (prev_window areas timestamps minutes t_now) in Hp.
  fold (curr_window areas timestamps minutes t_now) in Hc.
  destruct (prev_window areas timestamps minutes t_now) as [| a pw];
    [discriminate |].
  destruct (curr_window areas timestamps minutes t_now) as [| b cw];
    [discriminate |].
  destruct (nanmean_steady c (a :: pw) ltac:(discriminate) Hp)
    as (mp & -> & Hmp).
  destruct (nanmean_steady c (b :: cw) ltac:(discriminate) Hc)
    as (mc & Emc & Hmc).
  destruct (Qlt_bool 0 mp); [| discriminate].
  intros [= <- <-]. split; [exact Hmp |]. eauto.
Qed.

Lemma steady_flagged (c : Q) (areas : list float)
    (timestamps : list Q) (minutes epsilon overlap_ratio cooldown : Q)
    (results : list WindowEvaluation) :
  (0 < c)%Q -> (0 < epsilon)%Q ->
  Forall (fun v => feq v (Some c)) areas ->
  check_area_trend_timebased areas timestamps minutes epsilon overlap_ratio
    cooldown = Ok results ->
  Forall (fun e => status e <> NORMAL) results
  /\ forall e, head results = Some e -> status e = NG.
Proof.
  intros Hc Heps Hall Hcheck.
  destruct (check_ok_inv _ _ _ _ _ _ _ Hcheck)
    as (times & _ & _ & _ & Hentries).
  cbn [snd] in Hentries.
  assert (Hflat : forall pre e post, results = pre ++ e :: post ->
                  flat_trend (ratio e) epsilon).
  { intros pre e post Hsplit.
    destruct (Hentries pre e post Hsplit)
      as (p & cur & Hev & _ & _ & Hratio & _).
    destruct (evaluated_steady c _ _ _ _ _ _ Hall Hev)
      as (Hp & m & -> & Hm).
    rewrite Hratio. simpl. eexists. split; [reflexivity |].
    assert (E : (m / p - 1 == 0)%Q).
    { rewrite Hm, Hp. field. intros H0. rewrite H0 in Hc.
      exact (Qlt_irrefl _ Hc). }
    rewrite E. exact Heps. }
  split.
  - apply List.Forall_forall. intros e He.
    apply List.in_split in He as (pre & post & Hsplit).
    destruct (Hentries pre e post Hsplit)
      as (_ & _ & _ & _ & _ & _ & _ & _ & Hnormal).
    intros Hn. apply Hnormal in Hn. apply Hn. eauto.
  - intros e He. destruct results as [| e' post]; [discriminate |].
    injection He as ->.
    destruct (Hentries [] e post eq_refl)
      as (_ & _ & _ & _ & _ & _ & Hng & _).
    apply Hng. split; [apply (Hflat [] e post eq_refl) | exact I].
Qed.

(** X12. A series that stays at one positive value is flagged: with
    [epsilon > 0], no returned entry has status NORMAL, and the first
    returned entry has status NG. *)
Theorem steady_series_flagged (c : Q) (areas : list float)
    (timestamps : list Q) (minutes epsilon overlap_ratio cooldown : Q)
    (results : list WindowEvaluation) :
  (0 < c)%Q -> (0 < epsilon)%Q ->
  Forall (fun v => feq v (Some c)) areas ->
  check_area_trend_timebased areas timestamps minutes epsilon overlap_ratio
    cooldown = Ok results ->
  Forall (fun e => status e <> NORMAL) results
  /\ forall e, head results = Some e -> status e = NG.
Proof. apply steady_flagged. Qed.

Lemma steady_series_flagged_witness :
  let results :=
    match check_area_trend_timebased sample_areas sample_timestamps 1
            (15 # 100) (7 # 10) 30 with
    | Ok r => r
    | Raise _ => []
    end in
  results <> [] /\ Forall (fun e => status e <> NORMAL) results.
Proof.
  intros results. split; [vm_compute; discriminate |].
  refine (proj1 (steady_series_flagged 100 sample_areas
                   sample_timestamps 1 (15 # 100) (7 # 10) 30 results
                   _ _ _ _)).
  - reflexivity.
  - reflexivity.
  - repeat constructor.
  - vm_compute. reflexivity.
Defined.

Lemma int_lower_bound (z : Z) (q : Q) :
  (inject_Z z <= q)%Q -> (z <= int q)%Z.
Proof.
  destruct q as [n d]. unfold Qle, int. simpl. intros H.
  rewrite Z.mul_1_r in H.
  destruct (Z_lt_le_dec n 0) as [Hn | Hn].
  - rewrite <- (Z.opp_involutive n) at 1.
    rewrite Z.quot_opp_l by lia.
    rewrite Z.quot_div_nonneg by lia.
    assert (Hd : (- n / Z.pos d <= - z)%Z)
      by (apply Z.div_le_upper_bound; lia).
    lia.
  - rewrite Z.quot_div_nonneg by lia.
    apply Z.div_le_lower_bound; lia.
Qed.

Lemma range_length_mono (start stop stop' step : Z) :
  (1 <= step)%Z -> (stop <= stop')%Z ->
  (range_length start stop step <= range_length start stop' step)%Z.
Proof.
  intros Hs Hle. unfold range_length.
  destruct (0 <? step)%Z eqn:E; [| apply Z.ltb_ge in E; lia].
  destruct (stop <=? start)%Z eqn:E1.
  - destruct (stop' <=? start)%Z eqn:E2; [lia |].
    apply Z.leb_gt in E2.
    assert (0 <= (stop' - start - 1) / step)%Z by (apply Z.div_pos; lia).
    lia.
  - apply Z.leb_gt in E1.
    destruct (stop' <=? start)%Z eqn:E2; [apply Z.leb_le in E2; lia |].
    assert ((stop - start - 1) / step <= (stop' - start - 1) / step)%Z
      by (apply Z.div_le_mono; lia).
    lia.
Qed.

Lemma range_extend (start stop stop' step : Z) (times : list Z) :
  (1 <= step)%Z -> (stop <= stop')%Z ->
  range start stop step = Ok times ->
  exists rest, range start stop' step = Ok (times ++ rest).
Proof.
  intros Hs Hle. unfold range.
  destruct (step =? 0)%Z; [discriminate |]. intros [= <-].
  pose proof (range_length_mono start stop stop' step Hs Hle) as Hm.
  set (n := Z.to_nat (range_length start stop step)).
  set (n' := Z.to_nat (range_length start stop' step)).
  assert (Hn : (n <= n')%nat) by (subst n n'; lia).
  replace n' with (n + (n' - n))%nat by lia.
  rewrite seq_app, map_app. eauto.
Qed.

Lemma compress_app {A} (a a' : list A) (m m' : list bool) :
  length a = length m ->
  compress (a ++ a') (m ++ m') = compress a m ++ compress a' m'.
Proof.
  revert m. induction a as [| x a IH]; intros [| b m] Hlen;
    simpl in Hlen; try discriminate.
  - reflexivity.
  - simpl. rewrite IH by lia. destruct b; reflexivity.
Qed.

Lemma compress_none {A} (a : list A) (m : list bool) :
  Forall (fun b => b = false) m -> compress a m = [].
Proof.
  intros H. revert a. induction H as [| b m -> _ IH]; intros [| x a];
    simpl; auto.
Qed.

Lemma List_last_app {A} (l l' : list A) (d : A) :
  l' <> [] -> List.last (l ++ l') d = List.last l' d.
Proof.
  intros Hne. induction l as [| x l IH]; [reflexivity |].
  simpl. rewrite IH. destruct (l ++ l') eqn:E; [| reflexivity].
  apply app_eq_nil in E as [_ ?]. contradiction.
Qed.

Lemma List_last_In {A} (l : list A) (d : A) :
  l <> [] -> In (List.last l d) l.
Proof.
  induction l as [| x l IH]; [congruence |]. intros _.
  destruct l as [| y l]; [left; reflexivity |].
  right. apply IH. discriminate.
Qed.

Section Later.

Variables (areas areas' : list float) (timestamps timestamps' : list Q).
Variables (minutes epsilon cooldown : Q).
Variable stop : Z.
Hypothesis Hlen : length areas = length timestamps.
Hypothesis Hminutes : (0 <= minutes)%Q.
Hypothesis Hlater : Forall (fun t' => (inject_Z stop <= t')%Q) timestamps'.

Lemma later_masks (t_now : Z) :
  (t_now < stop)%Z ->
  Forall (fun b => b = false) (prev_mask timestamps' (minutes * 60) t_now)
  /\ Forall (fun b => b = false)
            (curr_mask timestamps' (minutes * 60) t_now).
Proof.
  intros Ht.
  assert (HL : (0 <= minutes * 60)%Q)
    by (apply Qmult_le_0_compat; [exact Hminutes | discriminate]).
  assert (Hlt : (inject_Z t_now < inject_Z stop)%Q)
    by (rewrite <- Zlt_Qlt; exact Ht).
  unfold prev_mask, curr_mask.
  split; apply Forall_map; (eapply Forall_impl; [exact Hlater |]);
    intros t' Ht'; simpl; apply andb_false_iff; right;
    unfold Qlt_bool; apply negb_false_iff, Qle_bool_iff.
  - apply Qle_trans with (inject_Z stop); [| exact Ht'].
    apply Qle_trans with (inject_Z t_now); [| apply Qlt_le_weak; exact Hlt].
    apply Qle_minus_iff.
    assert (E : (inject_Z t_now + - (inject_Z t_now - minutes * 60)
                 == minutes * 60)%Q) by ring.
    rewrite E. exact HL.
  - apply Qle_trans with (inject_Z stop); [| exact Ht'].
    apply Qlt_le_weak. exact Hlt.
Qed.

Lemma later_evaluated (t_now : Z) :
  (t_now < stop)%Z ->
  evaluated (areas ++ areas') (timestamps ++ timestamps') minutes t_now
  = evaluated areas timestamps minutes t_now.
Proof.
  intros Ht. destruct (later_masks t_now Ht) as [Hp Hc].
  unfold evaluated, prev_window, curr_window.
  unfold prev_mask, curr_mask in *. rewrite !map_app.
  rewrite !compress_app by (rewrite length_map; exact Hlen).
  rewrite (compress_none areas' _ Hp), (compress_none areas' _ Hc).
  rewrite !app_nil_r. reflexivity.
Qed.

Lemma later_fold (times : list Z) (st : loop_state) :
  Forall (fun t => (t < stop)%Z) times ->
  fold_left (loop_next (areas ++ areas') (timestamps ++ timestamps')
               minutes epsilon cooldown) times st
  = fold_left (loop_next areas timestamps minutes epsilon cooldown)
      times st.
Proof.
  intros H. revert st. induction H as [| t times Ht _ IH]; intros st.
  - reflexivity.
  - simpl. rewrite IH. f_equal. unfold loop_next.
    rewrite later_evaluated by exact Ht. reflexivity.
Qed.

End Later.

Lemma loop_next_appends areas timestamps minutes epsilon cooldown
    (times : list Z) (st : loop_state) :
  exists more,
    snd (fold_left (loop_next areas timestamps minutes epsilon cooldown)
           times st)
    = snd st ++ more.
Proof.
  revert st. induction times as [| t times IH]; intros st; simpl.
  - exists []. rewrite app_nil_r. reflexivity.
  - destruct (IH (loop_next areas timestamps minutes epsilon cooldown st t))
      as [more Hmore].
    rewrite Hmore. unfold loop_next.
    destruct (evaluated areas timestamps minutes t) as [[p c] |].
    + cbn [snd]. rewrite <- app_assoc. eauto.
    + eauto.
Qed.

(** X13. The detector looks backwards only: when samples are appended
    whose timestamps are not before [int(timestamps[-1] + 1)], the end
    of the evaluation range, the entries returned for the longer series
    begin with the entries returned for the shorter one. *)
Theorem trend_check_local (areas areas' : list float)
    (timestamps timestamps' : list Q)
    (minutes epsilon overlap_ratio cooldown : Q)
    (results : list WindowEvaluation) :
  areas <> [] ->
  length areas = length timestamps ->
  length areas' = length timestamps' ->
  (0 <= minutes)%Q ->
  (1 <= step_size minutes overlap_ratio)%Z ->
  Forall (fun t' =>
            (inject_Z (int (List.last timestamps 0%Q + 1)%Q) <= t')%Q)
         timestamps' ->
  check_area_trend_timebased areas timestamps minutes epsilon overlap_ratio
    cooldown = Ok results ->
  exists more,
    check_area_trend_timebased (areas ++ areas') (timestamps ++ timestamps')
      minutes epsilon overlap_ratio cooldown = Ok (results ++ more).
Proof.
  intros Hne Hlen Hlen' Hmin Hstep Hlater Hcheck.
  assert (Hts : timestamps <> [])
    by (intros ->; destruct areas; [congruence | discriminate]).
  unfold check_area_trend_timebased in *.
  rewrite (guard_nonempty _ _ Hne Hts) in Hcheck.
  rewrite guard_nonempty
    by (intros H; apply app_eq_nil in H as [? _]; contradiction).
  destruct (range _ _ _) as [times | e] eqn:Hrange; [| discriminate].
  cbn [mbind result_bind] in Hcheck.
  rewrite for_each_next in Hcheck by exact Hlen.
  cbn [mbind result_bind mret result_ret] in Hcheck.
  injection Hcheck as <-.
  set (stop := int (List.last timestamps 0%Q + 1)%Q) in *.
  assert (Hhd : hd 0%Q (timestamps ++ timestamps') = hd 0%Q timestamps)
    by (destruct timestamps; [congruence | reflexivity]).
  assert (Hstop : (stop <= int (List.last (timestamps ++ timestamps') 0%Q
                                + 1)%Q)%Z).
  { destruct timestamps' as [| t0 ts'] eqn:E.
    - rewrite app_nil_r. lia.
    - rewrite <- E in *.
      assert (Hin : In (List.last (timestamps ++ timestamps') 0%Q)
                       timestamps').
      { rewrite List_last_app by (rewrite E; discriminate).
        apply List_last_In. rewrite E. discriminate. }
      rewrite List.Forall_forall in Hlater. specialize (Hlater _ Hin).
      apply int_lower_bound.
      apply Qle_trans with (1 := Hlater).
      apply Qle_minus_iff.
      match goal with |- (0 <= ?a + 1 + - ?a)%Q =>
        assert (E1 : (a + 1 + - a == 1)%Q) by ring; rewrite E1 end.
      discriminate. }
  rewrite Hhd.
  destruct (range_extend _ _ _ _ _ Hstep Hstop Hrange) as [rest Hrest].
  rewrite Hrest. cbn [mbind result_bind].
  rewrite for_each_next by (rewrite !length_app; congruence).
  cbn [mbind result_bind mret result_ret].
  rewrite fold_left_app.
  rewrite (later_fold areas areas' timestamps timestamps' minutes epsilon
             cooldown stop Hlen Hmin Hlater times)
    by (apply (range_increasing _ _ _ _ Hstep) in Hrange as [_ Hb];
        eapply Forall_impl; [exact Hb |]; simpl; intros; lia).
  destruct (loop_next_appends (areas ++ areas') (timestamps ++ timestamps')
              minutes epsilon cooldown rest
              (fold_left (loop_next areas timestamps minutes epsilon cooldown)
                 times (None, []))) as [more Hmore].
  exists more. f_equal. exact Hmore.
Qed.

Lemma trend_check_local_witness :
  exists more,
    check_area_trend_timebased
      (sample_areas ++ [Some 50%Q]) (sample_timestamps ++ [270%Q])
      1 (15 # 100) (7 # 10) 30
    = Ok (match check_area_trend_timebased sample_areas sample_timestamps
                  1 (15 # 100) (7 # 10) 30 with
          | Ok r => r
          | Raise _ => []
          end ++ more).
Proof.
  apply trend_check_local.
  - discriminate.
  - reflexivity.
  - reflexivity.
  - discriminate.
  - vm_compute. discriminate.
  - repeat constructor. vm_compute. discriminate.
  - vm_compute. reflexivity.
Defined.

(* ===================================================================== *)
(** * Invariants of the session *)
(* ===================================================================== *)

(** The alert loop writes the log and the event queue only. *)
Lemma alert_loop_data (ts : list Z) (st : app) :
  let st' := fst (alert_loop ts st) in
  raw_areas st' = raw_areas st
  /\ raw_time_stamps st' = raw_time_stamps st
  /\ avg_areas st' = avg_areas st
  /\ avg_time_stamps st' = avg_time_stamps st
  /\ sma_areas st' = sma_areas st
  /\ sma_time_stamps st' = sma_time_stamps st
  /\ inference_start_time st' = inference_start_time st
  /\ is_preview st' = is_preview st
  /\ ng_5_times st' = ng_5_times st
  /\ events st' = events st.
Proof.
  revert st. induction ts as [| t ts IH]; intros st; simpl; [auto 10 |].
  destruct (inference_start_time st) eqn:Hs; [| simpl; auto 10].
  match goal with |- context [alert_loop ts ?s] =>
    destruct (IH s) as (H1 & H2 & H3 & H4 & H5 & H6 & H7 & H8 & H9 & H10) end.
  cbv zeta in *. rewrite H1, H2, H3, H4, H5, H6, H7, H8, H9, H10.
  destruct (negb _); cbn; auto 10.
Qed.

Lemma check_and_handle_ng_data (st : app) :
  let st' := fst (check_and_handle_ng st) in
  raw_areas st' = raw_areas st
  /\ raw_time_stamps st' = raw_time_stamps st
  /\ avg_areas st' = avg_areas st
  /\ avg_time_stamps st' = avg_time_stamps st
  /\ sma_areas st' = sma_areas st
  /\ sma_time_stamps st' = sma_time_stamps st
  /\ inference_start_time st' = inference_start_time st
  /\ is_preview st' = is_preview st
  /\ events st' = events st.
Proof.
  unfold check_and_handle_ng, detect_and_handle.
  destruct (check_area_trend_timebased _ _ 3 _ _ _); [| simpl; auto 10].
  destruct (check_area_trend_timebased _ _ 4 _ _ _); [| simpl; auto 10].
  unfold handle_ng.
  match goal with |- context [alert_loop ?ts ?s] =>
    destruct (alert_loop_data ts s)
      as (H1 & H2 & H3 & H4 & H5 & H6 & H7 & H8 & _ & H10) end.
  cbv zeta in *. rewrite H1, H2, H3, H4, H5, H6, H7, H8, H10. cbn. auto 10.
Qed.

(** The aggregation step appends to both series of a pair, or to none,
    and replaces the smoothed pair as a whole. *)
Lemma calculate_series group_time conf_thres nan_gap now st st' :
  calculate_average_area_with_sma group_time conf_thres nan_gap now st
  = Ok st' ->
  (series_inv st -> series_inv st') /\ is_preview st' = is_preview st.
Proof.
  unfold calculate_average_area_with_sma, series_inv.
  destruct (fold_left _ _ _) as [total cnt].
  destruct (0 <? cnt)%Z.
  - cbn. rewrite length_app. simpl. rewrite Nat.add_1_r. cbn.
    destruct (is_monitoring st) eqn:Hm; cbn; intros [= <-]; cbn;
      (split; [| reflexivity]); intros (Hraw & Havg & Hsma);
      rewrite ?length_map, ?length_seq, ?length_app, ?Havg; simpl;
      repeat split; lia.
  - destruct (last_detect_time st);
      [| intros [= <-]; auto].
    destruct (inference_start_time st); [| discriminate].
    destruct (Qlt_bool _ _); intros [= <-]; cbn;
      (split; [| reflexivity]); intros (Hraw & Havg & Hsma);
      rewrite ?length_app, ?Havg; auto.
Qed.

(** One iteration of the video loop: the series stay paired and the
    start time is kept; the three modes are kept, or all three are
    switched off (an exception ended the loop). *)
Lemma process_video_step_modes now frame bs conf_thres nan_gap st :
  let st' := process_video_step now frame bs conf_thres nan_gap st in
  (series_inv st -> series_inv st')
  /\ inference_start_time st' = inference_start_time st
  /\ (inference_start_time st = None -> sma_areas st' = sma_areas st)
  /\ ((is_inference st' = is_inference st
       /\ is_preview st' = is_preview st
       /\ is_monitoring st' = is_monitoring st)
      \/ (is_inference st = true /\ inference_start_time st = None
          /\ is_inference st' = false /\ is_preview st' = false
          /\ is_monitoring st' = false)).
Proof.
  unfold process_video_step.
  destruct (is_inference st) eqn:Hinf; [| cbn; rewrite ?Hinf; auto 10].
  destruct (inference_start_time st) as [start |] eqn:Hs;
    [| cbn; rewrite ?Hs; auto 10].
  set (st1 := (if negb _ then _ else _)).
  assert (H1 : (series_inv st -> series_inv st1)
               /\ inference_start_time st1 = Some start
               /\ is_inference st1 = true
               /\ is_preview st1 = is_preview st
               /\ is_monitoring st1 = is_monitoring st).
  { subst st1. unfold series_inv.
    destruct (negb _);
      [| destruct (last_detect_time _); [destruct (Qlt_bool _ _) |]];
      cbn; rewrite ?length_app; simpl;
      (split; [intros (-> & -> & ->); auto | auto]). }
  clearbody st1. destruct H1 as (Hser & Hs1 & Hi1 & Hp1 & Hm1).
  destruct (length (frame_group st1) =? 2)%nat.
  2:{ rewrite Hs1, Hi1, Hp1, Hm1. split; [exact Hser |].
      split; [reflexivity |]. split; [discriminate |]. auto. }
  destruct (calculate_returns (if (length (frame_times st1) =? 0)%nat
                               then (now - start)%Q
                               else mean (frame_times st1))
              conf_thres nan_gap now st1 start Hs1) as [st2 Hc].
  rewrite Hc.
  pose proof (calculate_untouched _ _ _ _ _ _ Hc)
    as ((_ & _ & _ & Hs2 & _) & Hi2 & Hm2 & _).
  cbn. rewrite Hs2, Hi2, Hm2, Hs1, Hi1, Hm1.
  destruct (calculate_series _ _ _ _ _ _ Hc) as [Hser2 Hp2].
  rewrite Hp2, Hp1. split.
  - intros H. apply Hser, Hser2 in H. exact H.
  - split; [reflexivity |]. split; [discriminate |]. auto.
Qed.

Lemma reachable_session_inv (st : app) :
  reachable st -> series_inv st /\ mode_inv st.
Proof.
  induction 1 as [log | a st _ [IHs IHm]].
  { unfold series_inv, mode_inv. simpl. repeat split; auto; discriminate. }
  pose proof IHs as (Hraw & Havg & Hsma).
  pose proof IHm as (Hmon & Hinf & Hnone).
  destruct a; cbn [step].
  - unfold start_preview. destruct (negb source_ok); [auto |].
    unfold series_inv, mode_inv. cbn. auto.
  - unfold start_inference. destruct (negb ready); [auto |].
    unfold series_inv, mode_inv. cbn.
    repeat split; auto; discriminate.
  - unfold stop_inference, series_inv, mode_inv. cbn.
    repeat split; auto; discriminate.
  - unfold stop_processing, series_inv, mode_inv. cbn.
    repeat split; auto; discriminate.
  - unfold clear_all_data.
    destruct (is_inference st || is_preview st) eqn:E;
      [destruct (negb confirmed); [auto |] |];
      unfold series_inv, mode_inv; cbn.
    + repeat split; auto; discriminate.
    + repeat split; auto.
  - unfold auto_reset_system, series_inv, mode_inv. cbn.
    repeat split; auto; discriminate.
  - unfold toggle_monitoring.
    destruct (is_inference st) eqn:Ei; [| auto]. cbn.
    destruct (is_monitoring st); cbn;
      [| destruct (current_frame st); cbn];
      unfold series_inv, mode_inv; cbn; rewrite ?Ei;
      repeat split; auto; discriminate.
  - unfold series_inv, mode_inv. cbn. auto.
  - destruct (process_video_step_modes now frame bs conf_thres nan_gap st)
      as (Hser & Hst & Hsm & Hmodes).
    split; [exact (Hser IHs) |].
    unfold mode_inv. rewrite Hst.
    destruct Hmodes as [(-> & _ & ->) | (_ & Hn & -> & _ & ->)].
    + repeat split; auto. intros H. rewrite (Hsm H). auto.
    + repeat split; try discriminate.
      intros H. rewrite (Hsm H). auto.
  - unfold run_callback. destruct (after_queue st) as [| cb rest];
      [auto |].
    destruct cb as [| r].
    + destruct (check_and_handle_ng_flags (set_after_queue rest st))
        as (Hi & Hm & _).
      destruct (check_and_handle_ng_data (set_after_queue rest st))
        as (H1 & H2 & H3 & H4 & H5 & H6 & H7 & _).
      cbv zeta in *. unfold series_inv, mode_inv.
      rewrite Hi, Hm, H1, H2, H3, H4, H5, H6, H7. cbn. auto 10.
    + destruct (show_non_modal_warning_effect r r
                  (set_after_queue rest st))
        as (_ & _ & _ & _ & _ & _ & Hs & Hi & Hm & _).
      unfold mode_inv. rewrite Hs, Hi, Hm.
      unfold show_non_modal_warning, series_inv. cbn.
      destruct (start_monitor_image st); [destruct (current_frame st) |];
        cbn; auto 10.
Qed.

Lemma run_reachable (acts : list action) (st : app) :
  reachable st -> reachable (run acts st).
Proof.
  revert st. induction acts as [| a acts IH]; intros st H; [exact H |].
  apply IH. apply reachable_step. exact H.
Qed.

(** X14. In every reachable state each area series has the length of
    its timestamp series: raw, averaged and smoothed. *)
Theorem reachable_series_inv (st : app) : reachable st -> series_inv st.
Proof. intros H. apply reachable_session_inv. exact H. Qed.

Lemma reachable_series_inv_witness :
  series_inv (run run_with_gap (init [])).
Proof.
  apply reachable_series_inv.
  apply run_reachable, reachable_init.
Defined.

(** X15. In every reachable state monitoring is on only while inference
    runs, inference runs only with a start time recorded, and the
    smoothed series is empty as long as no start time was recorded. *)
Theorem reachable_mode_inv (st : app) : reachable st -> mode_inv st.
Proof. intros H. apply reachable_session_inv. exact H. Qed.

Lemma reachable_mode_inv_witness :
  mode_inv (run run_with_gap (init [])).
Proof.
  apply reachable_mode_inv.
  apply run_reachable, reachable_init.
Defined.

Lemma check_returns (areas : list float) (timestamps : list Q)
    (minutes epsilon overlap_ratio cooldown : Q) :
  length areas = length timestamps ->
  (1 <= step_size minutes overlap_ratio)%Z ->
  exists results,
    check_area_trend_timebased areas timestamps minutes epsilon
      overlap_ratio cooldown = Ok results.
Proof.
  intros Hlen Hstep. unfold check_area_trend_timebased.
  destruct ((length areas =? 0)%nat || (length timestamps =? 0)%nat);
    [eexists; reflexivity |].
  unfold range.
  destruct (step_size minutes overlap_ratio =? 0)%Z eqn:E;
    [apply Z.eqb_eq in E; lia |].
  cbn [mbind result_bind]. rewrite for_each_next by exact Hlen.
  cbn [mbind result_bind mret result_ret]. eauto.
Qed.

Lemma handle_ng_nothing (st : app) : snd (handle_ng [] [] st) = None.
Proof.
  unfold handle_ng. cbn.
  assert (E : (∅ ∖ ng_5_times st : gset Z) = ∅).
  { apply set_eq. intros x. rewrite elem_of_difference.
    split; [intros [H _]; exact H |].
    intros H. apply elem_of_empty in H. contradiction. }
  rewrite E, elements_empty. reflexivity.
Qed.

(** X16. In every reachable state [check_and_handle_ng] runs to its end:
    neither the two detector calls nor the formatting of an alert
    raise. *)
Theorem check_and_handle_ng_returns (st : app) :
  reachable st -> snd (check_and_handle_ng st) = None.
Proof.
  intros Hr.
  destruct (reachable_session_inv st Hr)
    as ((_ & _ & Hsma) & (_ & _ & Hnone)).
  unfold check_and_handle_ng, detect_and_handle.
  destruct (inference_start_time st) as [start |] eqn:Hs.
  - assert (Hlen : length (clean_data (sma_areas st) (sma_time_stamps st) 3)
                   = length (sma_time_stamps st))
      by (rewrite clean_data_same_length; exact Hsma).
    destruct (check_returns _ _ 3 (15 # 100) (7 # 10) 180 Hlen)
      as [results_3 ->]; [vm_compute; discriminate |].
    destruct (check_returns _ _ 4 (5 # 100) (7 # 10) 210 Hlen)
      as [results_5 ->]; [vm_compute; discriminate |].
    rewrite (handle_ng_closed start) by exact Hs. reflexivity.
  - rewrite (Hnone eq_refl). apply handle_ng_nothing.
Qed.

Lemma check_and_handle_ng_returns_witness :
  snd (check_and_handle_ng alert_pending_state) = None.
Proof.
  apply check_and_handle_ng_returns.
  apply run_reachable, reachable_init.
Defined.



Lemma log_after_snoc (start : Q) (ts : list Z) (t : Z)
    (log : list csv_line) :
  log_after start (ts ++ [t]) log
  = (if (length (log_after start ts log) =? 0)%nat
     then log_after start ts log ++ [Header]
     else log_after start ts log)
    ++ [Row (range_of start t) (5 * 60)].
Proof. unfold log_after. rewrite fold_left_app. reflexivity. Qed.

Lemma log_after_prefix (start : Q) (ts : list Z) (log : list csv_line) :
  log `prefix_of` log_after start ts log.
Proof.
  induction ts as [| t ts IH] using rev_ind; [reflexivity |].
  rewrite log_after_snoc. etransitivity; [exact IH |].
  destruct (length _ =? 0)%nat.
  - rewrite <- app_assoc. apply prefix_app_r. reflexivity.
  - apply prefix_app_r. reflexivity.
Qed.

Lemma log_after_row (start : Q) (ts : list Z) (t : Z)
    (log : list csv_line) :
  t ∈ ts -> Row (range_of start t) (5 * 60) ∈ log_after start ts log.
Proof.
  induction ts as [| t' ts IH] using rev_ind.
  - intros H. apply elem_of_nil in H. contradiction.
  - intros H. rewrite log_after_snoc.
    apply elem_of_app in H as [H | H].
    + apply elem_of_app. left.
      destruct (length _ =? 0)%nat;
        [apply elem_of_app; left |]; apply IH; exact H.
    + apply list_elem_of_singleton in H as ->.
      apply elem_of_app. right. apply list_elem_of_singleton. reflexivity.
Qed.

Lemma log_after_well_formed (start : Q) (ts : list Z)
    (log : list csv_line) :
  well_formed_log log -> well_formed_log (log_after start ts log).
Proof.
  intros Hwf. induction ts as [| t ts IH] using rev_ind; [exact Hwf |].
  rewrite log_after_snoc. right.
  destruct IH as [-> | (rows & -> & Hrows)].
  - exists [Row (range_of start t) (5 * 60)]. split; [reflexivity |].
    constructor; [eauto | constructor].
  - exists (rows ++ [Row (range_of start t) (5 * 60)]).
    split; [reflexivity |].
    apply Forall_app. split; [exact Hrows |].
    constructor; [eauto | constructor].
Qed.

Lemma alert_loop_log (ts : list Z) (st : app) :
  ng_log (fst (alert_loop ts st))
  = match inference_start_time st with
    | Some start => log_after start ts (ng_log st)
    | None => ng_log st
    end.
Proof.
  destruct (inference_start_time st) as [start |] eqn:Hs.
  - rewrite (alert_loop_closed start) by exact Hs. reflexivity.
  - destruct ts as [| t ts]; simpl; [reflexivity |].
    rewrite Hs. reflexivity.
Qed.

(** What a call of [check_and_handle_ng] does to the log: it appends
    the rows of some alert times, or nothing. *)
Lemma check_and_handle_ng_log (st : app) :
  exists start ts,
    ng_log (fst (check_and_handle_ng st))
    = log_after start ts (ng_log st).
Proof.
  unfold check_and_handle_ng, detect_and_handle.
  destruct (check_area_trend_timebased _ _ 3 _ _ _) as [r3 |];
    [| exists 0%Q, []; reflexivity].
  destruct (check_area_trend_timebased _ _ 4 _ _ _) as [r5 |];
    [| exists 0%Q, []; reflexivity].
  unfold handle_ng. rewrite alert_loop_log. cbn.
  destruct (inference_start_time st) as [start |].
  - eauto.
  - exists 0%Q, []. reflexivity.
Qed.

Lemma step_log (a : action) (st : app) :
  exists start ts, ng_log (step a st) = log_after start ts (ng_log st).
Proof.
  assert (Hsame : forall st', ng_log st' = ng_log st ->
                  exists start ts,
                    ng_log st' = log_after start ts (ng_log st))
    by (intros st' ->; exists 0%Q, []; reflexivity).
  destruct a; cbn [step].
  - apply Hsame. unfold start_preview. destruct (negb _); reflexivity.
  - apply Hsame. unfold start_inference. destruct (negb _); reflexivity.
  - apply Hsame. reflexivity.
  - apply Hsame. reflexivity.
  - apply Hsame. unfold clear_all_data.
    destruct (_ || _); [destruct (negb _) |]; reflexivity.
  - apply Hsame. reflexivity.
  - apply Hsame. unfold toggle_monitoring.
    destruct (negb _); [reflexivity |]. cbn.
    destruct (negb _); [destruct (current_frame st) |]; reflexivity.
  - apply Hsame. reflexivity.
  - apply Hsame.
    destruct (process_video_step_untouched now frame bs conf_thres
                nan_gap st) as ((H & _) & _). exact H.
  - unfold run_callback. destruct (after_queue st) as [| cb rest];
      [apply Hsame; reflexivity |].
    destruct cb as [| r].
    + apply (check_and_handle_ng_log (set_after_queue rest st)).
    + apply Hsame.
      destruct (show_non_modal_warning_effect r r
                  (set_after_queue rest st)) as (_ & _ & _ & H & _).
      exact H.
Qed.

Lemma step_events (a : action) (st : app) :
  events st `prefix_of` events (step a st).
Proof.
  assert (Hsame : forall st', events st' = events st ->
                  events st `prefix_of` events st')
    by (intros st' ->; reflexivity).
  destruct a; cbn [step].
  - apply Hsame. unfold start_preview. destruct (negb _); reflexivity.
  - apply Hsame. unfold start_inference. destruct (negb _); reflexivity.
  - apply Hsame. reflexivity.
  - apply Hsame. reflexivity.
  - apply Hsame. unfold clear_all_data.
    destruct (_ || _); [destruct (negb _) |]; reflexivity.
  - apply Hsame. reflexivity.
  - apply Hsame. unfold toggle_monitoring.
    destruct (negb _); [reflexivity |]. cbn.
    destruct (negb _); [destruct (current_frame st) |]; reflexivity.
  - apply Hsame. reflexivity.
  - apply Hsame.
    destruct (process_video_step_untouched now frame bs conf_thres
                nan_gap st) as ((_ & H & _) & _). exact H.
  - unfold run_callback. destruct (after_queue st) as [| cb rest];
      [apply Hsame; reflexivity |].
    destruct cb as [| r].
    + apply Hsame.
      destruct (check_and_handle_ng_data (set_after_queue rest st))
        as (_ & _ & _ & _ & _ & _ & _ & _ & H).
      exact H.
    + unfold show_non_modal_warning. cbn.
      destruct (start_monitor_image st); [destruct (current_frame st) |];
        cbn; rewrite <- !app_assoc; apply prefix_app_r; reflexivity.
Qed.

(** X18. The log file and the list of events only grow: whatever the
    actions, the log before is a prefix of the log after, and the events
    before are a prefix of the events after. *)
Theorem log_and_events_grow (acts : list action) (st : app) :
  ng_log st `prefix_of` ng_log (run acts st)
  /\ events st `prefix_of` events (run acts st).
Proof.
  revert st. induction acts as [| a acts IH]; intros st.
  - split; reflexivity.
  - change (run (a :: acts) st) with (run acts (step a st)).
    destruct (IH (step a st)) as [Hl He]. split.
    + etransitivity; [| exact Hl].
      destruct (step_log a st) as (start & ts & ->).
      apply log_after_prefix.
    + etransitivity; [| exact He]. apply step_events.
Qed.

(** X19. Starting from a well-formed log file (empty, or the header
    followed by rows of duration 300), the log file stays well formed:
    the header is written once, on the first row, and every row has
    duration 300. *)
Theorem log_stays_well_formed (acts : list action) (st : app) :
  well_formed_log (ng_log st) -> well_formed_log (ng_log (run acts st)).
Proof.
  revert st. induction acts as [| a acts IH]; intros st H; [exact H |].
  change (run (a :: acts) st) with (run acts (step a st)).
  apply IH. destruct (step_log a st) as (start & ts & ->).
  apply log_after_well_formed. exact H.
Qed.

Lemma log_stays_well_formed_witness :
  well_formed_log (ng_log (run run_alert_no_snapshot (init []))).
Proof.
  apply log_stays_well_formed. left. reflexivity.
Defined.

Lemma alerts_logged_same (st st' : app) :
  ng_5_times st' = ng_5_times st ->
  inference_start_time st' = inference_start_time st ->
  ng_log st' = ng_log st ->
  alerts_logged st -> alerts_logged st'.
Proof.
  unfold alerts_logged. intros -> -> ->. auto.
Qed.

Lemma check_and_handle_ng_alerts (st : app) :
  (inference_start_time st = None -> sma_areas st = []) ->
  alerts_logged st -> alerts_logged (fst (check_and_handle_ng st)).
Proof.
  intros Hnone IH. unfold check_and_handle_ng, detect_and_handle.
  destruct (inference_start_time st) as [start |] eqn:Hs.
  - destruct (check_area_trend_timebased _ _ 3 _ _ _) as [r3 |];
      [| exact IH].
    destruct (check_area_trend_timebased _ _ 4 _ _ _) as [r5 |];
      [| exact IH].
    rewrite (handle_ng_closed start) by exact Hs.
    unfold alerts_logged. cbn. intros t Ht.
    exists start. split; [exact Hs |].
    destruct (decide (t ∈ ng_5_times st)) as [Hold | Hnew].
    + destruct (IH t Hold) as (start' & Hs' & Hrow).
      rewrite Hs in Hs'. injection Hs' as <-.
      destruct (log_after_prefix start
                  (elements (list_to_set (extract_ng_markers r5)
                             ∖ ng_5_times st : gset Z))
                  (ng_log st)) as [k ->].
      apply elem_of_app. left. exact Hrow.
    + apply log_after_row. apply elem_of_elements.
      apply elem_of_difference. split; [| exact Hnew].
      apply elem_of_union in Ht as [Ht | Ht]; [contradiction | exact Ht].
  - rewrite (Hnone eq_refl). cbn. unfold handle_ng. cbn.
    assert (E : (∅ ∖ ng_5_times st : gset Z) = ∅).
    { apply set_eq. intros x. rewrite elem_of_difference.
      split; [intros [H _]; exact H |].
      intros H. apply elem_of_empty in H. contradiction. }
    rewrite E, elements_empty. cbn.
    unfold alerts_logged. cbn. intros t Ht.
    apply elem_of_union in Ht as [Ht | Ht];
      [| apply elem_of_empty in Ht; contradiction].
    exact (IH t Ht).
Qed.

Lemma reachable_alerts_logged (st : app) :
  reachable st -> alerts_logged st.
Proof.
  induction 1 as [log | a st Hr IH].
  { intros t Ht. apply elem_of_empty in Ht. contradiction. }
  assert (Hempty : forall st', ng_5_times st' = ∅ -> alerts_logged st').
  { intros st' E t Ht. rewrite E in Ht.
    apply elem_of_empty in Ht. contradiction. }
  destruct a; cbn [step].
  - unfold start_preview. destruct (negb _); [exact IH |].
    eapply alerts_logged_same; [| | | exact IH]; reflexivity.
  - unfold start_inference. destruct (negb _); [exact IH |].
    apply Hempty. reflexivity.
  - eapply alerts_logged_same; [| | | exact IH]; reflexivity.
  - eapply alerts_logged_same; [| | | exact IH]; reflexivity.
  - unfold clear_all_data.
    destruct (_ || _); [destruct (negb _); [exact IH |] |];
      apply Hempty; reflexivity.
  - eapply alerts_logged_same; [| | | exact IH]; reflexivity.
  - unfold toggle_monitoring. destruct (negb _); [exact IH |]. cbn.
    destruct (negb _); [destruct (current_frame st) |];
      (eapply alerts_logged_same; [| | | exact IH]; reflexivity).
  - eapply alerts_logged_same; [| | | exact IH]; reflexivity.
  - destruct (process_video_step_untouched now frame bs conf_thres
                nan_gap st) as ((Hl & _ & Hn & Hs & _) & _).
    eapply alerts_logged_same; [exact Hn | exact Hs | exact Hl | exact IH].
  - unfold run_callback. destruct (after_queue st) as [| cb rest];
      [exact IH |].
    destruct cb as [| r].
    + apply check_and_handle_ng_alerts.
      * destruct (reachable_session_inv st Hr) as (_ & (_ & _ & Hnone)).
        exact Hnone.
      * eapply alerts_logged_same; [| | | exact IH]; reflexivity.
    + destruct (show_non_modal_warning_effect r r
                  (set_after_queue rest st))
        as (_ & _ & _ & Hl & _ & Hn & Hs & _).
      eapply alerts_logged_same; [exact Hn | exact Hs | exact Hl | exact IH].
Qed.

(** X20. In every reachable state each alert time of the session has its
    row in the log file, under the start time of the session. *)
Theorem alerts_have_rows (st : app) : reachable st -> alerts_logged st.
Proof. apply reachable_alerts_logged. Qed.

Lemma alerts_have_rows_witness :
  ng_5_times (run run_alert_no_snapshot (init [])) <> ∅
  /\ alerts_logged (run run_alert_no_snapshot (init [])).
Proof.
  split.
  - vm_compute. discriminate.
  - apply alerts_have_rows. apply run_reachable, reachable_init.
Defined.

(* ===================================================================== *)
(** * The loop of the video thread *)
(* ===================================================================== *)

Lemma loop_failed (stream_type : stream) (conf_thres nan_gap : Q)
    (consecutive_failures : nat) (rest : list capture) (st : app) :
  running st ->
  process_video_loop stream_type conf_thres nan_gap consecutive_failures
    (ReadFailed :: rest) st
  = if bool_decide (stream_type = Rtsp)
       && (S consecutive_failures <? max_failures)%nat
    then process_video_loop stream_type conf_thres nan_gap
           (S consecutive_failures) rest st
    else Some (stop_processing st).
Proof. unfold running. intros H. simpl. rewrite H. reflexivity. Qed.

Lemma loop_retries (conf_thres nan_gap : Q) (k consecutive_failures : nat)
    (rest : list capture) (st : app) :
  running st ->
  (consecutive_failures + k < max_failures)%nat ->
  process_video_loop Rtsp conf_thres nan_gap consecutive_failures
    (repeat ReadFailed k ++ rest) st
  = process_video_loop Rtsp conf_thres nan_gap (consecutive_failures + k)
      rest st.
Proof.
  intros Hrun. revert consecutive_failures.
  induction k as [| k IH]; intros cf Hlt.
  - rewrite Nat.add_0_r. reflexivity.
  - change (repeat ReadFailed (S k) ++ rest)
      with (ReadFailed :: (repeat ReadFailed k ++ rest)).
    rewrite loop_failed by exact Hrun.
    assert (E : (S cf <? max_failures)%nat = true)
      by (apply Nat.ltb_lt; lia).
    rewrite E, bool_decide_eq_true_2 by reflexivity. cbn [andb].
    rewrite IH by lia. f_equal. lia.
Qed.

(** X21. On an RTSP stream, fewer than [max_failures] failed reads in a
    row are retried and leave no trace: the loop goes on with the next
    frame read as if no read had failed, and the count starts again
    from zero. *)
Theorem rtsp_failures_tolerated (conf_thres nan_gap : Q)
    (k consecutive_failures : nat) (now : Q) (frame : image) (bs : boxes)
    (rest : list capture) (st : app) :
  running st ->
  (consecutive_failures + k < max_failures)%nat ->
  process_video_loop Rtsp conf_thres nan_gap consecutive_failures
    (repeat ReadFailed k ++ ReadOk now frame bs :: rest) st
  = process_video_loop Rtsp conf_thres nan_gap 0 rest
      (process_video_step now frame bs conf_thres nan_gap st).
Proof.
  intros Hrun Hlt. rewrite loop_retries by assumption.
  unfold running in Hrun. simpl. rewrite Hrun. reflexivity.
Qed.

Lemma rtsp_failures_tolerated_witness :
  process_video Rtsp (1 # 2) 10
    (repeat ReadFailed 9 ++ [ReadOk 1 (Frame 1) None; Closed])
    (start_preview true (init []))
  = process_video Rtsp (1 # 2) 10 [Closed]
      (process_video_step 1 (Frame 1) None (1 # 2) 10
         (start_preview true (init []))).
Proof.
  unfold process_video.
  apply (rtsp_failures_tolerated (1 # 2) 10 9 0).
  - reflexivity.
  - unfold max_failures. lia.
Defined.

(** X22. A failed read ends the loop at once when the stream is not an
    RTSP stream; on an RTSP stream the loop ends with the failed read
    that brings the count of failures in a row to [max_failures].  In
    both cases [stop_processing] runs on the state as it is. *)
Theorem read_failures_stop (stream_type : stream) (conf_thres nan_gap : Q)
    (k consecutive_failures : nat) (rest : list capture) (st : app) :
  running st ->
  (stream_type <> Rtsp ->
   process_video_loop stream_type conf_thres nan_gap consecutive_failures
     (ReadFailed :: rest) st
   = Some (stop_processing st))
  /\ ((consecutive_failures + S k = max_failures)%nat ->
      process_video_loop Rtsp conf_thres nan_gap consecutive_failures
        (repeat ReadFailed (S k) ++ rest) st
      = Some (stop_processing st)).
Proof.
  intros Hrun. split.
  - intros Hne. rewrite loop_failed by exact Hrun.
    rewrite bool_decide_eq_false_2 by exact Hne. reflexivity.
  - intros Hk.
    replace (S k) with (k + 1)%nat by lia.
    rewrite repeat_app, <- app_assoc.
    rewrite loop_retries by (assumption || lia).
    change (repeat ReadFailed 1 ++ rest) with (ReadFailed :: rest).
    rewrite loop_failed by exact Hrun.
    assert (E : (S (consecutive_failures + k) <? max_failures)%nat = false)
      by (apply Nat.ltb_ge; lia).
    rewrite E, andb_false_r. reflexivity.
Qed.

Lemma read_failures_stop_witness :
  process_video Rtsp (1 # 2) 10
    (repeat ReadFailed 10 ++ [ReadOk 1 (Frame 1) None])
    (start_preview true (init []))
  = Some (stop_processing (start_preview true (init []))).
Proof.
  unfold process_video.
  refine (proj2 (read_failures_stop Rtsp (1 # 2) 10 9 0
                   [ReadOk 1 (Frame 1) None]
                   (start_preview true (init [])) _) _).
  - reflexivity.
  - reflexivity.
Defined.

Lemma run_snoc (acts : list action) (a : action) (st : app) :
  run (acts ++ [a]) st = step a (run acts st).
Proof. unfold run. rewrite fold_left_app. reflexivity. Qed.

(** X23. When [process_video] returns, the state is the one the session
    reaches by the iterations on the frames read in the turns taken,
    followed by [stop_processing]: inference, preview and monitoring are
    off. *)
Theorem process_video_is_a_run (stream_type : stream)
    (conf_thres nan_gap : Q) (consecutive_failures : nat)
    (source : list capture) (st st' : app) :
  process_video_loop stream_type conf_thres nan_gap consecutive_failures
    source st = Some st' ->
  (exists turns,
      (turns <= length source)%nat
      /\ st' = run (frames_read conf_thres nan_gap (take turns source)
                    ++ [StopProcessing]) st)
  /\ is_inference st' = false
  /\ is_preview st' = false
  /\ is_monitoring st' = false.
Proof.
  revert consecutive_failures st.
  induction source as [| c rest IH]; intros cf st; simpl.
  - destruct (negb _); [| discriminate]. intros [= <-].
    split; [| auto]. exists 0%nat. split; [lia | reflexivity].
  - destruct (negb _).
    { intros [= <-]. split; [| auto].
      exists 0%nat. split; [lia | reflexivity]. }
    destruct c as [| | now frame bs].
    + intros [= <-]. split; [| auto].
      exists 0%nat. split; [lia | reflexivity].
    + destruct (_ && _).
      * intros H. apply IH in H as ((turns & Hle & ->) & Hflags).
        split; [| exact Hflags].
        exists (S turns). split; [lia | reflexivity].
      * intros [= <-]. split; [| auto].
        exists 0%nat. split; [lia | reflexivity].
    + intros H. apply IH in H as ((turns & Hle & ->) & Hflags).
      split; [| exact Hflags].
      exists (S turns). split; [lia | reflexivity].
Qed.

Lemma process_video_is_a_run_witness :
  is_inference
    (run (frames_read (1 # 2) 10
            (take 2 [ReadOk 0 (Frame 1) (Some [box_of_area 10]);
                     ReadOk 1 (Frame 2) None; ReadFailed])
          ++ [StopProcessing])
       (start_inference true 0 (init [])))
  = false.
Proof.
  destruct (process_video_is_a_run Video (1 # 2) 10 0
              [ReadOk 0 (Frame 1) (Some [box_of_area 10]);
               ReadOk 1 (Frame 2) None; ReadFailed]
              (start_inference true 0 (init []))
              (run (frames_read (1 # 2) 10
                      (take 2 [ReadOk 0 (Frame 1) (Some [box_of_area 10]);
                               ReadOk 1 (Frame 2) None; ReadFailed])
                    ++ [StopProcessing])
                 (start_inference true 0 (init []))))
    as (_ & H & _).
  - vm_compute. reflexivity.
  - exact H.
Defined.

Lemma same_records_stop (st : app) : same_records st (stop_processing st).
Proof. unfold same_records. cbn. auto 15. Qed.

(** X24. While inference is off the video loop only shows frames: when
    [process_video] returns, the series, the alert times, the deferred
    calls, the log and the events are as they were. *)
Theorem preview_records_nothing (stream_type : stream)
    (conf_thres nan_gap : Q) (consecutive_failures : nat)
    (source : list capture) (st st' : app) :
  is_inference st = false ->
  process_video_loop stream_type conf_thres nan_gap consecutive_failures
    source st = Some st' ->
  same_records st st'.
Proof.
  revert consecutive_failures st.
  induction source as [| c rest IH]; intros cf st Hinf; simpl.
  - destruct (negb _); [| discriminate]. intros [= <-].
    apply same_records_stop.
  - destruct (negb _); [intros [= <-]; apply same_records_stop |].
    destruct c as [| | now frame bs].
    + intros [= <-]. apply same_records_stop.
    + destruct (_ && _); [apply IH; exact Hinf |].
      intros [= <-]. apply same_records_stop.
    + unfold process_video_step. rewrite Hinf. intros H.
      apply IH in H; [| exact Hinf].
      unfold same_records in *. cbn in H. exact H.
Qed.

Lemma preview_records_nothing_witness :
  same_records (start_preview true (init []))
               (stop_processing
                  (process_video_step 1 (Frame 1) None (1 # 2) 10
                     (start_preview true (init [])))).
Proof.
  apply (preview_records_nothing Video (1 # 2) 10 0
           [ReadOk 1 (Frame 1) None; ReadFailed]).
  - reflexivity.
  - reflexivity.
Defined.

(* ===================================================================== *)
(** * The deferred calls *)
(* ===================================================================== *)

Lemma alert_loop_queue (ts : list Z) (st : app) :
  exists more,
    after_queue (fst (alert_loop ts st)) = after_queue st ++ more.
Proof.
  destruct (inference_start_time st) as [start |] eqn:Hs.
  - rewrite (alert_loop_closed start) by exact Hs. cbn. eauto.
  - exists []. rewrite app_nil_r.
    destruct ts as [| t ts]; simpl; [reflexivity |].
    rewrite Hs. reflexivity.
Qed.

Lemma check_and_handle_ng_queue (st : app) :
  exists more,
    after_queue (fst (check_and_handle_ng st)) = after_queue st ++ more.
Proof.
  unfold check_and_handle_ng, detect_and_handle.
  destruct (check_area_trend_timebased _ _ 3 _ _ _) as [r3 |];
    [| exists []; rewrite app_nil_r; reflexivity].
  destruct (check_area_trend_timebased _ _ 4 _ _ _) as [r5 |];
    [| exists []; rewrite app_nil_r; reflexivity].
  unfold handle_ng.
  match goal with |- context [alert_loop ?ts ?s] =>
    destruct (alert_loop_queue ts s) as [more ->] end.
  cbn. eauto.
Qed.

Lemma count_cons {A} (f : A -> bool) (x : A) (l : list A) :
  count f (x :: l) = ((if f x then 1 else 0) + count f l)%nat.
Proof. unfold count. simpl. destruct (f x); reflexivity. Qed.

(** The event loop runs the calls that are pending, in their order;
    the calls they defer come after them. *)
Lemma run_pending (rs : time_range) (q extra : list callback) (st : app) :
  after_queue st = q ++ extra ->
  let st' := run (repeat RunCallback (length q)) st in
  (exists more, after_queue st' = extra ++ more)
  /\ beeps_for rs st' = (beeps_for rs st + count (is_warning_for rs) q)%nat
  /\ windows_for rs st'
     = (windows_for rs st + count (is_warning_for rs) q)%nat.
Proof.
  revert extra st. induction q as [| cb q IH]; intros extra st Hq.
  - simpl. split; [exists []; rewrite app_nil_r; exact Hq |].
    unfold count. simpl. lia.
  - cbn [length repeat].
    change (run (RunCallback :: repeat RunCallback (length q)) st)
      with (run (repeat RunCallback (length q)) (run_callback st)).
    rewrite count_cons.
    unfold run_callback. rewrite Hq. cbn [List.app].
    destruct cb as [| r]; cbn [is_warning_for].
    + set (st0 := set_after_queue (q ++ extra) st).
      destruct (check_and_handle_ng_queue st0) as [more Hmore].
      destruct (check_and_handle_ng_data st0)
        as (_ & _ & _ & _ & _ & _ & _ & _ & Hev).
      cbv zeta in Hev.
      assert (Hq' : after_queue (fst (check_and_handle_ng st0))
                    = q ++ (extra ++ more))
        by (rewrite Hmore; subst st0; cbn; rewrite app_assoc; reflexivity).
      destruct (IH _ _ Hq') as ((more' & Hm') & Hb & Hw).
      cbv zeta in *. split; [| split].
      * exists (more ++ more'). rewrite Hm', app_assoc. reflexivity.
      * rewrite Hb. unfold beeps_for. rewrite Hev. reflexivity.
      * rewrite Hw. unfold windows_for. rewrite Hev. reflexivity.
    + set (st0 := set_after_queue (q ++ extra) st).
      destruct (show_non_modal_warning_effect r rs st0)
        as (Hb0 & Hw0 & _ & _ & Hq0 & _).
      cbv zeta in Hb0, Hw0, Hq0.
      destruct (IH extra (show_non_modal_warning r st0) Hq0)
        as (Hm' & Hb & Hw).
      cbv zeta in *. split; [exact Hm' |].
      rewrite Hb, Hw, Hb0, Hw0.
      replace (beeps_for rs st0) with (beeps_for rs st) by reflexivity.
      replace (windows_for rs st0) with (windows_for rs st) by reflexivity.
      destruct (bool_decide (r = rs)); lia.
Qed.

(** X25. Every deferred warning is shown: once the event loop has run as
    many calls as were pending, each pending warning has given its beep
    and its warning window, whatever the NG checks that ran in between
    have deferred. *)
Theorem pending_warnings_are_shown (rs : time_range) (st : app) :
  let st' := run (repeat RunCallback (length (after_queue st))) st in
  beeps_for rs st' = (beeps_for rs st + pending_for rs st)%nat
  /\ windows_for rs st' = (windows_for rs st + pending_for rs st)%nat.
Proof.
  destruct (run_pending rs (after_queue st) [] st) as (_ & Hb & Hw).
  - rewrite app_nil_r. reflexivity.
  - exact (conj Hb Hw).
Qed.

(* ===================================================================== *)
(** * From a steady scene to the alert *)
(* ===================================================================== *)

Lemma steady_no_missing (c : Q) (s : list float) :
  Forall (fun v => feq v (Some c)) s -> no_missing s.
Proof.
  unfold no_missing. intros H. eapply Forall_impl; [exact H |].
  intros [q |] Hq; [reflexivity | contradiction].
Qed.

(** X26. A steady scene raises the alert: in a reachable state whose
    smoothed series stays at one positive value, as soon as the
    four-minute detector has a window to evaluate, [check_and_handle_ng]
    records the first evaluation time as an alert time and the log file
    holds its row. *)
Theorem steady_scene_alerts (st : app) (c start : Q) (e : WindowEvaluation)
    (rest : list WindowEvaluation) :
  reachable st ->
  (0 < c)%Q ->
  Forall (fun v => feq v (Some c)) (sma_areas st) ->
  inference_start_time st = Some start ->
  check_area_trend_timebased (sma_areas st) (sma_time_stamps st)
    4 (5 # 100) (7 # 10) 210 = Ok (e :: rest) ->
  let st' := fst (check_and_handle_ng st) in
  snd (check_and_handle_ng st) = None
  /\ time_sec e ∈ ng_5_times st'
  /\ Row (range_of start (time_sec e)) (5 * 60) ∈ ng_log st'.
Proof.
  intros Hr Hc Hsteady Hs H5.
  destruct (reachable_session_inv st Hr) as ((_ & _ & Hlen) & _).
  pose proof (reachable_alerts_logged st Hr) as Hlogged.
  unfold check_and_handle_ng, detect_and_handle.
  rewrite (clean_data_no_missing_id _ _ _ (steady_no_missing c _ Hsteady)).
  destruct (check_returns (sma_areas st) (sma_time_stamps st)
              3 (15 # 100) (7 # 10) 180 Hlen) as [r3 ->];
    [vm_compute; discriminate |].
  rewrite H5. rewrite (handle_ng_closed start) by exact Hs.
  cbn [fst snd ng_5_times ng_log set_after_queue set_ng_log
       set_ng_5_times set_ng_3_times].
  assert (Hng : status e = NG).
  { assert (Heps : (0 < 5 # 100)%Q) by reflexivity.
    apply (steady_flagged c _ _ _ _ _ _ _ Hc Heps Hsteady H5).
    reflexivity. }
  assert (Hin : time_sec e ∈ (list_to_set (extract_ng_markers (e :: rest))
                               : gset Z)).
  { apply elem_of_list_to_set. unfold extract_ng_markers. simpl.
    rewrite bool_decide_eq_true_2 by exact Hng.
    apply list_elem_of_here. }
  split; [reflexivity |]. split.
  - apply elem_of_union. right. exact Hin.
  - destruct (decide (time_sec e ∈ ng_5_times st)) as [Hold | Hnew].
    + destruct (Hlogged _ Hold) as (start' & Hs' & Hrow).
      rewrite Hs in Hs'. injection Hs' as <-.
      destruct (log_after_prefix start
                  (elements (list_to_set (extract_ng_markers (e :: rest))
                             ∖ ng_5_times st : gset Z))
                  (ng_log st)) as [k ->].
      apply elem_of_app. left. exact Hrow.
    + apply log_after_row. apply elem_of_elements.
      apply elem_of_difference. split; assumption.
Qed.

Lemma steady_scene_alerts_witness :
  312%Z ∈ ng_5_times (fst (check_and_handle_ng alert_pending_state)).
Proof.
  destruct (check_area_trend_timebased (sma_areas alert_pending_state)
              (sma_time_stamps alert_pending_state) 4 (5 # 100) (7 # 10)
              210) as [[| e rest] | err] eqn:H5;
    try (vm_compute in H5; discriminate).
  assert (E : time_sec e = 312%Z)
    by (vm_compute in H5; injection H5 as <- _; reflexivity).
  rewrite <- E.
  refine (proj1 (proj2 (steady_scene_alerts alert_pending_state 100 0
                          e rest _ _ _ _ H5))).
  - apply run_reachable, reachable_init.
  - reflexivity.
  - vm_compute. repeat (constructor; [reflexivity |]). constructor.
  - reflexivity.
Defined.
